(** * wiper: the cleanup resolution and execution engine

    A shallow embedding of the Go sources of kodelint/wiper
    (pkg/reclaimer, pkg/utils, pkg/cleaner, cmd) and the properties of
    its ledger, size calculator, ignore filter, classifier and
    confirmation state machine.

    Functions become functions on explicit state: the file system that
    [os.Lstat] and [filepath.Walk] read, the lines on standard input,
    the process environment, and the two ledgers a run is given pointers
    to.  What [filepath.Glob] and [os.Stat] answer is a record of the
    host.  Logging, colours and the layout of the tables are left out;
    the prompts, the tables and the calls of the deletion primitive are
    kept as events. *)

From Stdlib Require Import ZArith Lia Ascii String List Bool Sorted.
From stdpp Require Import gmap strings list fin_maps.

Local Open Scope Z_scope.

(** ** int64 arithmetic

    Go's [int64] is a 64-bit two's complement integer; [+] and [*] wrap
    around silently. *)
Module Int64.

Definition wrap64 (z : Z) : Z := (z + 2 ^ 63) mod 2 ^ 64 - 2 ^ 63.

Definition add (a b : Z) : Z := wrap64 (a + b).
Definition mul (a b : Z) : Z := wrap64 (a * b).

Definition in_range (z : Z) : Prop := - 2 ^ 63 <= z < 2 ^ 63.

(** The mathematical sum. *)
Definition zsum (l : list Z) : Z := fold_right Z.add 0 l.

End Int64.

(** ** The [strings] package functions the sources call *)
Module Strings.

(** [strings.HasPrefix(s, p)] *)
Fixpoint HasPrefix (s p : string) : bool :=
  match p, s with
  | EmptyString, _ => true
  | String _ _, EmptyString => false
  | String b p', String a s' => if Ascii.eqb a b then HasPrefix s' p' else false
  end.

(** [strings.Contains(s, sub)] *)
Fixpoint Contains (s sub : string) : bool :=
  if HasPrefix s sub then true
  else match s with
       | EmptyString => false
       | String _ s' => Contains s' sub
       end.

Fixpoint drop (n : nat) (s : string) : string :=
  match n, s with
  | O, _ => s
  | S _, EmptyString => EmptyString
  | S n', String _ s' => drop n' s'
  end.

(** [strings.Replace(s, old, new, 1)]: the first occurrence only. *)
Fixpoint ReplaceFirst (s old new : string) : string :=
  if HasPrefix s old then new +:+ drop (String.length old) s
  else match s with
       | EmptyString => EmptyString
       | String a s' => String a (ReplaceFirst s' old new)
       end.

(** [strings.ReplaceAll(s, old, new)] for a non-empty [old]:
    non-overlapping occurrences, left to right.  The recursion is on a
    fuel that the length of [s] always covers. *)
Fixpoint ReplaceAll_aux (fuel : nat) (s old new : string) : string :=
  match fuel with
  | O => s
  | S fuel' =>
      match s with
      | EmptyString => EmptyString
      | String a s' =>
          if HasPrefix s old
          then new +:+ ReplaceAll_aux fuel' (drop (String.length old) s) old new
          else String a (ReplaceAll_aux fuel' s' old new)
      end
  end.

Definition ReplaceAll (s old new : string) : string :=
  ReplaceAll_aux (String.length s) s old new.

Definition lower_ascii (a : ascii) : ascii :=
  let n := nat_of_ascii a in
  if ((65 <=? n) && (n <=? 90))%nat then ascii_of_nat (n + 32) else a.

(** [strings.ToLower] on the bytes of [s].  Only ASCII letters are
    mapped; Go also lowers letters outside ASCII, none of which lowers
    to one of the letters y, e, s, n, o that the sources compare with. *)
Fixpoint ToLower (s : string) : string :=
  match s with
  | EmptyString => EmptyString
  | String a s' => String (lower_ascii a) (ToLower s')
  end.

(** The UTF-8 encodings of the code points [unicode.IsSpace] accepts. *)
Definition spaces : list string :=
  let b := fun n => String (ascii_of_nat n) EmptyString in
  let b2 := fun x y => String (ascii_of_nat x) (b y) in
  let b3 := fun x y z => String (ascii_of_nat x) (b2 y z) in
  [ b 9; b 10; b 11; b 12; b 13; b 32;
    b2 194 133; b2 194 160; b3 225 154 128;
    b3 226 128 128; b3 226 128 129; b3 226 128 130; b3 226 128 131;
    b3 226 128 132; b3 226 128 133; b3 226 128 134; b3 226 128 135;
    b3 226 128 136; b3 226 128 137; b3 226 128 138;
    b3 226 128 168; b3 226 128 169; b3 226 128 175; b3 226 129 159;
    b3 227 128 128 ]%nat.

Fixpoint rev_string (s acc : string) : string :=
  match s with
  | EmptyString => acc
  | String a s' => rev_string s' (String a acc)
  end.

Definition leading_space (sps : list string) (s : string) : option nat :=
  String.length <$> List.find (HasPrefix s) sps.

Fixpoint TrimLeft_aux (fuel : nat) (sps : list string) (s : string) : string :=
  match fuel with
  | O => s
  | S fuel' =>
      match leading_space sps s with
      | Some k => TrimLeft_aux fuel' sps (drop k s)
      | None => s
      end
  end.

(** [strings.TrimSpace(s)]: white space is cut at both ends; the right
    end is cut on the reversed bytes. *)
Definition TrimSpace (s : string) : string :=
  let l := TrimLeft_aux (String.length s) spaces s in
  let r := TrimLeft_aux (String.length l)
             ((fun x => rev_string x EmptyString) <$> spaces)
             (rev_string l EmptyString) in
  rev_string r EmptyString.

End Strings.

(** ** Errors

    Go's [error] values: the operating system's errors, of which the
    sources tell "does not exist" from the rest, the errors the sources
    make with [fmt.Errorf] around another error ([%w]), and the ones
    without a cause. *)
Inductive error : Type :=
| ENOENT
| EOS (msg : string)
| Wrapped (msg : string) (cause : error)
| ErrorString (msg : string).

(** [os.IsNotExist] *)
Definition IsNotExist (e : error) : bool :=
  match e with ENOENT => true | _ => false end.

(** ** pkg/reclaimer: the ledger *)
Module Reclaimer.

Record ReclaimedEntry : Type := mkEntry {
  Path : string;
  SizeReclaimed : Z;
  WasRemoved : bool;
  Category : string
}.

Record SummaryTable : Type := mkTable { Entries : list ReclaimedEntry }.

Definition NewSummaryTable : SummaryTable := mkTable [].

Definition AddEntry (st : SummaryTable) (path : string) (sizeReclaimed : Z)
    (wasRemoved : bool) (category : string) : SummaryTable :=
  mkTable (Entries st ++ [mkEntry path sizeReclaimed wasRemoved category]).

Definition TotalReclaimedBytes (st : SummaryTable) : Z :=
  fold_left (fun total entry => Int64.add total (SizeReclaimed entry)) (Entries st) 0.

(** [groupedTotals[entry.Category] += entry.SizeReclaimed]; a missing key
    reads as 0. *)
Definition addTo (m : gmap string Z) (key : string) (size : Z) : gmap string Z :=
  <[key := Int64.add (default 0 (m !! key)) size]> m.

Definition groupedTotals (dryRun : bool) (st : SummaryTable) : gmap string Z :=
  fold_left
    (fun m entry =>
       if dryRun then addTo m (Category entry) (SizeReclaimed entry)
       else if WasRemoved entry then addTo m (Category entry) (SizeReclaimed entry)
       else m)
    (Entries st) ∅.

Fixpoint insert_sorted (s : string) (l : list string) : list string :=
  match l with
  | [] => [s]
  | x :: l' => if String.leb s x then s :: l else x :: insert_sorted s l'
  end.

(** [sort.Strings]: ascending byte order. *)
Definition sortStrings (l : list string) : list string :=
  fold_right insert_sorted [] l.

(** What [PrintTable] renders: one row per category, in sorted order,
    and the footer. *)
Record TableView : Type := mkView {
  title : string;
  rows : list (string * Z);
  footer : Z
}.

(** [PrintTable(dryRun, title)] gives the table it writes to standard
    output, or nothing for a table without entries.  The categories are
    sorted before they are rendered, so the order in which the map is
    ranged over does not show. *)
Definition PrintTable (st : SummaryTable) (dryRun : bool) (title : string)
    : option TableView :=
  match Entries st with
  | [] => None
  | _ :: _ =>
      let totals := groupedTotals dryRun st in
      let categories := sortStrings ((map_to_list totals).*1) in
      Some (mkView title
              ((fun category => (category, default 0 (totals !! category))) <$> categories)
              (TotalReclaimedBytes st))
  end.

End Reclaimer.

(** ** path/filepath on a POSIX system *)
Module Filepath.

Definition Separator : string := "/".

(** The path elements between separators; the accumulator holds the
    bytes of the element being read, in reverse. *)
Fixpoint split_aux (s : string) (cur : string) : list string :=
  match s with
  | EmptyString => [Strings.rev_string cur EmptyString]
  | String a s' =>
      if Ascii.eqb a "/"%char
      then Strings.rev_string cur EmptyString :: split_aux s' EmptyString
      else split_aux s' (String a cur)
  end.

Definition split (s : string) : list string := split_aux s EmptyString.

(** One element of a path against the stack of the elements kept so far
    (the innermost first). *)
Definition clean_step (rooted : bool) (stack : list string) (c : string)
    : list string :=
  if String.eqb c "" || String.eqb c "." then stack
  else if String.eqb c ".." then
    match stack with
    | [] => if rooted then [] else [c]
    | top :: rest => if String.eqb top ".." then c :: stack else rest
    end
  else c :: stack.

(** The elements that remain of a path, the outermost first. *)
Definition components (path : string) : list string :=
  rev (fold_left (clean_step (Strings.HasPrefix path "/")) (split path) []).

Definition join_with (sep : string) (l : list string) : string :=
  String.concat sep l.

(** [filepath.Clean]: no doubled separators, no [.] elements, no inner
    [..] elements, no [..] at the start of a rooted path; the empty
    result is [.]. *)
Definition Clean (path : string) : string :=
  let cs := components path in
  if Strings.HasPrefix path "/" then "/" +:+ join_with "/" cs
  else match cs with
       | [] => "."
       | _ :: _ => join_with "/" cs
       end.

(** [filepath.Join]: the elements from the first non-empty one on,
    joined by separators and cleaned. *)
Fixpoint Join (elem : list string) : string :=
  match elem with
  | [] => ""
  | e :: rest => if String.eqb e "" then Join rest else Clean (join_with "/" elem)
  end.

Definition IsAbs (path : string) : bool := Strings.HasPrefix path "/".

(** [filepath.Abs], given what [os.Getwd] returns. *)
Definition Abs (getwd : string + error) (path : string) : string + error :=
  if IsAbs path then inl (Clean path)
  else match getwd with
       | inr err => inr err
       | inl wd => inl (Join [wd; path])
       end.

End Filepath.

(** ** The world the program runs in *)
Module Os.

(** What [os.Lstat] tells about a file: whether it is a directory, the
    number of 512-byte blocks when the underlying data is a
    [syscall.Stat_t], and the length in bytes. *)
Record FileInfo : Type := mkInfo {
  IsDir : bool;
  Sys : option Z;
  Size : Z
}.

(** A file tree as [filepath.Walk] sees it.  A directory's entries are
    [None] when it cannot be listed; an entry's tree is [None] when
    [os.Lstat] fails on it.  A node that is no directory has no use for
    its entries. *)
#[local] Unset Elimination Schemes.
Inductive Tree : Type :=
| Node (info : FileInfo) (entries : option (list (string * option Tree))).

#[local] Set Elimination Schemes.

Definition info_of (t : Tree) : FileInfo := match t with Node info _ => info end.

Inductive LstatResult : Type :=
| LstatErr (e : error)
| LstatOk (t : Tree).

(** The file system answers [os.Lstat] at every path. *)
Definition FS : Type := string -> LstatResult.

(** The process environment: [$HOME] (empty when unset) and the result
    of [os.Getwd]. *)
Record Env : Type := mkEnv {
  HOME : string;
  Getwd : string + error
}.

(** [os.UserHomeDir] on a Unix system. *)
Definition UserHomeDir (env : Env) : string + error :=
  if String.eqb (HOME env) "" then inr (ErrorString "$HOME is not defined")
  else inl (HOME env).

End Os.

(** ** pkg/utils *)
Module Utils.
Import Os.

(** What a [filepath.WalkFunc] returns. *)
Inductive WalkRet : Type :=
| RetNil
| RetSkipDir
| RetErr (e : error).

(** What a [filepath.WalkFunc] is called with: the info of a path, or
    the error met there (with the info when there is one). *)
Inductive Visit : Type :=
| Visited (info : FileInfo)
| Failed (info : option FileInfo) (err : error).

Definition WalkFunc (S : Type) : Type := string -> Visit -> S -> S * WalkRet.

Definition readdir_error : error := EOS "readdirnames".
Definition lstat_error : error := EOS "lstat".

(** The loop of [filepath.walk] over the entries of a directory;
    [walkChild] is [walk] itself, on an entry. *)
Fixpoint walkEntries {S : Type} (walkFn : WalkFunc S)
    (walkChild : string -> Tree -> S -> S * WalkRet) (path : string)
    (names : list (string * option Tree)) (s : S) {struct names} : S * WalkRet :=
  match names with
  | [] => (s, RetNil)
  | (name, child) :: rest =>
      let filename := Filepath.Join [path; name] in
      match child with
      | None =>
          let '(s', err) := walkFn filename (Failed None lstat_error) s in
          match err with
          | RetErr _ => (s', err)
          | _ => walkEntries walkFn walkChild path rest s'
          end
      | Some t' =>
          let '(s', err) := walkChild filename t' s in
          match err with
          | RetNil => walkEntries walkFn walkChild path rest s'
          | RetSkipDir =>
              if IsDir (info_of t') then walkEntries walkFn walkChild path rest s'
              else (s', err)
          | RetErr _ => (s', err)
          end
      end
  end.

(** [filepath.walk]: the function on the path itself, then on the
    entries of a directory in turn.  A directory that cannot be listed
    is reported to the function with the error, once. *)
Fixpoint walk {S : Type} (walkFn : WalkFunc S) (path : string) (t : Tree) (s : S)
    {struct t} : S * WalkRet :=
  match t with
  | Node info entries =>
      if negb (IsDir info) then walkFn path (Visited info) s
      else
        match entries with
        | None => walkFn path (Failed (Some info) readdir_error) s
        | Some names =>
            let '(s1, err1) := walkFn path (Visited info) s in
            match err1 with
            | RetNil => walkEntries walkFn (walk walkFn) path names s1
            | _ => (s1, err1)
            end
        end
  end.

(** [filepath.Walk] *)
Definition Walk {S : Type} (fs : FS) (root : string) (fn : WalkFunc S) (s : S)
    : S * option error :=
  let '(s', err) :=
    match fs root with
    | LstatErr e => fn root (Failed None e) s
    | LstatOk t => walk fn root t s
    end in
  match err with
  | RetErr e => (s', Some e)
  | _ => (s', None)
  end.

(** The on-disk size of one walked entry: 512 bytes for each block, or
    the logical length without block data. *)
Definition allocation (info : FileInfo) : Z :=
  match Sys info with
  | Some blocks => Int64.mul blocks 512
  | None => Size info
  end.

(** The function [GetFileSizeInBytes] walks with, on [totalSize]. *)
Definition sizeWalkFn : WalkFunc Z :=
  fun subPath visit totalSize =>
    match visit with
    | Failed _ _ => (totalSize, RetSkipDir)
    | Visited subInfo =>
        if IsDir subInfo then (Int64.add totalSize (allocation subInfo), RetNil)
        else (Int64.add totalSize (allocation subInfo), RetNil)
    end.

Definition GetFileSizeInBytes (fs : FS) (path : string) : Z * option error :=
  match fs path with
  | LstatErr err =>
      if IsNotExist err then (0, None)
      else (0, Some (Wrapped ("failed to get info for " +:+ path) err))
  | LstatOk t =>
      let info := info_of t in
      let walked :=
        let '(totalSize, err) := Walk fs path sizeWalkFn 0 in
        match err with
        | Some e => (0, Some (Wrapped ("failed to walk path " +:+ path) e))
        | None => (totalSize, None)
        end in
      match Sys info with
      | Some blocks => if negb (IsDir info) then (Int64.mul blocks 512, None) else walked
      | None => if negb (IsDir info) then (Size info, None) else walked
      end
  end.

(** [RemovePath]: the size is measured, and returned as it is; the call
    of [os.RemoveAll] is commented out in the source, so the file system
    is read and never written.  The function takes the file system and
    gives it back, as the caller has it after the call. *)
Definition RemovePath (fs : FS) (path : string) (dryRun : bool)
    : (Z * option error) * FS :=
  let '(size, err) := GetFileSizeInBytes fs path in
  match err with
  | Some e =>
      ((0, Some (Wrapped ("could not get size of " +:+ path +:+ " before removal") e)), fs)
  | None =>
      if dryRun then ((size, None), fs)
      else ((size, None), fs)
  end.

(** [ExpandPath] *)
Definition ExpandPath (env : Env) (path : string) : string :=
  if Strings.HasPrefix path "~" then
    match UserHomeDir env with
    | inl homeDir => Filepath.Join [homeDir; Strings.drop 1 path]
    | inr _ => path
    end
  else if Strings.Contains path "$HOME" then
    let homeDir := HOME env in
    if negb (String.eqb homeDir "") then Strings.ReplaceAll path "$HOME" homeDir
    else path
  else if Strings.Contains path "${HOME}" then
    let homeDir := HOME env in
    if negb (String.eqb homeDir "") then Strings.ReplaceAll path "${HOME}" homeDir
    else path
  else path.

(** The loop of [ContainsPath] over the ignore entries, for a target
    made absolute. *)
Fixpoint containsLoop (env : Env) (absTargetPath : string) (ignorePaths : list string)
    : bool :=
  match ignorePaths with
  | [] => false
  | ignored :: rest =>
      let expandedIgnored := ExpandPath env ignored in
      match Filepath.Abs (Getwd env) expandedIgnored with
      | inr _ => containsLoop env absTargetPath rest
      | inl absIgnoredPath =>
          let cleanTargetPath := Filepath.Clean absTargetPath in
          let cleanIgnoredPath := Filepath.Clean absIgnoredPath in
          if String.eqb cleanTargetPath cleanIgnoredPath
             || Strings.HasPrefix cleanTargetPath
                  (cleanIgnoredPath +:+ Filepath.Separator)
          then true
          else containsLoop env absTargetPath rest
      end
  end.

(** [ContainsPath] *)
Definition ContainsPath (env : Env) (targetPath : string) (ignorePaths : list string)
    : bool :=
  match Filepath.Abs (Getwd env) targetPath with
  | inr _ => false
  | inl absTargetPath => containsLoop env absTargetPath ignorePaths
  end.

Definition IsPathIgnored (env : Env) (path : string) (ignorePaths : list string) : bool :=
  ContainsPath env path ignorePaths.

End Utils.

(** ** pkg/cleaner *)
Module Cleaner.
Import Os.

Record cleanupItem : Type := mkItem {
  Path : string;
  Size : Z;
  Category : string;
  ActualPath : string
}.

Record dryRunItem : Type := mkDryRunItem {
  dryPath : string;
  drySize : Z
}.

(** The questions [ConfirmAction] is asked with, by what the prompt is
    formatted from. *)
Inductive Prompt : Type :=
| DeletePrompt (actualPath : string) (size : Z) (category : string)
| CleanupPrompt (total : Z)
| UninstallPrompt (appName : string).

(** What a run does that its caller can observe: the calls of
    [utils.RemovePath], the prompts and the tables written to the
    terminal. *)
Inductive Event : Type :=
| EvRemovePath (path : string) (dryRun : bool)
| EvPrompt (prompt : Prompt)
| EvTable (view : Reclaimer.TableView).

(** The state a run works on: the file system, the lines the reads of
    standard input will return, in order, and the events so far (the
    latest last).  On a terminal the lines are those the operator types,
    one per read.  Each [ConfirmAction] makes a [bufio.Reader] of its
    own: on a pipe or a file that reader may take more than it returns,
    and what it took and did not return is lost to the next call; such
    lines are not among these. *)
Record World : Type := mkWorld {
  fs : FS;
  stdin : list string;
  events : list Event
}.

(** Computations on the world. *)
Definition M (A : Type) : Type := World -> A * World.

Definition ret {A : Type} (a : A) : M A := fun w => (a, w).

Definition bind {A B : Type} (m : M A) (k : A -> M B) : M B :=
  fun w => let '(a, w') := m w in k a w'.

Notation "'let*' x ':=' c1 'in' c2" := (bind c1 (fun x => c2))
  (at level 10, x pattern, c1 at level 100, c2 at level 200, only parsing).

Definition emit (e : Event) : M unit :=
  fun w => (tt, mkWorld (fs w) (stdin w) (events w ++ [e])).

Definition printTable (st : Reclaimer.SummaryTable) (dryRun : bool) (title : string)
    : M unit :=
  match Reclaimer.PrintTable st dryRun title with
  | None => ret tt
  | Some view => emit (EvTable view)
  end.

(** The call [utils.RemovePath(path, dryRun)] in the world. *)
Definition removePath (path : string) (dryRun : bool) : M (Z * option error) :=
  fun w =>
    let '(r, fs') := Utils.RemovePath (fs w) path dryRun in
    (r, mkWorld fs' (stdin w) (events w ++ [EvRemovePath path dryRun])).

(** What one line of input means to [ConfirmAction]. *)
Inductive Answer : Type := Yes | No | Invalid.

Definition classify (line : string) : Answer :=
  let input := Strings.ToLower (Strings.TrimSpace line) in
  if String.eqb input "y" || String.eqb input "yes" then Yes
  else if String.eqb input "n" || String.eqb input "no" || String.eqb input "" then No
  else Invalid.

(** The loop of [ConfirmAction] over the lines still to come: the
    answer, the lines left, and how often the prompt was printed.  Past
    the last line every read gives the empty string, which means no. *)
Fixpoint confirmLoop (lines : list string) : bool * list string * nat :=
  match lines with
  | [] => (false, [], 1%nat)
  | line :: rest =>
      match classify line with
      | Yes => (true, rest, 1%nat)
      | No => (false, rest, 1%nat)
      | Invalid => let '(answer, rest', n) := confirmLoop rest in (answer, rest', S n)
      end
  end.

(** [ConfirmAction]: the lines are read by one reader, one after
    another, until one is an answer.  The lines left in the world are
    those the reads after the call return (see [World]). *)
Definition ConfirmAction (prompt : Prompt) : M bool :=
  fun w =>
    let '(answer, rest, n) := confirmLoop (stdin w) in
    (answer, mkWorld (fs w) rest (events w ++ replicate n (EvPrompt prompt))).

(** A [for _, item := range items] loop with a state. *)
Fixpoint forEach {A S : Type} (body : A -> S -> M S) (l : list A) (s : S) : M S :=
  match l with
  | [] => ret s
  | a :: l' => let* s' := body a s in forEach body l' s'
  end.

(** The removal of one item, as the three deletion loops of
    [processCleanupItems] have it, on the actual ledger and
    [actualRemovedSize]. *)
Definition removeItem (item : cleanupItem) (st : Reclaimer.SummaryTable * Z)
    : M (Reclaimer.SummaryTable * Z) :=
  let '(summary, actualRemovedSize) := st in
  let* (reclaimed, err) := removePath (ActualPath item) false in
  match err with
  | Some _ =>
      ret (Reclaimer.AddEntry summary (ActualPath item) (Size item) false (Category item),
           actualRemovedSize)
  | None =>
      ret (Reclaimer.AddEntry summary (ActualPath item) reclaimed true (Category item),
           Int64.add actualRemovedSize reclaimed)
  end.

(** The body of the interactive loop. *)
Definition confirmItem (item : cleanupItem) (st : Reclaimer.SummaryTable * Z)
    : M (Reclaimer.SummaryTable * Z) :=
  let* yes := ConfirmAction (DeletePrompt (ActualPath item) (Size item) (Category item)) in
  if (yes : bool) then removeItem item st
  else
    let '(summary, actualRemovedSize) := st in
    ret (Reclaimer.AddEntry summary (ActualPath item) (Size item) false (Category item),
         actualRemovedSize).

(** The key an item is shown under in the aggregated table. *)
Definition displayKey (item : cleanupItem) : string :=
  if String.eqb (Path item) (ActualPath item) && negb (String.eqb (Category item) "")
  then Category item
  else Path item.

(** Step 1 of [processCleanupItems]: the loop that fills
    [aggregatedForTable] and the estimated ledger. *)
Definition aggregate (items : list cleanupItem) (estimatedSummary : Reclaimer.SummaryTable)
    : gmap string Z * Reclaimer.SummaryTable :=
  fold_left
    (fun '(aggregatedForTable, estimatedSummary) item =>
       (Reclaimer.addTo aggregatedForTable (displayKey item) (Size item),
        Reclaimer.AddEntry estimatedSummary (ActualPath item) (Size item) false
          (Category item)))
    items (∅, estimatedSummary).

(** What [processCleanupItems] returns, and the two ledgers it was given
    pointers to, as it leaves them.  The callers allocate the two tables
    apart ([cmd/wipe.go]), so they are two values here. *)
Record Outcome : Type := mkOutcome {
  totalReclaimed : Z;
  err : option error;
  summary : Reclaimer.SummaryTable;
  estimatedSummary : Reclaimer.SummaryTable
}.

Section MapOrder.

(** Go ranges over a map in an order of its own choice. *)
Variable range_order : gmap string Z -> list (string * Z).

Definition processCleanupItems (items : list cleanupItem) (dryRun interactive : bool)
    (summary estimatedSummary : Reclaimer.SummaryTable) (tableTitle : string)
    (isApp : bool) : M Outcome :=
  match items with
  | [] => ret (mkOutcome 0 None summary estimatedSummary)
  | _ :: _ =>
      let '(aggregatedForTable, estimatedSummary) := aggregate items estimatedSummary in
      let tableItems :=
        (fun '(category, size) => mkDryRunItem category size)
          <$> range_order aggregatedForTable in
      let* _ := printTable estimatedSummary true "Estimated Reclaimed Summary" in
      if dryRun then
        ret (mkOutcome
               (fold_left (fun total item => Int64.add total (drySize item)) tableItems 0)
               None summary estimatedSummary)
      else if interactive then
        let* (summary, actualRemovedSize) := forEach confirmItem items (summary, 0) in
        ret (mkOutcome actualRemovedSize None summary estimatedSummary)
      else if isApp then
        let* (summary, actualRemovedSize) := forEach removeItem items (summary, 0) in
        ret (mkOutcome actualRemovedSize None summary estimatedSummary)
      else
        let totalPotentialReclaimed :=
          fold_left (fun total item => Int64.add total (drySize item)) tableItems 0 in
        let* yes := ConfirmAction (CleanupPrompt totalPotentialReclaimed) in
        if (yes : bool) then
          let* (summary, actualRemovedSize) := forEach removeItem items (summary, 0) in
          ret (mkOutcome actualRemovedSize None summary estimatedSummary)
        else ret (mkOutcome 0 None summary estimatedSummary)
  end.

End MapOrder.

(** [categorizeLargeFilePath] *)
Definition categorizeLargeFilePath (env : Env) (path : string) : string :=
  match UserHomeDir env with
  | inr _ =>
      if Strings.HasPrefix path "/private/var" || Strings.HasPrefix path "/tmp"
      then "System Temporary Files"
      else "Other Large Files"
  | inl homeDir =>
      let normalizedPath :=
        if Strings.HasPrefix path homeDir then Strings.ReplaceFirst path homeDir "~"
        else path in
      if Strings.Contains normalizedPath "~/Library/Application Support/Google/Chrome"
         || Strings.Contains normalizedPath "~/Library/Caches/Google/Chrome"
         || Strings.Contains normalizedPath
              "~/Library/Application Support/BraveSoftware/Brave-Browser"
         || Strings.Contains normalizedPath "~/Library/Caches/com.apple.Safari"
         || Strings.Contains normalizedPath "~/Library/Application Support/Firefox"
      then "Browser Caches"
      else if Strings.HasPrefix normalizedPath "~/Downloads" then "User Downloads"
      else if Strings.HasPrefix normalizedPath "~/Documents" then "User Documents"
      else if Strings.HasPrefix normalizedPath "~/Library/Application Support"
      then "Application Support Files"
      else if Strings.HasPrefix normalizedPath "~/Library/Caches" then "User Caches"
      else if Strings.HasPrefix normalizedPath "~/Library/Containers"
      then "User Container Data"
      else if Strings.HasPrefix normalizedPath "~/Library/Group Containers"
      then "User Group Container Data"
      else if Strings.HasPrefix normalizedPath "~/Library/Messages/Attachments"
      then "Messages Attachments"
      else if Strings.HasPrefix normalizedPath "~/Library/Metadata/CoreSpotlight"
      then "Spotlight Metadata"
      else if Strings.HasPrefix normalizedPath "~/Library" then "Other User Library Files"
      else if Strings.HasPrefix path "/private/var/folders"
              || Strings.HasPrefix path "/private/var/tmp"
              || Strings.HasPrefix path "/tmp"
      then "System Temporary Files"
      else if Strings.Contains normalizedPath ".rustup"
              || Strings.Contains normalizedPath ".npm"
              || Strings.Contains normalizedPath ".gradle"
              || Strings.Contains normalizedPath "Xcode/iOS DeviceSupport"
              || Strings.Contains normalizedPath "Android/Sdk"
              || Strings.Contains normalizedPath "JetBrains"
      then "Developer Tool Caches/Data"
      else if Strings.HasPrefix normalizedPath "~/" then "User Home Files"
      else if Strings.HasPrefix path "/var" || Strings.HasPrefix path "/usr"
              || Strings.HasPrefix path "/opt"
      then "System Files"
      else "Other Large Files"
  end.

End Cleaner.

(** ** cmd: the wipe command *)
Module Cmd.
Import Cleaner.

(** The flags that [RootCmd] and [wipeCmd] bind. *)
Record Flags : Type := mkFlags {
  dryRunFlag : bool;
  largeFilesFlag : bool;
  interactiveFlag : bool;
  IgnorePaths : list string
}.

(** What the three entry points of pkg/cleaner return, and the two
    ledgers they were given pointers to, as they leave them. *)
Definition Cleaned : Type :=
  (Z * option error) * Reclaimer.SummaryTable * Reclaimer.SummaryTable.

Definition conflictError : error :=
  ErrorString "the --large-files flag cannot be used with an application name".

Section RunE.

(** The discovery strategies, which [RunE] only calls. *)
Variable CleanLargeFiles :
  bool -> list string -> Reclaimer.SummaryTable -> Reclaimer.SummaryTable -> bool -> M Cleaned.
Variable UninstallApplication :
  string -> bool -> list string -> Reclaimer.SummaryTable -> Reclaimer.SummaryTable -> M Cleaned.
Variable CleanSystem :
  bool -> list string -> Reclaimer.SummaryTable -> Reclaimer.SummaryTable -> M Cleaned.

(** The end of [RunE]: the table of the actual ledger. *)
Definition finish (summary : Reclaimer.SummaryTable) : M (option error) :=
  let* _ := printTable summary false "Reclaimed Disk Summary" in
  ret None.

(** [wipeCmd.RunE]; cobra has checked that there is at most one
    argument. *)
Definition RunE (flags : Flags) (args : list string) : M (option error) :=
  let summary := Reclaimer.NewSummaryTable in
  let estimatedSummary := Reclaimer.NewSummaryTable in
  if largeFilesFlag flags then
    if (0 <? length args)%nat then ret (Some conflictError)
    else
      let* (r, summary, estimatedSummary) :=
        CleanLargeFiles (dryRunFlag flags) (IgnorePaths flags) summary estimatedSummary
          (interactiveFlag flags) in
      match snd r with
      | Some err => ret (Some (Wrapped "failed to clean large files" err))
      | None => finish summary
      end
  else
    match args with
    | [appName] =>
        let* yes := ConfirmAction (UninstallPrompt appName) in
        if (yes : bool) then
          let* (r, summary, estimatedSummary) :=
            UninstallApplication appName (dryRunFlag flags) (IgnorePaths flags) summary
              estimatedSummary in
          match snd r with
          | Some err => ret (Some (Wrapped ("failed to uninstall " +:+ appName) err))
          | None => finish summary
          end
        else ret (Some (ErrorString ("aborting uninstallation of " +:+ appName)))
    | _ =>
        let* (r, summary, estimatedSummary) :=
          CleanSystem (dryRunFlag flags) (IgnorePaths flags) summary estimatedSummary in
        match snd r with
        | Some err => ret (Some (Wrapped "failed to clean system" err))
        | None => finish summary
        end
    end.

End RunE.

End Cmd.

(** ** More of the [strings] package *)
Module StringsMore.

(** [strings.HasSuffix(s, suffix)]:
    [len(s) >= len(suffix) && s[len(s)-len(suffix):] == suffix]. *)
Definition HasSuffix (s suffix : string) : bool :=
  (String.length suffix <=? String.length s)%nat
  && String.eqb (Strings.drop (String.length s - String.length suffix) s) suffix.

(** [strings.TrimSuffix(s, suffix)] *)
Definition TrimSuffix (s suffix : string) : string :=
  if HasSuffix s suffix
  then String.substring 0 (String.length s - String.length suffix) s
  else s.

(** [strings.Split(s, sep)] for a separator of one byte: the pieces
    between the separators, one more than there are separators.  The
    accumulator holds the bytes of the piece being read, in reverse. *)
Fixpoint Split_aux (sep : ascii) (s : string) (cur : string) : list string :=
  match s with
  | EmptyString => [Strings.rev_string cur EmptyString]
  | String a s' =>
      if Ascii.eqb a sep
      then Strings.rev_string cur EmptyString :: Split_aux sep s' EmptyString
      else Split_aux sep s' (String a cur)
  end.

Definition Split (s : string) (sep : ascii) : list string := Split_aux sep s EmptyString.

End StringsMore.

(** ** The host beside the file system

    What the sources ask the operating system besides [os.Lstat]:
    [filepath.Glob], which gives the paths that match a pattern or the
    error of a malformed pattern, and [os.Stat], of which the sources
    use the error and the time since the last modification (a
    [time.Duration], in nanoseconds). *)
Module Host.

Inductive StatResult : Type :=
| StatErr (e : error)
| StatOk (sinceModTime : Z).

Record Host : Type := mkHost {
  Glob : string -> list string + error;
  Stat : string -> StatResult
}.

Definition statOk (host : Host) (path : string) : bool :=
  match Stat host path with StatOk _ => true | StatErr _ => false end.

End Host.

(** ** pkg/utils: the search for application paths *)
Module Paths.
Import Os Host.

(** The nine places [FindPaths] and [UninstallApplication] look for the
    data of an application, under a home directory.  The name of the
    application is the operator's, and [strings.ToLower] maps every
    letter that Unicode knows, where [Strings.ToLower] has the ASCII
    letters alone: the function is the parameter [toLower] here, and
    what is proved holds for every function in its place. *)
Definition appDataPaths (toLower : string -> string) (homeDir appName : string)
    : list string :=
  let domain :=
    "com." +:+ toLower (Strings.ReplaceAll appName " " "") +:+ ".*" in
  [ Filepath.Join [homeDir; "Library"; "Application Support"; appName];
    Filepath.Join [homeDir; "Library"; "Caches"; appName];
    Filepath.Join [homeDir; "Library"; "Preferences"; domain];
    Filepath.Join [homeDir; "Library"; "Saved Application State"; domain];
    Filepath.Join [homeDir; "Library"; "Containers"; "*" +:+ appName +:+ "*"];
    Filepath.Join [homeDir; "Library"; "Group Containers"; "*" +:+ appName +:+ "*"];
    Filepath.Join ["/Library"; "Application Support"; appName];
    Filepath.Join ["/Library"; "Caches"; appName];
    Filepath.Join ["/Library"; "Preferences"; domain] ].

(** The loop that drops the paths seen before: the set [uniquePaths]
    and the slice [result]. *)
Definition unique (foundPaths : list string) : list string :=
  snd (fold_left
         (fun '(uniquePaths, result) p =>
            if decide (p ∈ (uniquePaths : gset string)) then (uniquePaths, result)
            else ({[ p ]} ∪ uniquePaths, result ++ [p]))
         foundPaths (∅, [])).

(** The matches of the patterns [basePath/name]. *)
Definition bundleMatches (host : Host) (basePaths : list string) (name : string)
    : list string :=
  fold_left
    (fun foundPaths basePath =>
       match Glob host (Filepath.Join [basePath; name]) with
       | inr _ => foundPaths
       | inl matches => foundPaths ++ matches
       end)
    basePaths [].

(** The matches of the application data patterns that [os.Stat]
    finds. *)
Definition dataMatches (host : Host) (patterns : list string) (foundPaths : list string)
    : list string :=
  fold_left
    (fun foundPaths p =>
       match Glob host p with
       | inr _ => foundPaths
       | inl matches => foundPaths ++ List.filter (statOk host) matches
       end)
    patterns foundPaths.

(** [FindPaths] *)
Definition FindPaths (env : Env) (host : Host) (toLower : string -> string)
    (basePaths : list string) (name : string) : list string :=
  let foundPaths := bundleMatches host basePaths name in
  let foundPaths :=
    if StringsMore.HasSuffix name ".app" then
      match UserHomeDir env with
      | inr _ => foundPaths
      | inl homeDir =>
          let appName := StringsMore.TrimSuffix name ".app" in
          dataMatches host (appDataPaths toLower homeDir appName) foundPaths
      end
    else foundPaths in
  Reclaimer.sortStrings (unique foundPaths).

End Paths.

(** ** pkg/cleaner: the three discovery strategies *)
Module LargeFiles.
Import Os Cleaner.

Definition largeFileThreshold : Z := 100 * 1024 * 1024.

Definition dirsToScan (env : Env) : list string :=
  [ Utils.ExpandPath env "/Users";
    Utils.ExpandPath env "/private/var/folders";
    Utils.ExpandPath env "/private/tmp";
    Utils.ExpandPath env "$HOME/Downloads";
    Utils.ExpandPath env "$HOME/Documents" ].

(** The ignore list of the scan: the applications folder of the user,
    then the entries of the operator that [filepath.Abs] resolves. *)
Definition cleanedIgnorePaths (env : Env) (ignorePaths : list string) : list string :=
  fold_left
    (fun cleaned p =>
       match Filepath.Abs (Getwd env) (Utils.ExpandPath env p) with
       | inr _ => cleaned
       | inl absPath => cleaned ++ [absPath]
       end)
    ignorePaths [Utils.ExpandPath env "$HOME/Applications/"].

(** The directories the scan does not enter. *)
Definition systemDir (path : string) : bool :=
  String.eqb path "/System" || String.eqb path "/Library" || String.eqb path "/usr"
  || String.eqb path "/Applications" || Strings.HasPrefix path "/Developer".

(** The function [CleanLargeFiles] walks with, on [itemsToProcess].  A
    path that cannot be read is logged, and the walk goes on. *)
Definition scanFn (env : Env) (cleaned : list string) : Utils.WalkFunc (list cleanupItem) :=
  fun path visit itemsToProcess =>
    match visit with
    | Utils.Failed _ _ => (itemsToProcess, Utils.RetNil)
    | Utils.Visited info =>
        if Utils.IsPathIgnored env path cleaned then
          if IsDir info then (itemsToProcess, Utils.RetSkipDir)
          else (itemsToProcess, Utils.RetNil)
        else if IsDir info then
          if systemDir path then (itemsToProcess, Utils.RetSkipDir)
          else (itemsToProcess, Utils.RetNil)
        else
          let actualSize :=
            match Sys info with
            | Some blocks => Int64.mul blocks 512
            | None => Os.Size info
            end in
          if largeFileThreshold <=? actualSize then
            (itemsToProcess
               ++ [mkItem path actualSize (categorizeLargeFilePath env path) path],
             Utils.RetNil)
          else (itemsToProcess, Utils.RetNil)
    end.

(** The loop over the directories to scan; the error of a walk is
    logged and dropped. *)
Definition scan (env : Env) (fs : FS) (cleaned : list string) (dirs : list string)
    : list cleanupItem :=
  fold_left
    (fun itemsToProcess dir => fst (Utils.Walk fs dir (scanFn env cleaned) itemsToProcess))
    dirs [].

Section MapOrder.

Variable range_order : gmap string Z -> list (string * Z).

(** [CleanLargeFiles] *)
Definition CleanLargeFiles (env : Env) (dryRun : bool) (ignorePaths : list string)
    (summary estimatedSummary : Reclaimer.SummaryTable) (interactive : bool)
    : M Cmd.Cleaned :=
  fun w =>
    let itemsToProcess :=
      scan env (fs w) (cleanedIgnorePaths env ignorePaths) (dirsToScan env) in
    let '(out, w') :=
      processCleanupItems range_order itemsToProcess dryRun interactive summary
        estimatedSummary "Detected Large Files" false w in
    match err out with
    | Some e =>
        ((0, Some (Wrapped "failed to process large files cleanup" e)),
         Cleaner.summary out, Cleaner.estimatedSummary out, w')
    | None =>
        ((totalReclaimed out, None), Cleaner.summary out, Cleaner.estimatedSummary out, w')
    end.

End MapOrder.

End LargeFiles.

Module App.
Import Os Cleaner Host.

(** [appInstallPaths] *)
Definition appInstallPaths (env : Env) : list string :=
  [ "/Applications"; Filepath.Join [HOME env; "Applications"] ].

(** The name [UninstallApplication] searches for. *)
Definition bundleName (appName : string) : string :=
  if negb (StringsMore.HasSuffix appName ".app") then appName +:+ ".app" else appName.

(** The candidate of a path found, when its size can be computed. *)
Definition candidate (fs : FS) (category path : string) (itemsToProcess : list cleanupItem)
    : list cleanupItem :=
  match Utils.GetFileSizeInBytes fs path with
  | (size, None) => itemsToProcess ++ [mkItem path size category path]
  | (_, Some _) => itemsToProcess
  end.

(** The loop over the application bundles (for no bundle the source
    only logs a warning). *)
Definition bundleItems (env : Env) (fs : FS) (ignorePaths : list string)
    (appBundlePaths : list string) : list cleanupItem :=
  fold_left
    (fun itemsToProcess bundlePath =>
       if negb (Utils.IsPathIgnored env bundlePath ignorePaths)
       then candidate fs "Application Bundle" bundlePath itemsToProcess
       else itemsToProcess)
    appBundlePaths [].

(** The loop over the leftover patterns and their matches. *)
Definition leftoverItems (env : Env) (host : Host) (fs : FS) (ignorePaths : list string)
    (leftoverSearchPatterns : list string) (itemsToProcess : list cleanupItem)
    : list cleanupItem :=
  fold_left
    (fun itemsToProcess pattern =>
       match Glob host pattern with
       | inr _ => itemsToProcess
       | inl matches =>
           fold_left
             (fun itemsToProcess match_ =>
                if statOk host match_ && negb (Utils.IsPathIgnored env match_ ignorePaths)
                then candidate fs "Application Leftover" match_ itemsToProcess
                else itemsToProcess)
             matches itemsToProcess
       end)
    leftoverSearchPatterns itemsToProcess.

(** The candidates of an uninstallation. *)
Definition uninstallItems (env : Env) (host : Host) (toLower : string -> string)
    (fs : FS) (ignorePaths : list string) (appName : string) : list cleanupItem :=
  let appName := bundleName appName in
  let appBundlePaths := Paths.FindPaths env host toLower (appInstallPaths env) appName in
  let itemsToProcess := bundleItems env fs ignorePaths appBundlePaths in
  let baseAppName := StringsMore.TrimSuffix appName ".app" in
  let leftoverSearchPatterns := Paths.appDataPaths toLower (HOME env) baseAppName in
  leftoverItems env host fs ignorePaths leftoverSearchPatterns itemsToProcess.

Section MapOrder.

Variable range_order : gmap string Z -> list (string * Z).

(** [UninstallApplication] *)
Definition UninstallApplication (env : Env) (host : Host) (toLower : string -> string)
    (appName : string) (dryRun : bool) (ignorePaths : list string)
    (summary estimatedSummary : Reclaimer.SummaryTable) : M Cmd.Cleaned :=
  fun w =>
    let itemsToProcess := uninstallItems env host toLower (fs w) ignorePaths appName in
    match itemsToProcess with
    | [] => ((0, None), summary, estimatedSummary, w)
    | _ :: _ =>
        let '(out, w') :=
          processCleanupItems range_order itemsToProcess dryRun false summary
            estimatedSummary
            ("Application Cleanup for '"
             +:+ StringsMore.TrimSuffix (bundleName appName) ".app" +:+ "'")
            true w in
        ((totalReclaimed out, err out), Cleaner.summary out, Cleaner.estimatedSummary out,
         w')
    end.

End MapOrder.

End App.

Module System.
Import Os Cleaner Host.

Record cleanupTarget : Type := mkTarget {
  Paths : list string;
  Category : string;
  MinAge : Z;
  LogAggregationRoots : list string
}.

(** [time.Hour], in nanoseconds. *)
Definition Hour : Z := 3600 * 1000000000.

(** [getCleanupTargets] *)
Definition getCleanupTargets (env : Env) : list cleanupTarget :=
  let homeDir := Utils.ExpandPath env "~" in
  [ mkTarget
      [ Filepath.Join [homeDir; "Library"; "Caches"; "TemporaryItems"; "*"];
        "/private/var/folders/*/*/T/*" ]
      "User Temporary Files" (24 * Hour)
      [ Filepath.Join [homeDir; "Library"; "Caches"; "TemporaryItems"];
        "/private/var/folders" ];
    mkTarget [ "/private/var/tmp/*"; "/tmp/*" ] "System Temporary Files" (24 * Hour)
      [ "/private/var/tmp"; "/tmp" ];
    mkTarget [ Filepath.Join [homeDir; "Library"; "Caches"; "*"] ] "User Caches" 0
      [ Filepath.Join [homeDir; "Library"; "Caches"] ];
    mkTarget [ "/Library/Caches/*" ] "System Caches" 0 [ "/Library/Caches" ];
    mkTarget [ Filepath.Join [homeDir; "Library"; "Logs"; "*"] ] "User Logs"
      (30 * 24 * Hour)
      [ Filepath.Join [homeDir; "Library"; "Logs"] ];
    mkTarget
      [ Filepath.Join [homeDir; "Library"; "Application Support"; "Google"; "Chrome";
                       "Default"; "Cache"; "*"];
        Filepath.Join [homeDir; "Library"; "Application Support"; "Google"; "Chrome";
                       "Default"; "Service Worker"; "CacheStorage"; "*"];
        Filepath.Join [homeDir; "Library"; "Caches"; "Google"; "Chrome"; "*"];
        Filepath.Join [homeDir; "Library"; "Caches"; "com.apple.Safari"; "*"];
        Filepath.Join [homeDir; "Library"; "Application Support"; "Firefox"; "Profiles";
                       "*"; "cache2"; "entries"; "*"];
        Filepath.Join [homeDir; "Library"; "Application Support"; "BraveSoftware";
                       "Brave-Browser"; "Default"; "Cache"; "*"];
        Filepath.Join [homeDir; "Library"; "Caches"; "BraveSoftware"; "Brave-Browser"; "*"] ]
      "Browser Caches" 0
      [ Filepath.Join [homeDir; "Library"; "Application Support"; "Google"; "Chrome"];
        Filepath.Join [homeDir; "Library"; "Caches"; "Google"; "Chrome"];
        Filepath.Join [homeDir; "Library"; "Caches"; "com.apple.Safari"];
        Filepath.Join [homeDir; "Library"; "Application Support"; "Firefox"];
        Filepath.Join [homeDir; "Library"; "Application Support"; "BraveSoftware";
                       "Brave-Browser"];
        Filepath.Join [homeDir; "Library"; "Caches"; "BraveSoftware"; "Brave-Browser"] ];
    mkTarget [ Filepath.Join [homeDir; ".Trash"; "*"] ] "Trash Bin" 0
      [ Filepath.Join [homeDir; ".Trash"] ];
    mkTarget [ Filepath.Join [homeDir; "Downloads"; "*"] ] "Downloads (old)"
      (90 * 24 * Hour)
      [ Filepath.Join [homeDir; "Downloads"] ] ].

(** The path an item is shown under: the first aggregation root that
    opens it, or the path itself. *)
Definition displayPath (roots : list string) (path : string) : string :=
  default path (List.find (Strings.HasPrefix path) roots).

(** The body of the loop over the matches of a pattern. *)
Definition consider (env : Env) (host : Host) (fs : FS) (expandedIgnorePaths : list string)
    (target : cleanupTarget) (itemsToProcess : list cleanupItem) (path : string)
    : list cleanupItem :=
  if Utils.ContainsPath env path expandedIgnorePaths then itemsToProcess
  else
    match Stat host path with
    | StatErr _ => itemsToProcess
    | StatOk sinceModTime =>
        if (0 <? MinAge target) && (sinceModTime <? MinAge target) then itemsToProcess
        else
          match Utils.GetFileSizeInBytes fs path with
          | (_, Some _) => itemsToProcess
          | (size, None) =>
              itemsToProcess
                ++ [mkItem (displayPath (LogAggregationRoots target) path) size
                      (Category target) path]
          end
    end.

(** The loops over the targets, their patterns and the matches. *)
Definition collect (env : Env) (host : Host) (fs : FS) (expandedIgnorePaths : list string)
    (cleanupTargets : list cleanupTarget) : list cleanupItem :=
  fold_left
    (fun itemsToProcess target =>
       fold_left
         (fun itemsToProcess pattern =>
            match Glob host pattern with
            | inr _ => itemsToProcess
            | inl matches =>
                fold_left (consider env host fs expandedIgnorePaths target) matches
                  itemsToProcess
            end)
         (Paths target) itemsToProcess)
    cleanupTargets [].

Section MapOrder.

Variable range_order : gmap string Z -> list (string * Z).

(** [CleanSystem] *)
Definition CleanSystem (env : Env) (host : Host) (dryRun : bool)
    (ignorePaths : list string) (summary estimatedSummary : Reclaimer.SummaryTable)
    : M Cmd.Cleaned :=
  fun w =>
    let cleanupTargets := getCleanupTargets env in
    let expandedIgnorePaths := Utils.ExpandPath env <$> ignorePaths in
    let itemsToProcess := collect env host (fs w) expandedIgnorePaths cleanupTargets in
    let '(out, w') :=
      processCleanupItems range_order itemsToProcess dryRun false summary
        estimatedSummary "Folders that would be cleaned" false w in
    match err out with
    | Some e =>
        ((0, Some (Wrapped "failed to process system cleanup" e)),
         Cleaner.summary out, Cleaner.estimatedSummary out, w')
    | None =>
        ((totalReclaimed out, None), Cleaner.summary out, Cleaner.estimatedSummary out, w')
    end.

End MapOrder.

End System.

(** ** cmd: the root command and the program *)
Module Root.
Import Os Cleaner.

(** The part of [PersistentPreRunE] that reads the [--ignore] flag: the
    value of the global [IgnorePaths] after it, and the error it
    returns. *)
Definition PersistentPreRunE (ignorePathsStr : string) (IgnorePaths : list string)
    : list string * option error :=
  if negb (String.eqb ignorePathsStr "") then
    (fold_left
       (fun IgnorePaths p =>
          let trimmedPath := Strings.TrimSpace p in
          if negb (String.eqb trimmedPath "") then IgnorePaths ++ [trimmedPath]
          else IgnorePaths)
       (StringsMore.Split ignorePathsStr ","%char) IgnorePaths,
     None)
  else (IgnorePaths, None).

(** [wiper wipe]: [RunE] with the three strategies of pkg/cleaner. *)
Definition wipe (range_order : gmap string Z -> list (string * Z)) (env : Env)
    (host : Host.Host) (toLower : string -> string) (flags : Cmd.Flags)
    (args : list string) : M (option error) :=
  Cmd.RunE
    (LargeFiles.CleanLargeFiles range_order env)
    (App.UninstallApplication range_order env host toLower)
    (System.CleanSystem range_order env host)
    flags args.

End Root.

(** ** The specification's notions, to compare the code with *)
Module Spec.
Import Os.

(** On-disk allocation of one entry: block count times the block size,
    or the logical length when there is no block count. *)
Definition allocation (info : FileInfo) : Z :=
  match Sys info with
  | Some blocks => blocks * 512
  | None => Size info
  end.

(** What the entries of a directory add up to; an entry that cannot be
    read counts zero. *)
Fixpoint duEntries (du : Tree -> Z) (names : list (string * option Tree)) : Z :=
  match names with
  | [] => 0
  | (_, None) :: rest => duEntries du rest
  | (_, Some t') :: rest => du t' + duEntries du rest
  end.

(** The size of a subtree: a file's allocation; for a directory its own
    allocation and that of every descendant, where a directory that
    cannot be listed counts zero. *)
Fixpoint du (t : Tree) : Z :=
  match t with
  | Node info entries =>
      if negb (IsDir info) then allocation info
      else
        match entries with
        | None => 0
        | Some names => allocation info + duEntries du names
        end
  end.

(** [target] is [ancestor] or lies below it: the elements of [ancestor]
    open those of [target]. *)
Fixpoint under (target ancestor : list string) : bool :=
  match ancestor, target with
  | [], _ => true
  | _ :: _, [] => false
  | a :: ancestor', t :: target' => String.eqb a t && under target' ancestor'
  end.

(** A path is ignored when its canonical form is, or lies below, the
    canonical form of an expanded ignore entry. *)
Definition ignored (env : Env) (targetPath : string) (ignorePaths : list string) : bool :=
  match Filepath.Abs (Getwd env) targetPath with
  | inr _ => false
  | inl target =>
      existsb
        (fun entry =>
           match Filepath.Abs (Getwd env) (Utils.ExpandPath env entry) with
           | inr _ => false
           | inl ancestor =>
               under (Filepath.components target) (Filepath.components ancestor)
           end)
        ignorePaths
  end.

(** A byte string without a separator. *)
Fixpoint noSlash (s : string) : bool :=
  match s with
  | EmptyString => true
  | String a s' => negb (Ascii.eqb a "/"%char) && noSlash s'
  end.

(** A path element that [Clean] keeps as it is. *)
Definition proper (c : string) : bool :=
  noSlash c && negb (String.eqb c "") && negb (String.eqb c ".") && negb (String.eqb c "..").

(** What follows the first element of a cleaned path: nothing, or a
    separator and the elements left. *)
Definition tail (cs : list string) : string :=
  match cs with
  | [] => ""
  | _ :: _ => "/" +:+ String.concat "/" cs
  end.

(** The canonical form of a rooted path, by its elements. *)
Definition rootedForm (cs : list string) : string := "/" +:+ String.concat "/" cs.

(** A string that is empty or starts with a separator. *)
Definition slashOrEmpty (s : string) : bool :=
  match s with
  | EmptyString => true
  | String a _ => Ascii.eqb a "/"%char
  end.

(** The classifier as an ordered table of rules on the path and its
    home-relative form; the first rule that matches gives the category. *)
Definition Rule : Type := (string -> string -> bool) * string.

Definition browserCache : string -> string -> bool :=
  fun _ normalizedPath =>
    Strings.Contains normalizedPath "~/Library/Application Support/Google/Chrome"
    || Strings.Contains normalizedPath "~/Library/Caches/Google/Chrome"
    || Strings.Contains normalizedPath
         "~/Library/Application Support/BraveSoftware/Brave-Browser"
    || Strings.Contains normalizedPath "~/Library/Caches/com.apple.Safari"
    || Strings.Contains normalizedPath "~/Library/Application Support/Firefox".

Definition homePrefix (p : string) : string -> string -> bool :=
  fun _ normalizedPath => Strings.HasPrefix normalizedPath p.

Definition rules : list Rule :=
  [ (browserCache, "Browser Caches");
    (homePrefix "~/Downloads", "User Downloads");
    (homePrefix "~/Documents", "User Documents");
    (homePrefix "~/Library/Application Support", "Application Support Files");
    (homePrefix "~/Library/Caches", "User Caches");
    (homePrefix "~/Library/Containers", "User Container Data");
    (homePrefix "~/Library/Group Containers", "User Group Container Data");
    (homePrefix "~/Library/Messages/Attachments", "Messages Attachments");
    (homePrefix "~/Library/Metadata/CoreSpotlight", "Spotlight Metadata");
    (homePrefix "~/Library", "Other User Library Files");
    ((fun path _ =>
        Strings.HasPrefix path "/private/var/folders"
        || Strings.HasPrefix path "/private/var/tmp"
        || Strings.HasPrefix path "/tmp"), "System Temporary Files");
    ((fun _ normalizedPath =>
        Strings.Contains normalizedPath ".rustup"
        || Strings.Contains normalizedPath ".npm"
        || Strings.Contains normalizedPath ".gradle"
        || Strings.Contains normalizedPath "Xcode/iOS DeviceSupport"
        || Strings.Contains normalizedPath "Android/Sdk"
        || Strings.Contains normalizedPath "JetBrains"), "Developer Tool Caches/Data");
    (homePrefix "~/", "User Home Files");
    ((fun path _ =>
        Strings.HasPrefix path "/var" || Strings.HasPrefix path "/usr"
        || Strings.HasPrefix path "/opt"), "System Files") ].

Definition fallback : string := "Other Large Files".

Fixpoint firstMatch (rs : list Rule) (path normalizedPath : string) : string :=
  match rs with
  | [] => fallback
  | (matches, category) :: rs' =>
      if matches path normalizedPath then category
      else firstMatch rs' path normalizedPath
  end.

(** The home-relative form of a path. *)
Definition normalize (homeDir path : string) : string :=
  if Strings.HasPrefix path homeDir then "~" +:+ Strings.drop (String.length homeDir) path
  else path.

(** The entry interactive mode records for an item, by the operator's
    answer: removed with the freed size when the answer is yes and the
    deletion succeeds, not removed with the item's own size otherwise. *)
Definition interactiveEntry (fs : FS) (item : Cleaner.cleanupItem) (accepted : bool)
    : Reclaimer.ReclaimedEntry :=
  match accepted, fst (Utils.RemovePath fs (Cleaner.ActualPath item) false) with
  | true, (freed, None) =>
      Reclaimer.mkEntry (Cleaner.ActualPath item) freed true (Cleaner.Category item)
  | _, _ =>
      Reclaimer.mkEntry (Cleaner.ActualPath item) (Cleaner.Size item) false
        (Cleaner.Category item)
  end.

(** The operator's answers to [n] confirmations in a row. *)
Fixpoint answers (n : nat) (lines : list string) : list bool :=
  match n with
  | O => []
  | S n' =>
      let '(answer, rest, _) := Cleaner.confirmLoop lines in
      answer :: answers n' rest
  end.

(** The estimated-ledger entry of a candidate. *)
Definition estimateEntry (item : Cleaner.cleanupItem) : Reclaimer.ReclaimedEntry :=
  Reclaimer.mkEntry (Cleaner.ActualPath item) (Cleaner.Size item) false
    (Cleaner.Category item).

(** The sum of the sizes of the entries marked removed. *)
Definition removedTotal (entries : list Reclaimer.ReclaimedEntry) : Z :=
  Int64.zsum (Reclaimer.SizeReclaimed <$> List.filter Reclaimer.WasRemoved entries).

Definition isRemoveCall (e : Cleaner.Event) : bool :=
  match e with Cleaner.EvRemovePath _ _ => true | _ => false end.

(** The calls of the deletion primitive among the events of a run. *)
Definition removeCalls (evs : list Cleaner.Event) : list Cleaner.Event :=
  List.filter isRemoveCall evs.

(** A computation that leaves the file system as it found it. *)
Definition keepsFs {A : Type} (m : Cleaner.M A) : Prop :=
  forall w, Cleaner.fs (snd (m w)) = Cleaner.fs w.

End Spec.

(** ** A small world to run the code in *)
Module Scenario.
Import Os.

(** A home directory and a working directory. *)
Definition env : Env := mkEnv "/Users/me" (inl "/work").

(** A regular file of eight blocks. *)
Definition fileA : Tree := Node (mkInfo false (Some 8) 4000) None.

(** Two such files under [/tmp], and nothing else. *)
Definition files : FS :=
  fun path =>
    if String.eqb path "/tmp/a" then LstatOk fileA
    else if String.eqb path "/tmp/b" then LstatOk fileA
    else LstatErr ENOENT.

Definition items : list Cleaner.cleanupItem :=
  [ Cleaner.mkItem "/tmp/a" 4096 "System Temporary Files" "/tmp/a";
    Cleaner.mkItem "/tmp/b" 4096 "System Temporary Files" "/tmp/b" ].

(** The operator accepts the first question and declines the second. *)
Definition world : Cleaner.World := Cleaner.mkWorld files ["y"; "n"] [].

(** A directory with a file, an entry that cannot be read, a directory
    that cannot be listed and a directory with one file. *)
Definition folder : Tree :=
  Node (mkInfo true (Some 8) 4096)
    (Some [ ("x", Some (Node (mkInfo false None 10) None));
            ("y", None);
            ("z", Some (Node (mkInfo true (Some 8) 4096) None));
            ("w", Some (Node (mkInfo true (Some 1) 0)
                          (Some [("k", Some (Node (mkInfo false (Some 2) 1000) None))]))) ]).

End Scenario.

(** ** Notions for the further properties *)
Module Notions.
Import Os.

(** Whether an answer is yes. *)
Definition yesOf (a : Cleaner.Answer) : bool :=
  match a with Cleaner.Yes => true | _ => false end.

(** The table event of a ledger, if it prints one. *)
Definition tableEvents (st : Reclaimer.SummaryTable) (dryRun : bool) (title : string)
    : list Cleaner.Event :=
  match Reclaimer.PrintTable st dryRun title with
  | Some view => [Cleaner.EvTable view]
  | None => []
  end.

(** The entries the flag of [PrintTable] selects. *)
Definition selected (dryRun : bool) (entries : list Reclaimer.ReclaimedEntry)
    : list Reclaimer.ReclaimedEntry :=
  List.filter (fun entry => dryRun || Reclaimer.WasRemoved entry) entries.

(** The entries of one category. *)
Definition ofCategory (category : string) (entries : list Reclaimer.ReclaimedEntry)
    : list Reclaimer.ReclaimedEntry :=
  List.filter (fun entry => String.eqb (Reclaimer.Category entry) category) entries.

(** What a dry run may show: the question of an uninstallation and the
    table of the estimates. *)
Definition previewEvent (ev : Cleaner.Event) : bool :=
  match ev with
  | Cleaner.EvRemovePath _ _ => false
  | Cleaner.EvPrompt (Cleaner.UninstallPrompt _) => true
  | Cleaner.EvPrompt _ => false
  | Cleaner.EvTable view => String.eqb (Reclaimer.title view) "Estimated Reclaimed Summary"
  end.



(** A string without a given byte. *)
Fixpoint without (sep : ascii) (s : string) : bool :=
  match s with
  | EmptyString => true
  | String a s' => negb (Ascii.eqb a sep) && without sep s'
  end.

(** A list of strings in the order of [sort.Strings], and in that order
    without doubles. *)
Definition sorted (l : list string) : Prop :=
  StronglySorted (fun s t => String.leb s t = true) l.

Definition ascending (l : list string) : Prop :=
  StronglySorted (fun s t => String.ltb s t = true) l.

End Notions.

(** ** A small machine to run the strategies on *)
Module Machine.
Import Os Host.

(** A file of 200 MiB and a file of one block. *)
Definition bigFile : Tree := Node (mkInfo false (Some 409600) 209715200) None.
Definition smallFile : Tree := Node (mkInfo false (Some 1) 100) None.

(** [/Users] with the home directory of one user: a large download, a
    small one, and the cache directory of an application. *)
Definition users : Tree :=
  Node (mkInfo true (Some 0) 96)
    (Some [ ("me",
             Some (Node (mkInfo true (Some 0) 96)
                     (Some [ ("Downloads",
                              Some (Node (mkInfo true (Some 0) 96)
                                      (Some [ ("big.iso", Some bigFile);
                                              ("note.txt", Some smallFile) ]))) ]))) ]).

Definition downloads : Tree :=
  Node (mkInfo true (Some 0) 96)
    (Some [ ("big.iso", Some bigFile); ("note.txt", Some smallFile) ]).

Definition files : FS :=
  fun path =>
    if String.eqb path "/Users" then LstatOk users
    else if String.eqb path "/Users/me/Downloads" then LstatOk downloads
    else if String.eqb path "/Applications/Notes.app" then LstatOk Scenario.folder
    else if String.eqb path "/Users/me/Library/Caches/Notes" then LstatOk Scenario.fileA
    else Scenario.files path.

(** One hour, in nanoseconds. *)
Definition hour : Z := 3600000000000.

(** The host finds the bundle and the cache of the application and two
    temporary files, one two days old and one an hour old. *)
Definition host : Host :=
  mkHost
    (fun pattern =>
       if String.eqb pattern "/Applications/Notes.app" then inl ["/Applications/Notes.app"]
       else if String.eqb pattern "/Users/me/Library/Caches/Notes"
       then inl ["/Users/me/Library/Caches/Notes"]
       else if String.eqb pattern "/tmp/*" then inl ["/tmp/a"; "/tmp/b"]
       else if String.eqb pattern "/Library/Caches/*"
       then inr (ErrorString "syntax error in pattern")
       else inl [])
    (fun path =>
       if String.eqb path "/tmp/a" then StatOk (48 * hour)
       else if String.eqb path "/tmp/b" then StatOk hour
       else if String.eqb path "/Users/me/Library/Caches/Notes" then StatOk hour
       else if String.eqb path "/Applications/Notes.app" then StatOk hour
       else StatErr ENOENT).

Definition world : Cleaner.World := Cleaner.mkWorld files ["maybe"; "y"; "n"] [].

(** The environment of a process started with [HOME] unset. *)
Definition bare : Env := mkEnv "" (inl "/work").

End Machine.

(** * Properties *)

(** ** The library functions on the examples of their documentation *)
Section LibraryExamples.

Example Clean_examples :
  Filepath.Clean
    <$> [ "a/c"; "a//c"; "a/c/."; "a/c/b/.."; "/../a/c"; "/../a/b/../././/c"; "";
          "abc/def/../../.."; "../../abc"; "/"; "//"; "/a/"; "."; "/a/b/../../.." ]
  = [ "a/c"; "a/c"; "a/c"; "a/c"; "/a/c"; "/a/c"; "."; ".."; "../../abc"; "/"; "/";
      "/a"; "."; "/" ].
Proof. vm_compute. reflexivity. Qed.

Example Join_examples :
  Filepath.Join <$> [ ["a"; "b"]; [""; "b"]; ["/Users/me"; "/x"]; ["/Users/me"; ""]; [""; ""] ]
  = [ "a/b"; "b"; "/Users/me/x"; "/Users/me"; "" ].
Proof. vm_compute. reflexivity. Qed.

Example Abs_examples :
  Filepath.Abs (inl "/work") <$> [ "x/../y"; "/tmp//x/"; "." ]
  = [ inl "/work/y"; inl "/tmp/x"; inl "/work" ].
Proof. vm_compute. reflexivity. Qed.

Example ExpandPath_examples :
  Utils.ExpandPath Scenario.env
    <$> [ "~"; "~/Downloads"; "$HOME/Downloads"; "${HOME}/Downloads"; "/tmp/$HOME"; "/tmp" ]
  = [ "/Users/me"; "/Users/me/Downloads"; "/Users/me/Downloads"; "/Users/me/Downloads";
      "/tmp//Users/me"; "/tmp" ].
Proof. vm_compute. reflexivity. Qed.

Example classify_examples :
  Cleaner.classify
    <$> [ "y"; " YES" +:+ String (ascii_of_nat 10) ""; "n"; "No"; ""; "  "; "maybe"; "yess" ]
  = [ Cleaner.Yes; Cleaner.Yes; Cleaner.No; Cleaner.No; Cleaner.No; Cleaner.No;
      Cleaner.Invalid; Cleaner.Invalid ].
Proof. vm_compute. reflexivity. Qed.

Example sortStrings_example :
  Reclaimer.sortStrings ["User Caches"; "Browser Caches"; "System Files"; "Application Bundle"]
  = ["Application Bundle"; "Browser Caches"; "System Files"; "User Caches"].
Proof. vm_compute. reflexivity. Qed.

End LibraryExamples.

(** ** int64 arithmetic *)
Section Int64Facts.

Lemma wrap64_range z : Int64.in_range (Int64.wrap64 z).
Proof.
  unfold Int64.in_range, Int64.wrap64.
  assert (Hpos : 0 < 2 ^ 64) by lia.
  pose proof (Z.mod_pos_bound (z + 2 ^ 63) (2 ^ 64) Hpos). lia.
Qed.

Lemma wrap64_small z : Int64.in_range z -> Int64.wrap64 z = z.
Proof.
  unfold Int64.in_range, Int64.wrap64. intros Hz.
  rewrite Z.mod_small by lia. lia.
Qed.

Lemma wrap64_add_l a b : Int64.wrap64 (Int64.wrap64 a + b) = Int64.wrap64 (a + b).
Proof.
  unfold Int64.wrap64.
  replace ((a + 2 ^ 63) mod 2 ^ 64 - 2 ^ 63 + b + 2 ^ 63)
    with ((a + 2 ^ 63) mod 2 ^ 64 + b) by lia.
  rewrite Zplus_mod_idemp_l. f_equal. f_equal. lia.
Qed.

Lemma wrap64_add_r a b : Int64.wrap64 (a + Int64.wrap64 b) = Int64.wrap64 (a + b).
Proof. rewrite (Z.add_comm a), wrap64_add_l. f_equal. lia. Qed.

Lemma wrap64_idem z : Int64.wrap64 (Int64.wrap64 z) = Int64.wrap64 z.
Proof. apply wrap64_small, wrap64_range. Qed.

(** A loop that adds with wrap-around gives the mathematical sum,
    wrapped once. *)
Lemma fold_add_wrap {A : Type} (f : A -> Z) (l : list A) (a : Z) :
  Int64.wrap64 (fold_left (fun total x => Int64.add total (f x)) l a)
  = Int64.wrap64 (a + Int64.zsum (f <$> l)).
Proof.
  revert a. induction l as [|x l IH]; intros a; rewrite ?fmap_cons; simpl.
  - f_equal. lia.
  - rewrite IH. unfold Int64.add. rewrite wrap64_add_l. f_equal. lia.
Qed.

Lemma fold_add_in_range {A : Type} (f : A -> Z) (l : list A) (a : Z) :
  Int64.in_range a -> Int64.in_range (fold_left (fun total x => Int64.add total (f x)) l a).
Proof.
  revert a. induction l as [|x l IH]; intros a Ha; simpl; [exact Ha|].
  apply IH, wrap64_range.
Qed.

Lemma in_range_0 : Int64.in_range 0.
Proof. unfold Int64.in_range. lia. Qed.

Lemma fold_add_zsum {A : Type} (f : A -> Z) (l : list A) :
  fold_left (fun total x => Int64.add total (f x)) l 0 = Int64.wrap64 (Int64.zsum (f <$> l)).
Proof.
  rewrite <- (wrap64_small (fold_left _ l 0)).
  - apply (fold_add_wrap f l 0).
  - apply fold_add_in_range, in_range_0.
Qed.

Lemma zsum_cons x l : Int64.zsum (x :: l) = x + Int64.zsum l.
Proof. reflexivity. Qed.

Lemma zsum_app l1 l2 : Int64.zsum (l1 ++ l2) = Int64.zsum l1 + Int64.zsum l2.
Proof. induction l1 as [|x l1 IH]; simpl; [reflexivity|]. rewrite IH. lia. Qed.

Lemma zsum_perm l1 l2 : l1 ≡ₚ l2 -> Int64.zsum l1 = Int64.zsum l2.
Proof. induction 1; simpl; lia. Qed.

End Int64Facts.

(** ** The ledger *)
Section LedgerFacts.
Import Reclaimer.

Lemma TotalReclaimedBytes_zsum st :
  TotalReclaimedBytes st = Int64.wrap64 (Int64.zsum (SizeReclaimed <$> Entries st)).
Proof. apply fold_add_zsum. Qed.

(** Adding to one key of a map of totals adds to the total of the map. *)
Lemma addTo_total (m : gmap string Z) key size :
  Int64.wrap64 (Int64.zsum ((map_to_list (addTo m key size)).*2))
  = Int64.wrap64 (Int64.zsum ((map_to_list m).*2) + size).
Proof.
  unfold addTo. destruct (m !! key) as [old|] eqn:Hkey; simpl.
  - rewrite <- (zsum_perm _ _ (fmap_Permutation snd _ _ (map_to_list_delete m key old Hkey))).
    rewrite <- insert_delete_eq.
    rewrite (zsum_perm _ _ (fmap_Permutation snd _ _
               (map_to_list_insert (delete key m) key _ (lookup_delete_eq m key)))).
    rewrite !fmap_cons. simpl. unfold Int64.add.
    rewrite wrap64_add_l. f_equal. lia.
  - rewrite (zsum_perm _ _ (fmap_Permutation snd _ _ (map_to_list_insert m key _ Hkey))).
    rewrite fmap_cons. simpl. unfold Int64.add.
    rewrite wrap64_add_l. f_equal. lia.
Qed.

Lemma fold_addTo_total {A : Type} (key : A -> string) (size : A -> Z) (l : list A)
    (m : gmap string Z) :
  Int64.wrap64 (Int64.zsum ((map_to_list
     (fold_left (fun m x => Reclaimer.addTo m (key x) (size x)) l m)).*2))
  = Int64.wrap64 (Int64.zsum ((map_to_list m).*2) + Int64.zsum (size <$> l)).
Proof.
  revert m. induction l as [|x l IH]; intros m.
  - simpl. f_equal. lia.
  - cbn [fold_left]. rewrite IH, fmap_cons, zsum_cons.
    rewrite <- wrap64_add_l, addTo_total, wrap64_add_l. f_equal. lia.
Qed.

End LedgerFacts.

(** ** The execution policy *)
Section CleanerFacts.
Import Cleaner.

Lemma keepsFs_ret {A} (a : A) : Spec.keepsFs (ret a).
Proof. intros w. reflexivity. Qed.

Lemma keepsFs_bind {A B} (m : M A) (k : A -> M B) :
  Spec.keepsFs m -> (forall a, Spec.keepsFs (k a)) -> Spec.keepsFs (bind m k).
Proof.
  intros Hm Hk w. unfold bind. specialize (Hm w).
  destruct (m w) as [a w1]. simpl in Hm. rewrite <- Hm. apply Hk.
Qed.

Lemma keepsFs_emit e : Spec.keepsFs (emit e).
Proof. intros w. reflexivity. Qed.

Lemma keepsFs_printTable st dryRun title : Spec.keepsFs (printTable st dryRun title).
Proof.
  unfold printTable. destruct (Reclaimer.PrintTable st dryRun title).
  - apply keepsFs_emit.
  - apply keepsFs_ret.
Qed.

(** The deletion primitive gives the file system back as it got it. *)
Lemma RemovePath_fs fs path dryRun : snd (Utils.RemovePath fs path dryRun) = fs.
Proof.
  unfold Utils.RemovePath.
  destruct (Utils.GetFileSizeInBytes fs path) as [size [e|]]; [reflexivity|].
  destruct dryRun; reflexivity.
Qed.

Lemma RemovePath_size fs path dryRun size :
  Utils.GetFileSizeInBytes fs path = (size, None) ->
  fst (Utils.RemovePath fs path dryRun) = (size, None).
Proof.
  intros H. unfold Utils.RemovePath. rewrite H. destruct dryRun; reflexivity.
Qed.

Lemma removePath_run path dryRun w :
  removePath path dryRun w
  = (fst (Utils.RemovePath (fs w) path dryRun),
     mkWorld (fs w) (stdin w) (events w ++ [EvRemovePath path dryRun])).
Proof.
  unfold removePath. pose proof (RemovePath_fs (fs w) path dryRun) as H.
  destruct (Utils.RemovePath (fs w) path dryRun) as [r fs']. simpl in *. now subst.
Qed.

Lemma keepsFs_removePath path dryRun : Spec.keepsFs (removePath path dryRun).
Proof. intros w. rewrite removePath_run. reflexivity. Qed.

Lemma keepsFs_ConfirmAction prompt : Spec.keepsFs (ConfirmAction prompt).
Proof.
  intros w. unfold ConfirmAction. destruct (confirmLoop (stdin w)) as [[a r] n].
  reflexivity.
Qed.

Lemma keepsFs_forEach {A S} (body : A -> S -> M S) l :
  (forall a s, Spec.keepsFs (body a s)) -> forall s, Spec.keepsFs (forEach body l s).
Proof.
  intros Hbody. induction l as [|a l IH]; intros s; simpl.
  - apply keepsFs_ret.
  - apply keepsFs_bind; [apply Hbody | intros s'; apply IH].
Qed.

Lemma keepsFs_removeItem item st : Spec.keepsFs (removeItem item st).
Proof.
  unfold removeItem. destruct st as [summary acc].
  apply keepsFs_bind; [apply keepsFs_removePath|].
  intros [reclaimed [e|]]; apply keepsFs_ret.
Qed.

Lemma keepsFs_confirmItem item st : Spec.keepsFs (confirmItem item st).
Proof.
  unfold confirmItem. apply keepsFs_bind; [apply keepsFs_ConfirmAction|].
  intros [|]; [apply keepsFs_removeItem|]. destruct st. apply keepsFs_ret.
Qed.

Lemma keepsFs_processCleanupItems range_order items dryRun interactive summary
    estimatedSummary tableTitle isApp :
  Spec.keepsFs (processCleanupItems range_order items dryRun interactive summary
                  estimatedSummary tableTitle isApp).
Proof.
  unfold processCleanupItems. destruct items as [|item items]; [apply keepsFs_ret|].
  destruct (aggregate (item :: items) estimatedSummary) as [agg est].
  apply keepsFs_bind; [apply keepsFs_printTable|]. intros _.
  destruct dryRun; [apply keepsFs_ret|].
  destruct interactive.
  { apply keepsFs_bind; [apply keepsFs_forEach, keepsFs_confirmItem|].
    intros [s a]. apply keepsFs_ret. }
  destruct isApp.
  { apply keepsFs_bind; [apply keepsFs_forEach, keepsFs_removeItem|].
    intros [s a]. apply keepsFs_ret. }
  apply keepsFs_bind; [apply keepsFs_ConfirmAction|].
  intros [|]; [|apply keepsFs_ret].
  apply keepsFs_bind; [apply keepsFs_forEach, keepsFs_removeItem|].
  intros [s a]. apply keepsFs_ret.
Qed.

End CleanerFacts.

(** ** Step 1: the aggregated table and the estimated ledger *)
Section AggregateFacts.
Import Cleaner.

Lemma aggregate_from (items : list cleanupItem) (agg : gmap string Z) est :
  fold_left
    (fun '(aggregatedForTable, estimatedSummary) item =>
       (Reclaimer.addTo aggregatedForTable (displayKey item) (Size item),
        Reclaimer.AddEntry estimatedSummary (ActualPath item) (Size item) false
          (Category item)))
    items (agg, est)
  = (fold_left (fun m item => Reclaimer.addTo m (displayKey item) (Size item)) items agg,
     Reclaimer.mkTable (Reclaimer.Entries est ++ (Spec.estimateEntry <$> items))).
Proof.
  revert agg est. induction items as [|item items IH]; intros agg est; simpl.
  - rewrite app_nil_r. destruct est; reflexivity.
  - rewrite IH. simpl. rewrite <- app_assoc. reflexivity.
Qed.

(** The estimated ledger after step 1: one entry per candidate, in the
    order of the candidates, after what was there. *)
Lemma aggregate_estimated items est :
  snd (aggregate items est)
  = Reclaimer.mkTable (Reclaimer.Entries est ++ (Spec.estimateEntry <$> items)).
Proof. unfold aggregate. rewrite aggregate_from. reflexivity. Qed.

Lemma aggregate_map_total (items : list cleanupItem) (agg : gmap string Z) :
  Int64.wrap64 (Int64.zsum ((map_to_list
     (fold_left (fun m item => Reclaimer.addTo m (displayKey item) (Size item)) items agg)).*2))
  = Int64.wrap64 (Int64.zsum ((map_to_list agg).*2) + Int64.zsum (Size <$> items)).
Proof. apply (fold_addTo_total displayKey Size). Qed.

(** The groups of the aggregated table add up to the sizes of the
    candidates, in whatever order the map is ranged over. *)
Lemma aggregate_total (range_order : gmap string Z -> list (string * Z)) items est :
  (forall m, range_order m ≡ₚ map_to_list m) ->
  fold_left (fun total item => Int64.add total (drySize item))
    ((fun '(category, size) => mkDryRunItem category size)
       <$> range_order (fst (aggregate items est))) 0
  = Int64.wrap64 (Int64.zsum (Size <$> items)).
Proof.
  intros Hperm. rewrite fold_add_zsum.
  rewrite <- list_fmap_compose.
  rewrite (zsum_perm _ ((map_to_list (fst (aggregate items est))).*2)).
  - unfold aggregate. rewrite aggregate_from. simpl.
    rewrite aggregate_map_total, map_to_list_empty. reflexivity.
  - rewrite (Hperm (fst (aggregate items est))).
    erewrite list_fmap_ext; [reflexivity|]. intros i [category size] _. reflexivity.
Qed.

End AggregateFacts.

(** ** Calls of the deletion primitive *)
Section RemoveCallFacts.
Import Cleaner.

Lemma removeCalls_app evs1 evs2 :
  Spec.removeCalls (evs1 ++ evs2) = Spec.removeCalls evs1 ++ Spec.removeCalls evs2.
Proof. unfold Spec.removeCalls. apply List.filter_app. Qed.

Lemma removeCalls_prompts n prompt : Spec.removeCalls (replicate n (EvPrompt prompt)) = [].
Proof. induction n as [|n IH]; simpl; [reflexivity | exact IH]. Qed.

Lemma printTable_run st dryRun title w :
  exists evs,
    Spec.removeCalls evs = [] /\
    printTable st dryRun title w = (tt, mkWorld (fs w) (stdin w) (events w ++ evs)).
Proof.
  unfold printTable. destruct (Reclaimer.PrintTable st dryRun title) as [view|].
  - exists [EvTable view]. split; reflexivity.
  - exists []. split; [reflexivity|]. rewrite app_nil_r. destruct w; reflexivity.
Qed.

Lemma ConfirmAction_run prompt w :
  ConfirmAction prompt w
  = (fst (fst (confirmLoop (stdin w))),
     mkWorld (fs w) (snd (fst (confirmLoop (stdin w))))
       (events w ++ replicate (snd (confirmLoop (stdin w))) (EvPrompt prompt))).
Proof.
  unfold ConfirmAction. destruct (confirmLoop (stdin w)) as [[a r] n]. reflexivity.
Qed.

End RemoveCallFacts.

(** ** Dry run *)
Section DryRun.
Import Cleaner.

Variable range_order : gmap string Z -> list (string * Z).
Hypothesis range_order_perm : forall m, range_order m ≡ₚ map_to_list m.

(** C2.  In a dry run [processCleanupItems] calls the deletion primitive
    for no candidate and leaves the file system and the actual ledger as
    they were; the estimated ledger gains one entry per candidate; no
    error is returned, and the total returned is the int64 sum of the
    sizes of all candidates, which is their exact sum whenever that sum
    fits an int64.  This holds for every order in which the aggregated
    map is ranged over. *)
Theorem C2_dry_run_estimates_only items interactive summary estimatedSummary tableTitle
    isApp w out w' :
  processCleanupItems range_order items true interactive summary estimatedSummary
    tableTitle isApp w = (out, w') ->
  Spec.removeCalls (events w') = Spec.removeCalls (events w)
  /\ fs w' = fs w
  /\ Cleaner.summary out = summary
  /\ Reclaimer.Entries (Cleaner.estimatedSummary out)
     = Reclaimer.Entries estimatedSummary ++ (Spec.estimateEntry <$> items)
  /\ err out = None
  /\ totalReclaimed out = Int64.wrap64 (Int64.zsum (Size <$> items))
  /\ (Int64.in_range (Int64.zsum (Size <$> items)) ->
      totalReclaimed out = Int64.zsum (Size <$> items)).
Proof.
  intros Hrun.
  assert (Htotal : totalReclaimed out = Int64.wrap64 (Int64.zsum (Size <$> items))
                   /\ Spec.removeCalls (events w') = Spec.removeCalls (events w)
                   /\ fs w' = fs w
                   /\ Cleaner.summary out = summary
                   /\ Reclaimer.Entries (Cleaner.estimatedSummary out)
                      = Reclaimer.Entries estimatedSummary ++ (Spec.estimateEntry <$> items)
                   /\ err out = None).
  { unfold processCleanupItems in Hrun. destruct items as [|item items].
    - inversion Hrun; subst; simpl. rewrite app_nil_r. repeat split; reflexivity.
    - pose proof (aggregate_total range_order (item :: items) estimatedSummary
                    range_order_perm) as Hsum.
      pose proof (aggregate_estimated (item :: items) estimatedSummary) as Hest.
      destruct (aggregate (item :: items) estimatedSummary) as [agg est].
      simpl in Hsum, Hest. unfold bind in Hrun.
      destruct (printTable_run est true "Estimated Reclaimed Summary" w)
        as (evs & Hevs & Hprint).
      rewrite Hprint in Hrun. inversion Hrun; subst; simpl.
      rewrite removeCalls_app, Hevs, app_nil_r.
      repeat split; try reflexivity. exact Hsum. }
  destruct Htotal as (Ht & Hc & Hf & Hs & He & Herr).
  repeat split; try assumption.
  intros Hrange. rewrite Ht. apply wrap64_small, Hrange.
Qed.

End DryRun.

(** ** The deletion loops *)
Section DeletionLoops.
Import Cleaner.

(** What a deletion loop adds to [actualRemovedSize] for one entry. *)
Let credit (acc : Z) (e : Reclaimer.ReclaimedEntry) : Z :=
  if Reclaimer.WasRemoved e then Int64.add acc (Reclaimer.SizeReclaimed e) else acc.

Lemma removeItem_run item summary acc w :
  removeItem item (summary, acc) w
  = (let e := Spec.interactiveEntry (fs w) item true in
     (Reclaimer.mkTable (Reclaimer.Entries summary ++ [e]), credit acc e),
     mkWorld (fs w) (stdin w) (events w ++ [EvRemovePath (ActualPath item) false])).
Proof.
  unfold removeItem, bind. rewrite removePath_run. unfold Spec.interactiveEntry, credit.
  destruct (fst (Utils.RemovePath (fs w) (ActualPath item) false)) as [reclaimed [e|]];
    reflexivity.
Qed.

Lemma confirmItem_run item summary acc w :
  confirmItem item (summary, acc) w
  = (let e := Spec.interactiveEntry (fs w) item (fst (fst (confirmLoop (stdin w)))) in
     (Reclaimer.mkTable (Reclaimer.Entries summary ++ [e]), credit acc e),
     mkWorld (fs w) (snd (fst (confirmLoop (stdin w))))
       (events w
        ++ replicate (snd (confirmLoop (stdin w)))
             (EvPrompt (DeletePrompt (ActualPath item) (Size item) (Category item)))
        ++ (if fst (fst (confirmLoop (stdin w)))
            then [EvRemovePath (ActualPath item) false] else []))).
Proof.
  unfold confirmItem, bind. rewrite ConfirmAction_run.
  destruct (confirmLoop (stdin w)) as [[[|] rest] n]; cbn [fst snd].
  - rewrite removeItem_run. simpl. rewrite <- app_assoc. reflexivity.
  - rewrite app_nil_r. reflexivity.
Qed.

Lemma forEach_removeItem_run items : forall summary acc w,
  let new := (fun item => Spec.interactiveEntry (fs w) item true) <$> items in
  forEach removeItem items (summary, acc) w
  = ((Reclaimer.mkTable (Reclaimer.Entries summary ++ new), fold_left credit new acc),
     mkWorld (fs w) (stdin w)
       (events w ++ ((fun item => EvRemovePath (ActualPath item) false) <$> items))).
Proof.
  induction items as [|item items IH]; intros summary acc w.
  - simpl. unfold ret. rewrite !app_nil_r. destruct summary, w; reflexivity.
  - cbn [forEach]. unfold bind. rewrite removeItem_run. cbv zeta. rewrite IH. simpl.
    rewrite <- !app_assoc. reflexivity.
Qed.

Lemma forEach_confirmItem_run items : forall summary acc w,
  let new := zip_with (Spec.interactiveEntry (fs w)) items
               (Spec.answers (length items) (stdin w)) in
  exists w',
    forEach confirmItem items (summary, acc) w
    = ((Reclaimer.mkTable (Reclaimer.Entries summary ++ new), fold_left credit new acc), w')
    /\ fs w' = fs w.
Proof.
  induction items as [|item items IH]; intros summary acc w.
  - simpl. exists w. unfold ret. rewrite !app_nil_r. destruct summary; split; reflexivity.
  - cbn [forEach]. unfold bind. rewrite confirmItem_run. cbv zeta. simpl.
    destruct (confirmLoop (stdin w)) as [[answer rest] n] eqn:Hloop. simpl.
    match goal with
    | |- context [forEach confirmItem items (?s, ?a) ?w1] =>
        destruct (IH s a w1) as (w' & Hrun & Hfs)
    end.
    exists w'. simpl in Hrun, Hfs. rewrite Hrun. simpl.
    rewrite <- !app_assoc. split; [reflexivity | exact Hfs].
Qed.

Lemma fold_credit_filter new acc :
  fold_left credit new acc
  = fold_left (fun total e => Int64.add total (Reclaimer.SizeReclaimed e))
      (List.filter Reclaimer.WasRemoved new) acc.
Proof.
  revert acc. induction new as [|e new IH]; intros acc; simpl; [reflexivity|].
  unfold credit at 2. destruct (Reclaimer.WasRemoved e); simpl; apply IH.
Qed.

(** The total a deletion loop accumulates from 0 is the sum of the
    sizes of the entries it marked removed. *)
Lemma fold_credit_total new :
  fold_left credit new 0 = Int64.wrap64 (Spec.removedTotal new).
Proof. rewrite fold_credit_filter. apply fold_add_zsum. Qed.

(** What the three non-dry-run modes give, by the entries they add. *)
Lemma interactive_run range_order item items summary est title isApp w :
  let new := zip_with (Spec.interactiveEntry (fs w)) (item :: items)
               (Spec.answers (length (item :: items)) (stdin w)) in
  exists w',
    processCleanupItems range_order (item :: items) false true summary est title isApp w
    = (mkOutcome (Int64.wrap64 (Spec.removedTotal new)) None
         (Reclaimer.mkTable (Reclaimer.Entries summary ++ new))
         (snd (aggregate (item :: items) est)), w')
    /\ fs w' = fs w.
Proof.
  intros new. unfold processCleanupItems.
  destruct (aggregate (item :: items) est) as [agg est'].
  unfold bind at 1.
  destruct (printTable_run est' true "Estimated Reclaimed Summary" w)
    as (evs & _ & Hprint).
  rewrite Hprint. unfold bind.
  match goal with
  | |- context [forEach confirmItem ?l (?s, ?a) ?w1] =>
      destruct (forEach_confirmItem_run l s a w1) as (w' & Hrun & Hfs)
  end.
  exists w'. cbv zeta in Hrun. cbn [fs stdin] in Hrun, Hfs. rewrite Hrun. unfold ret.
  cbn [fst snd]. rewrite fold_credit_total. split; [reflexivity | exact Hfs].
Qed.

(** Application mode, and the default batch once it is confirmed. *)
Lemma removeAll_run items summary est w :
  let new := (fun item => Spec.interactiveEntry (fs w) item true) <$> items in
  bind (forEach removeItem items (summary, 0))
    (fun '(summary, actualRemovedSize) =>
       ret (mkOutcome actualRemovedSize None summary est)) w
  = (mkOutcome (Int64.wrap64 (Spec.removedTotal new)) None
       (Reclaimer.mkTable (Reclaimer.Entries summary ++ new)) est,
     mkWorld (fs w) (stdin w)
       (events w ++ ((fun item => EvRemovePath (ActualPath item) false) <$> items))).
Proof.
  intros new. unfold bind. rewrite forEach_removeItem_run. unfold ret.
  rewrite fold_credit_total. reflexivity.
Qed.

(** Every run that is no dry run: the estimated ledger is the one step
    1 made, and the total returned is the sum over the entries the run
    added to the actual ledger and marked removed. *)
Lemma nondry_run range_order item items interactive summary est title isApp w out w' :
  processCleanupItems range_order (item :: items) false interactive summary est title
    isApp w = (out, w') ->
  Cleaner.estimatedSummary out = snd (aggregate (item :: items) est)
  /\ err out = None
  /\ exists new,
       Reclaimer.Entries (Cleaner.summary out) = Reclaimer.Entries summary ++ new
       /\ totalReclaimed out = Int64.wrap64 (Spec.removedTotal new).
Proof.
  destruct interactive.
  { destruct (interactive_run range_order item items summary est title isApp w)
      as (w1 & Hrun & _).
    intros H. rewrite Hrun in H. inversion H; subst; simpl. eauto. }
  unfold processCleanupItems.
  destruct (aggregate (item :: items) est) as [agg est'].
  unfold bind at 1.
  destruct (printTable_run est' true "Estimated Reclaimed Summary" w)
    as (evs & _ & Hprint).
  rewrite Hprint. destruct isApp.
  { rewrite removeAll_run. intros H. inversion H; subst; simpl. eauto. }
  unfold bind at 1. rewrite ConfirmAction_run.
  destruct (fst (fst (confirmLoop _))).
  - rewrite removeAll_run. intros H. inversion H; subst; simpl. eauto.
  - unfold ret. intros H. inversion H; subst; simpl.
    repeat split. exists []. rewrite app_nil_r. split; reflexivity.
Qed.

End DeletionLoops.

(** ** The estimated ledger *)
Section EstimatedLedger.
Import Cleaner.

(** C3.  In every mode (dry run, interactive, application, default
    batch whether confirmed or declined) and whatever the operator
    answers and the deletions return, the estimated ledger that
    [processCleanupItems] leaves is the one its first loop makes from
    the candidates alone: one entry per candidate after the entries it
    had.  Its total is therefore the int64 sum of what it held and the
    sizes of all candidates; for a fresh ledger it is the exact sum of
    the candidates' sizes whenever that sum fits an int64. *)
Theorem C3_estimated_ledger_holds_every_candidate
    (range_order : gmap string Z -> list (string * Z)) items dryRun interactive summary
    estimatedSummary tableTitle isApp w out w' :
  processCleanupItems range_order items dryRun interactive summary estimatedSummary
    tableTitle isApp w = (out, w') ->
  Cleaner.estimatedSummary out = snd (aggregate items estimatedSummary)
  /\ Reclaimer.Entries (Cleaner.estimatedSummary out)
     = Reclaimer.Entries estimatedSummary ++ (Spec.estimateEntry <$> items)
  /\ Reclaimer.TotalReclaimedBytes (Cleaner.estimatedSummary out)
     = Int64.wrap64
         (Int64.zsum (Reclaimer.SizeReclaimed <$> Reclaimer.Entries estimatedSummary)
          + Int64.zsum (Size <$> items))
  /\ (Reclaimer.Entries estimatedSummary = [] ->
      Int64.in_range (Int64.zsum (Size <$> items)) ->
      Reclaimer.TotalReclaimedBytes (Cleaner.estimatedSummary out)
      = Int64.zsum (Size <$> items)).
Proof.
  intros Hrun.
  assert (Hest : Cleaner.estimatedSummary out = snd (aggregate items estimatedSummary)).
  { destruct items as [|item items].
    - inversion Hrun; subst. reflexivity.
    - destruct dryRun.
      + unfold processCleanupItems in Hrun.
        destruct (aggregate (item :: items) estimatedSummary) as [agg est].
        unfold bind in Hrun.
        destruct (printTable est true "Estimated Reclaimed Summary" w) as [u w1].
        inversion Hrun; subst. reflexivity.
      + apply nondry_run in Hrun. apply Hrun. }
  assert (Htotal : Reclaimer.TotalReclaimedBytes (Cleaner.estimatedSummary out)
     = Int64.wrap64
         (Int64.zsum (Reclaimer.SizeReclaimed <$> Reclaimer.Entries estimatedSummary)
          + Int64.zsum (Size <$> items))).
  { rewrite Hest, aggregate_estimated, TotalReclaimedBytes_zsum. simpl.
    rewrite fmap_app, zsum_app, <- list_fmap_compose. reflexivity. }
  split; [exact Hest|]. split; [rewrite Hest, aggregate_estimated; reflexivity|].
  split; [exact Htotal|].
  intros Hfresh Hrange. rewrite Htotal, Hfresh. simpl. apply wrap64_small, Hrange.
Qed.

End EstimatedLedger.

(** ** Interactive mode *)
Section Interactive.
Import Cleaner.


(** The lines that mean yes, and the lines that mean no. *)
Lemma confirmLoop_answers rest :
  confirmLoop ("y" :: rest) = (true, rest, 1%nat)
  /\ confirmLoop ("yes" :: rest) = (true, rest, 1%nat)
  /\ confirmLoop ("n" :: rest) = (false, rest, 1%nat)
  /\ confirmLoop ("no" :: rest) = (false, rest, 1%nat)
  /\ confirmLoop ("" :: rest) = (false, rest, 1%nat)
  /\ confirmLoop [] = (false, [], 1%nat).
Proof. repeat split; reflexivity. Qed.



End Interactive.

(** ** Default batch, declined *)
Section DeclinedBatch.
Import Cleaner.

(** C6.  In default-batch mode, when the operator declines the single
    confirmation, [processCleanupItems] calls the deletion primitive for
    no candidate, returns 0 and no error, and leaves the actual ledger
    and the file system as they were; so a ledger without removed
    entries stays without them. *)
Theorem C6_declined_batch_removes_nothing
    (range_order : gmap string Z -> list (string * Z)) items summary estimatedSummary
    tableTitle w out w' :
  fst (fst (confirmLoop (stdin w))) = false ->
  processCleanupItems range_order items false false summary estimatedSummary tableTitle
    false w = (out, w') ->
  totalReclaimed out = 0
  /\ err out = None
  /\ Cleaner.summary out = summary
  /\ (Forall (fun e => Reclaimer.WasRemoved e = false) (Reclaimer.Entries summary) ->
      Forall (fun e => Reclaimer.WasRemoved e = false)
        (Reclaimer.Entries (Cleaner.summary out)))
  /\ Spec.removeCalls (events w') = Spec.removeCalls (events w)
  /\ fs w' = fs w.
Proof.
  intros Hno Hrun.
  assert (H : totalReclaimed out = 0 /\ err out = None /\ Cleaner.summary out = summary
              /\ Spec.removeCalls (events w') = Spec.removeCalls (events w)
              /\ fs w' = fs w).
  { unfold processCleanupItems in Hrun. destruct items as [|item items].
    - inversion Hrun; subst. repeat split; reflexivity.
    - destruct (aggregate (item :: items) estimatedSummary) as [agg est].
      unfold bind at 1 in Hrun.
      destruct (printTable_run est true "Estimated Reclaimed Summary" w)
        as (evs & Hevs & Hprint).
      rewrite Hprint in Hrun. unfold bind at 1 in Hrun.
      rewrite ConfirmAction_run in Hrun. cbn [stdin] in Hrun. rewrite Hno in Hrun.
      inversion Hrun; subst. simpl.
      rewrite !removeCalls_app, Hevs, removeCalls_prompts, !app_nil_r.
      repeat split; reflexivity. }
  destruct H as (Ht & He & Hs & Hc & Hf).
  repeat split; try assumption. rewrite Hs. trivial.
Qed.

End DeclinedBatch.

(** ** The size calculator *)
Section SizeCalculator.
Import Os.

(** Induction on file trees: a property of every entry that can be read
    gives the property of the directory. *)
Section TreeInduction.

Variable P : Tree -> Prop.

Let readable (entry : string * option Tree) : Prop :=
  match snd entry with
  | None => True
  | Some t => P t
  end.

Hypothesis unlisted : forall info, P (Node info None).
Hypothesis listed : forall info names, Forall readable names -> P (Node info (Some names)).

Fixpoint Tree_entries_ind (t : Tree) : P t :=
  match t with
  | Node info None => unlisted info
  | Node info (Some names) =>
      listed info names
        ((fix each (l : list (string * option Tree)) : Forall readable l :=
            match l with
            | [] => @List.Forall_nil _ readable
            | (name, child) :: rest =>
                @List.Forall_cons _ readable (name, child) rest
                  (match child return readable (name, child) with
                   | None => I
                   | Some t' => Tree_entries_ind t'
                   end)
                  (each rest)
            end) names)
  end.

End TreeInduction.

Lemma add_allocation s info :
  Int64.add s (Utils.allocation info) = Int64.wrap64 (s + Spec.allocation info).
Proof.
  unfold Utils.allocation, Spec.allocation, Int64.add, Int64.mul.
  destruct (Sys info); [apply wrap64_add_r | reflexivity].
Qed.

(** The walk of [GetFileSizeInBytes] adds the size of the subtree to the
    running total, and never stops the walk of the directory around
    it. *)
Lemma walk_size t : forall path s,
  Int64.in_range s ->
  fst (Utils.walk Utils.sizeWalkFn path t s) = Int64.wrap64 (s + Spec.du t)
  /\ (snd (Utils.walk Utils.sizeWalkFn path t s) = Utils.RetNil
      \/ (snd (Utils.walk Utils.sizeWalkFn path t s) = Utils.RetSkipDir
          /\ IsDir (info_of t) = true)).
Proof.
  induction t as [info | info names IH] using Tree_entries_ind; intros path s Hs.
  - simpl. destruct (IsDir info) eqn:Hdir; simpl.
    + split; [|right; split; reflexivity].
      rewrite Z.add_0_r. symmetry. apply wrap64_small, Hs.
    + split; [|left; reflexivity]. apply add_allocation.
  - simpl. destruct (IsDir info) eqn:Hdir; simpl.
    2:{ split; [|left; reflexivity]. apply add_allocation. }
    rewrite add_allocation.
    assert (Hloop : forall s1, Int64.in_range s1 ->
              Utils.walkEntries Utils.sizeWalkFn (Utils.walk Utils.sizeWalkFn) path names s1
              = (Int64.wrap64 (s1 + Spec.duEntries Spec.du names), Utils.RetNil)).
    { clear Hs s. induction names as [|[name child] names IHn]; intros s1 Hs1.
      - simpl. rewrite Z.add_0_r, wrap64_small by exact Hs1. reflexivity.
      - inversion IH as [|? ? Hchild Hrest]; subst. specialize (IHn Hrest).
        destruct child as [t'|]; cbn [Utils.walkEntries Spec.duEntries].
        + simpl in Hchild.
          destruct (Hchild (Filepath.Join [path; name]) s1 Hs1) as (Hfst & Hsnd).
          destruct (Utils.walk Utils.sizeWalkFn (Filepath.Join [path; name]) t' s1)
            as [s' ret].
          simpl in Hfst, Hsnd. subst s'.
          assert (Hgo : Utils.walkEntries Utils.sizeWalkFn (Utils.walk Utils.sizeWalkFn)
                          path names (Int64.wrap64 (s1 + Spec.du t'))
                        = (Int64.wrap64 (s1 + (Spec.du t' + Spec.duEntries Spec.du names)),
                           Utils.RetNil)).
          { rewrite IHn by apply wrap64_range. rewrite wrap64_add_l. do 2 f_equal. lia. }
          destruct Hsnd as [-> | [-> Hd]]; [exact Hgo|]. rewrite Hd. exact Hgo.
        + apply IHn, Hs1. }
    rewrite Hloop by apply wrap64_range.
    simpl. split; [|left; reflexivity].
    rewrite wrap64_add_l. f_equal. lia.
Qed.

Lemma GetFileSizeInBytes_dir (fs : FS) path t :
  fs path = LstatOk t -> IsDir (info_of t) = true ->
  Utils.GetFileSizeInBytes fs path = (Int64.wrap64 (Spec.du t), None).
Proof.
  intros Hfs Hdir. unfold Utils.GetFileSizeInBytes, Utils.Walk. rewrite Hfs, Hdir.
  destruct (walk_size t path 0 in_range_0) as (Hfst & Hsnd).
  destruct (Utils.walk Utils.sizeWalkFn path t 0) as [total ret].
  cbn [fst snd] in Hfst, Hsnd. rewrite Z.add_0_l in Hfst. subst total.
  destruct Hsnd as [-> | [-> _]]; destruct (Sys (info_of t)); reflexivity.
Qed.


End SizeCalculator.

(** ** The classifier *)
Section Classifier.
Import Os.

Lemma ReplaceFirst_prefix s old new :
  Strings.HasPrefix s old = true ->
  Strings.ReplaceFirst s old new = new +:+ Strings.drop (String.length old) s.
Proof. intros H. destruct s; cbn [Strings.ReplaceFirst]; rewrite H; reflexivity. Qed.

(** The first rule of a table that matches decides. *)
Lemma firstMatch_first before rule after path normalizedPath :
  Forall (fun r : Spec.Rule => fst r path normalizedPath = false) before ->
  fst rule path normalizedPath = true ->
  Spec.firstMatch (before ++ rule :: after) path normalizedPath = snd rule.
Proof.
  intros Hbefore Hrule. induction Hbefore as [|[m c] before Hm _ IH]; simpl.
  - destruct rule as [m c]. simpl in *. rewrite Hrule. reflexivity.
  - simpl in Hm. rewrite Hm. exact IH.
Qed.

(** Without a home directory the classifier falls back on two
    categories. *)
Lemma categorize_without_home (env : Env) (path : string) e :
  UserHomeDir env = inr e ->
  Cleaner.categorizeLargeFilePath env path
  = if Strings.HasPrefix path "/private/var" || Strings.HasPrefix path "/tmp"
    then "System Temporary Files" else "Other Large Files".
Proof. intros H. unfold Cleaner.categorizeLargeFilePath. now rewrite H. Qed.

(** C9.  With a home directory at hand, [categorizeLargeFilePath] is the
    first-match evaluation of the ordered rule table on the path and its
    home-relative form: the category is that of the first rule that
    matches, and the fallback when none does.  The browser-cache rule
    stands first, so a path it matches is reported as "Browser Caches"
    whatever later rules match it too. *)
Theorem C9_classifier_first_match (env : Env) (path homeDir : string) :
  UserHomeDir env = inl homeDir ->
  let normalizedPath := Spec.normalize homeDir path in
  Cleaner.categorizeLargeFilePath env path
  = Spec.firstMatch Spec.rules path normalizedPath
  /\ (forall before rule after,
        Spec.rules = before ++ rule :: after ->
        Forall (fun r : Spec.Rule => fst r path normalizedPath = false) before ->
        fst rule path normalizedPath = true ->
        Cleaner.categorizeLargeFilePath env path = snd rule)
  /\ (Spec.browserCache path normalizedPath = true ->
      Cleaner.categorizeLargeFilePath env path = "Browser Caches").
Proof.
  intros Hhome normalizedPath.
  assert (Hcode : Cleaner.categorizeLargeFilePath env path
                  = Spec.firstMatch Spec.rules path normalizedPath).
  { unfold Cleaner.categorizeLargeFilePath. rewrite Hhome.
    assert (Hnorm : (if Strings.HasPrefix path homeDir
                     then Strings.ReplaceFirst path homeDir "~" else path)
                    = normalizedPath).
    { unfold normalizedPath, Spec.normalize.
      destruct (Strings.HasPrefix path homeDir) eqn:Hp; [|reflexivity].
      apply ReplaceFirst_prefix, Hp. }
    rewrite Hnorm. reflexivity. }
  split; [exact Hcode|]. split.
  - intros before rule after Hrules Hbefore Hrule.
    rewrite Hcode, Hrules. apply firstMatch_first; assumption.
  - intros Hbrowser. rewrite Hcode. unfold Spec.rules.
    cbn [Spec.firstMatch]. rewrite Hbrowser. reflexivity.
Qed.

End Classifier.

(** ** The wipe command *)
Section WipeCommand.
Import Cleaner Cmd.

Variable CleanLargeFiles :
  bool -> list string -> Reclaimer.SummaryTable -> Reclaimer.SummaryTable -> bool -> M Cleaned.
Variable UninstallApplication :
  string -> bool -> list string -> Reclaimer.SummaryTable -> Reclaimer.SummaryTable -> M Cleaned.
Variable CleanSystem :
  bool -> list string -> Reclaimer.SummaryTable -> Reclaimer.SummaryTable -> M Cleaned.

Lemma finish_no_error summary w : fst (finish summary w) = None.
Proof.
  unfold finish, bind. destruct (printTable summary false "Reclaimed Disk Summary" w).
  reflexivity.
Qed.

(** C10.  [RunE] with the large-files flag and an application name
    returns the validation error at once: whatever the three discovery
    strategies are, none of them has run, no question was asked and the
    world is as it was.  Every other invocation gets past that check:
    it does not return this error. *)
Theorem C10_large_files_with_application_rejected (flags : Flags) (args : list string)
    (w : World) :
  (largeFilesFlag flags = true -> args <> [] ->
   RunE CleanLargeFiles UninstallApplication CleanSystem flags args w
   = (Some conflictError, w))
  /\ (~ (largeFilesFlag flags = true /\ args <> []) ->
      fst (RunE CleanLargeFiles UninstallApplication CleanSystem flags args w)
      <> Some conflictError).
Proof.
  split.
  - intros Hflag Hargs. unfold RunE. rewrite Hflag.
    destruct args as [|arg args]; [congruence|]. reflexivity.
  - intros Hok. unfold RunE. destruct (largeFilesFlag flags) eqn:Hflag.
    + destruct args as [|arg args].
      2:{ exfalso. apply Hok. split; [reflexivity | discriminate]. }
      simpl. unfold bind.
      destruct (CleanLargeFiles _ _ _ _ _ w) as [[[r s] e] w1].
      destruct (snd r); [simpl; discriminate|]. rewrite finish_no_error. discriminate.
    + destruct args as [|appName [|arg args]].
      * unfold bind. destruct (CleanSystem _ _ _ _ w) as [[[r s] e] w1].
        destruct (snd r); [simpl; discriminate|]. rewrite finish_no_error. discriminate.
      * unfold bind. destruct (ConfirmAction _ w) as [[|] w1]; [|simpl; discriminate].
        destruct (UninstallApplication _ _ _ _ _ w1) as [[[r s] e] w2].
        destruct (snd r); [simpl; discriminate|]. rewrite finish_no_error. discriminate.
      * unfold bind. destruct (CleanSystem _ _ _ _ w) as [[[r s] e] w1].
        destruct (snd r); [simpl; discriminate|]. rewrite finish_no_error. discriminate.
Qed.

End WipeCommand.

(** ** The deletion primitive *)
Section DeletionPrimitive.
Import Os Cleaner.

(** C1.  [RemovePath] never writes to the file system, in a dry run or
    not: it gives the file system back as it got it, and when the size
    of the path can be computed it returns that size and no error.  So
    every run of [processCleanupItems] leaves the file system as it
    was, and there is a run after which the actual ledger marks a path
    removed that [os.Lstat] still finds. *)
Theorem C1_RemovePath_writes_nothing :
  (forall (fs : FS) path dryRun, snd (Utils.RemovePath fs path dryRun) = fs)
  /\ (forall (fs : FS) path dryRun size,
        Utils.GetFileSizeInBytes fs path = (size, None) ->
        fst (Utils.RemovePath fs path dryRun) = (size, None))
  /\ (forall range_order items dryRun interactive summary estimatedSummary tableTitle
        isApp w,
        fs (snd (processCleanupItems range_order items dryRun interactive summary
                   estimatedSummary tableTitle isApp w)) = fs w)
  /\ (exists items w out w' e t,
        processCleanupItems map_to_list items false false Reclaimer.NewSummaryTable
          Reclaimer.NewSummaryTable "" true w = (out, w')
        /\ e ∈ Reclaimer.Entries (Cleaner.summary out)
        /\ Reclaimer.WasRemoved e = true
        /\ fs w (Reclaimer.Path e) = LstatOk t
        /\ fs w' (Reclaimer.Path e) = LstatOk t).
Proof.
  split; [exact RemovePath_fs|]. split; [exact RemovePath_size|].
  split; [intros; apply keepsFs_processCleanupItems|].
  exists Scenario.items, Scenario.world.
  eexists. eexists.
  exists (Reclaimer.mkEntry "/tmp/a" 4096 true "System Temporary Files"), Scenario.fileA.
  split; [vm_compute; reflexivity|].
  split; [apply list_elem_of_here|]. repeat split.
Qed.

End DeletionPrimitive.

(** ** The totals the ledger exposes *)
Section LedgerTotals.
Import Cleaner.

(** The per-category totals of a table: every entry counts when the
    flag is set, only the entries marked removed when it is not. *)
Lemma groupedTotals_flag dryRun st :
  Reclaimer.groupedTotals dryRun st
  = fold_left
      (fun m entry =>
         Reclaimer.addTo m (Reclaimer.Category entry) (Reclaimer.SizeReclaimed entry))
      (List.filter (fun entry => dryRun || Reclaimer.WasRemoved entry)
         (Reclaimer.Entries st)) ∅.
Proof.
  unfold Reclaimer.groupedTotals. generalize (∅ : gmap string Z).
  induction (Reclaimer.Entries st) as [|entry entries IH]; intros m; simpl; [reflexivity|].
  destruct dryRun; simpl; [apply IH|].
  destruct (Reclaimer.WasRemoved entry); simpl; apply IH.
Qed.

Lemma insert_sorted_perm s l : Reclaimer.insert_sorted s l ≡ₚ s :: l.
Proof.
  induction l as [|x l IH]; simpl; [reflexivity|].
  destruct (String.leb s x); [reflexivity|]. rewrite IH. apply Permutation_swap.
Qed.

Lemma sortStrings_perm l : Reclaimer.sortStrings l ≡ₚ l.
Proof.
  induction l as [|x l IH]; simpl; [reflexivity|].
  rewrite insert_sorted_perm. now rewrite IH.
Qed.

Lemma rows_of_map (m : gmap string Z) :
  (fun category => (category, default 0 (m !! category))) <$> (map_to_list m).*1
  = map_to_list m.
Proof.
  rewrite <- list_fmap_compose.
  rewrite <- (list_fmap_id (map_to_list m)) at 2.
  apply list_fmap_ext. intros i [k v] Hi. simpl.
  apply list_elem_of_lookup_2, elem_of_map_to_list in Hi. now rewrite Hi.
Qed.

(** The table [PrintTable] renders: the rows add up to the sizes of the
    entries the flag selects, and the footer to the sizes of all
    entries, whatever the flag. *)
Lemma PrintTable_totals st dryRun title view :
  Reclaimer.PrintTable st dryRun title = Some view ->
  Reclaimer.footer view = Reclaimer.TotalReclaimedBytes st
  /\ Reclaimer.footer view
     = Int64.wrap64 (Int64.zsum (Reclaimer.SizeReclaimed <$> Reclaimer.Entries st))
  /\ Int64.wrap64 (Int64.zsum (Reclaimer.rows view).*2)
     = Int64.wrap64
         (Int64.zsum
            (Reclaimer.SizeReclaimed
               <$> List.filter (fun entry => dryRun || Reclaimer.WasRemoved entry)
                     (Reclaimer.Entries st))).
Proof.
  unfold Reclaimer.PrintTable. destruct (Reclaimer.Entries st) as [|e es] eqn:Hes;
    [discriminate|].
  intros [= <-]. cbn [Reclaimer.footer Reclaimer.rows].
  split; [reflexivity|]. split; [rewrite TotalReclaimedBytes_zsum, Hes; reflexivity|].
  rewrite (zsum_perm _ ((map_to_list (Reclaimer.groupedTotals dryRun st)).*2)).
  - rewrite groupedTotals_flag, fold_addTo_total, map_to_list_empty, Hes. reflexivity.
  - apply fmap_Permutation. rewrite <- (rows_of_map (Reclaimer.groupedTotals dryRun st)) at 2.
    apply fmap_Permutation, sortStrings_perm.
Qed.

(** C4, on the interactive run of the scenario (the first candidate
    accepted, the second declined).  The run returns the size of the one
    entry marked removed, and the rows of the table rendered with the
    flag off add up to it; but the total the ledger exposes, which is
    also the footer of that table, counts the declined entry too. *)
Theorem C4_total_counts_entries_not_removed :
  let out :=
    fst (processCleanupItems map_to_list Scenario.items false true
           Reclaimer.NewSummaryTable Reclaimer.NewSummaryTable "" false Scenario.world) in
  Reclaimer.Entries (Cleaner.summary out)
  = [ Reclaimer.mkEntry "/tmp/a" 4096 true "System Temporary Files";
      Reclaimer.mkEntry "/tmp/b" 4096 false "System Temporary Files" ]
  /\ totalReclaimed out = 4096
  /\ Spec.removedTotal (Reclaimer.Entries (Cleaner.summary out)) = 4096
  /\ Reclaimer.TotalReclaimedBytes (Cleaner.summary out) = 8192
  /\ Reclaimer.PrintTable (Cleaner.summary out) false "Reclaimed Disk Summary"
     = Some (Reclaimer.mkView "Reclaimed Disk Summary"
               [("System Temporary Files", 4096)] 8192).
Proof. vm_compute. repeat split; reflexivity. Qed.

End LedgerTotals.

(** ** The ignore filter *)
Section IgnoreFilter.
Import Os.

(** What [ContainsPath] decides, on the strings it compares. *)
Lemma ContainsPath_iff env targetPath ignorePaths :
  Utils.ContainsPath env targetPath ignorePaths = true <->
  exists target,
    Filepath.Abs (Getwd env) targetPath = inl target
    /\ exists entry ancestor,
         entry ∈ ignorePaths
         /\ Filepath.Abs (Getwd env) (Utils.ExpandPath env entry) = inl ancestor
         /\ (Filepath.Clean target = Filepath.Clean ancestor
             \/ Strings.HasPrefix (Filepath.Clean target)
                  (Filepath.Clean ancestor +:+ "/") = true).
Proof.
  unfold Utils.ContainsPath.
  destruct (Filepath.Abs (Getwd env) targetPath) as [target|e].
  2:{ split; [discriminate|]. intros (t & Ht & _). discriminate. }
  induction ignorePaths as [|entry rest IH]; cbn [Utils.containsLoop].
  - split; [discriminate|]. intros (t & _ & entry & a & Hin & _).
    apply elem_of_nil in Hin. contradiction.
  - destruct (Filepath.Abs (Getwd env) (Utils.ExpandPath env entry)) as [ancestor|e] eqn:Habs.
    + destruct (String.eqb (Filepath.Clean target) (Filepath.Clean ancestor)
                || Strings.HasPrefix (Filepath.Clean target)
                     (Filepath.Clean ancestor +:+ Filepath.Separator)) eqn:Hhit.
      * split; [intros _ | reflexivity].
        exists target. split; [reflexivity|]. exists entry, ancestor.
        split; [apply list_elem_of_here|]. split; [exact Habs|].
        apply orb_true_iff in Hhit. destruct Hhit as [Heq | Hpre].
        -- left. apply String.eqb_eq, Heq.
        -- right. exact Hpre.
      * rewrite IH. split.
        -- intros (t & Ht & entry' & a & Hin & Ha & Hor).
           exists t. split; [exact Ht|]. exists entry', a.
           split; [apply list_elem_of_further, Hin | split; assumption].
        -- intros (t & Ht & entry' & a & Hin & Ha & Hor).
           exists t. split; [exact Ht|]. exists entry', a.
           apply elem_of_cons in Hin. destruct Hin as [-> | Hin]; [|repeat split; assumption].
           exfalso. rewrite Habs in Ha. injection Ha as <-. injection Ht as <-.
           apply orb_false_iff in Hhit. destruct Hhit as [Hne Hnp].
           destruct Hor as [Heq | Hpre].
           ++ apply String.eqb_neq in Hne. contradiction.
           ++ unfold Filepath.Separator in Hnp. congruence.
    + rewrite IH. split.
      * intros (t & Ht & entry' & a & Hin & Ha & Hor).
        exists t. split; [exact Ht|]. exists entry', a.
        split; [apply list_elem_of_further, Hin | split; assumption].
      * intros (t & Ht & entry' & a & Hin & Ha & Hor).
        exists t. split; [exact Ht|]. exists entry', a.
        apply elem_of_cons in Hin. destruct Hin as [-> | Hin]; [|repeat split; assumption].
        rewrite Habs in Ha. discriminate.
Qed.

Lemma rev_string_involutive c acc acc' :
  Strings.rev_string (Strings.rev_string c acc) acc'
  = Strings.rev_string acc (c +:+ acc').
Proof.
  revert acc acc'. induction c as [|a c IH]; intros acc acc'; simpl; [reflexivity|].
  rewrite IH. reflexivity.
Qed.

Lemma noSlash_rev_string c acc :
  Spec.noSlash c = true -> Spec.noSlash acc = true -> Spec.noSlash (Strings.rev_string c acc) = true.
Proof.
  revert acc. induction c as [|a c IH]; intros acc Hc Hacc; simpl in *; [exact Hacc|].
  apply andb_true_iff in Hc as [Ha Hc]. apply IH; [exact Hc|]. simpl. now rewrite Ha.
Qed.

Lemma split_aux_noSlash s : forall cur,
  Spec.noSlash cur = true -> Forall (fun c => Spec.noSlash c = true) (Filepath.split_aux s cur).
Proof.
  induction s as [|a s IH]; intros cur Hcur; simpl.
  - constructor; [|constructor]. now apply noSlash_rev_string.
  - destruct (Ascii.eqb a "/") eqn:Ha.
    + constructor; [now apply noSlash_rev_string | now apply IH].
    + apply IH. simpl. now rewrite Ha.
Qed.

Lemma split_aux_element c : forall s cur,
  Spec.noSlash c = true ->
  Filepath.split_aux (c +:+ s) cur = Filepath.split_aux s (Strings.rev_string c cur).
Proof.
  induction c as [|a c IH]; intros s cur Hc; simpl in *; [reflexivity|].
  apply andb_true_iff in Hc as [Ha Hc]. apply negb_true_iff in Ha. rewrite Ha.
  now apply IH.
Qed.


Lemma append_cons a s t : String a s +:+ t = String a (s +:+ t).
Proof. reflexivity. Qed.

Lemma append_nil_l s : "" +:+ s = s.
Proof. reflexivity. Qed.

Lemma append_nil_r s : s +:+ "" = s.
Proof. induction s as [|a s IH]; [reflexivity|]. now rewrite append_cons, IH. Qed.

Lemma append_assoc s1 s2 s3 : (s1 +:+ s2) +:+ s3 = s1 +:+ (s2 +:+ s3).
Proof. induction s1 as [|a s1 IH]; [reflexivity|]. now rewrite !append_cons, IH. Qed.

Lemma concat_cons c cs : String.concat "/" (c :: cs) = c +:+ Spec.tail cs.
Proof. destruct cs; simpl; [|reflexivity]. now rewrite append_nil_r. Qed.

Lemma split_aux_slash s cur :
  Filepath.split_aux ("/" +:+ s) cur
  = Strings.rev_string cur "" :: Filepath.split_aux s "".
Proof. reflexivity. Qed.

Lemma rev_string_twice c : Strings.rev_string (Strings.rev_string c "") "" = c.
Proof. rewrite rev_string_involutive. simpl. apply append_nil_r. Qed.

Lemma split_concat cs :
  Forall (fun c => Spec.noSlash c = true) cs -> cs <> [] ->
  Filepath.split (String.concat "/" cs) = cs.
Proof.
  unfold Filepath.split. induction 1 as [|c cs Hc Hcs IH]; intros Hne; [congruence|].
  rewrite concat_cons, split_aux_element by exact Hc.
  destruct cs as [|c' cs].
  - simpl. now rewrite rev_string_twice.
  - change (Spec.tail (c' :: cs)) with ("/" +:+ String.concat "/" (c' :: cs)).
    rewrite split_aux_slash, rev_string_twice, IH by discriminate. reflexivity.
Qed.

Lemma proper_noSlash c : Spec.proper c = true -> Spec.noSlash c = true.
Proof. unfold Spec.proper. intros H. now repeat (apply andb_true_iff in H as [H _]). Qed.

(** [clean_step] pushes a Spec.proper element. *)
Lemma clean_step_proper rooted stack c :
  Spec.proper c = true -> Filepath.clean_step rooted stack c = c :: stack.
Proof.
  unfold Spec.proper, Filepath.clean_step. intros H.
  apply andb_true_iff in H as [H Hdd]. apply andb_true_iff in H as [H Hd].
  apply andb_true_iff in H as [_ He].
  apply negb_true_iff in Hdd, Hd, He. now rewrite He, Hd, Hdd.
Qed.

Lemma clean_steps_proper rooted cs : forall stack,
  Forall (fun c => Spec.proper c = true) cs ->
  fold_left (Filepath.clean_step rooted) cs stack = rev cs ++ stack.
Proof.
  induction cs as [|c cs IH]; intros stack Hcs; [reflexivity|].
  inversion Hcs; subst. simpl. rewrite clean_step_proper, IH by assumption.
  now rewrite <- app_assoc.
Qed.

(** In a rooted path every element that [clean_step] keeps is Spec.proper. *)
Lemma clean_step_keeps stack c :
  Spec.noSlash c = true -> Forall (fun c => Spec.proper c = true) stack ->
  Forall (fun c => Spec.proper c = true) (Filepath.clean_step true stack c).
Proof.
  intros Hc Hstack. unfold Filepath.clean_step.
  destruct (String.eqb c "") eqn:He; [exact Hstack|].
  destruct (String.eqb c ".") eqn:Hd; [exact Hstack|]. simpl.
  destruct (String.eqb c "..") eqn:Hdd.
  - destruct stack as [|top rest]; [constructor|].
    inversion Hstack as [|? ? Htop Hrest]; subst.
    destruct (String.eqb top "..") eqn:Htd; [|exact Hrest].
    unfold Spec.proper in Htop. rewrite Htd in Htop. simpl in Htop.
    rewrite andb_false_r in Htop. discriminate.
  - constructor; [|exact Hstack]. unfold Spec.proper. now rewrite Hc, He, Hd, Hdd.
Qed.

Lemma clean_steps_keep l : forall stack,
  Forall (fun c => Spec.noSlash c = true) l ->
  Forall (fun c => Spec.proper c = true) stack ->
  Forall (fun c => Spec.proper c = true) (fold_left (Filepath.clean_step true) l stack).
Proof.
  induction l as [|c l IH]; intros stack Hl Hstack; [exact Hstack|].
  inversion Hl; subst. simpl. apply IH; [assumption|]. now apply clean_step_keeps.
Qed.

Lemma components_proper path :
  Strings.HasPrefix path "/" = true ->
  Forall (fun c => Spec.proper c = true) (Filepath.components path).
Proof.
  intros Hroot. unfold Filepath.components. rewrite Hroot.
  apply Forall_rev, clean_steps_keep; [|constructor].
  apply split_aux_noSlash. reflexivity.
Qed.

Lemma HasPrefix_nil s : Strings.HasPrefix s "" = true.
Proof. destruct s; reflexivity. Qed.

Lemma HasPrefix_slash s : Strings.HasPrefix ("/" +:+ s) "/" = true.
Proof. cbn. apply HasPrefix_nil. Qed.

Lemma Clean_rooted path :
  Strings.HasPrefix path "/" = true ->
  Filepath.Clean path = Spec.rootedForm (Filepath.components path).
Proof. intros Hroot. unfold Filepath.Clean. now rewrite Hroot. Qed.

Lemma components_rootedForm cs :
  Forall (fun c => Spec.proper c = true) cs -> Filepath.components (Spec.rootedForm cs) = cs.
Proof.
  intros Hcs. unfold Filepath.components, Spec.rootedForm.
  rewrite HasPrefix_slash. unfold Filepath.split. rewrite split_aux_slash. simpl.
  destruct cs as [|c cs]; [reflexivity|].
  fold (Filepath.split (String.concat "/" (c :: cs))).
  rewrite split_concat.
  - rewrite clean_steps_proper by exact Hcs. now rewrite app_nil_r, rev_involutive.
  - eapply Forall_impl; [exact Hcs|]. intros x. apply proper_noSlash.
  - discriminate.
Qed.

Lemma Clean_rootedForm cs :
  Forall (fun c => Spec.proper c = true) cs -> Filepath.Clean (Spec.rootedForm cs) = Spec.rootedForm cs.
Proof.
  intros Hcs. rewrite Clean_rooted by apply HasPrefix_slash.
  now rewrite components_rootedForm.
Qed.

(** [Clean] is idempotent on rooted paths. *)
Lemma Clean_Clean path :
  Strings.HasPrefix path "/" = true ->
  Filepath.Clean (Filepath.Clean path) = Filepath.Clean path.
Proof.
  intros Hroot. rewrite (Clean_rooted path Hroot).
  rewrite Clean_rooted by apply HasPrefix_slash.
  now rewrite components_rootedForm by (apply components_proper, Hroot).
Qed.


Lemma slashOrEmpty_tail cs : Spec.slashOrEmpty (Spec.tail cs) = true.
Proof. destruct cs; reflexivity. Qed.

(** Two strings that start with an element each agree when the
    elements and the rests do. *)
Lemma eqb_element x : forall y s t,
  Spec.noSlash x = true -> Spec.noSlash y = true ->
  Spec.slashOrEmpty s = true -> Spec.slashOrEmpty t = true ->
  String.eqb (x +:+ s) (y +:+ t) = String.eqb x y && String.eqb s t.
Proof.
  induction x as [|a x IH]; intros [|b y] s t Hx Hy Hs Ht;
    rewrite ?append_cons, ?append_nil_l.
  - reflexivity.
  - simpl in Hy. apply andb_true_iff in Hy as [Hb _]. apply negb_true_iff in Hb.
    destruct s as [|c s]; [reflexivity|]. simpl in Hs. apply Ascii.eqb_eq in Hs. subst c.
    cbn [String.eqb]. rewrite Ascii.eqb_sym, Hb. reflexivity.
  - simpl in Hx. apply andb_true_iff in Hx as [Ha _]. apply negb_true_iff in Ha.
    destruct t as [|c t]; [reflexivity|]. simpl in Ht. apply Ascii.eqb_eq in Ht. subst c.
    cbn [String.eqb]. rewrite Ha. reflexivity.
  - simpl in Hx, Hy. apply andb_true_iff in Hx as [_ Hx]. apply andb_true_iff in Hy as [_ Hy].
    cbn [String.eqb]. rewrite (IH y s t) by assumption.
    destruct (Ascii.eqb a b); reflexivity.
Qed.

(** A string that starts with an element has a prefix that starts with
    an element and goes on with a separator when the elements agree and
    the rest has the rest of the prefix. *)
Lemma prefix_element x : forall y s t,
  Spec.noSlash x = true -> Spec.noSlash y = true ->
  Spec.slashOrEmpty s = true -> Strings.HasPrefix t "/" = true ->
  Strings.HasPrefix (x +:+ s) (y +:+ t) = String.eqb x y && Strings.HasPrefix s t.
Proof.
  induction x as [|a x IH]; intros [|b y] s t Hx Hy Hs Ht;
    rewrite ?append_cons, ?append_nil_l.
  - reflexivity.
  - simpl in Hy. apply andb_true_iff in Hy as [Hb _]. apply negb_true_iff in Hb.
    destruct s as [|c s]; [reflexivity|]. simpl in Hs. apply Ascii.eqb_eq in Hs. subst c.
    cbn [Strings.HasPrefix]. rewrite Ascii.eqb_sym, Hb. reflexivity.
  - simpl in Hx. apply andb_true_iff in Hx as [Ha _]. apply negb_true_iff in Ha.
    destruct t as [|c t]; [discriminate|]. cbn [Strings.HasPrefix] in Ht.
    destruct (Ascii.eqb c "/") eqn:Hc; [|discriminate].
    apply Ascii.eqb_eq in Hc. subst c. cbn [Strings.HasPrefix String.eqb].
    rewrite Ha. reflexivity.
  - simpl in Hx, Hy. apply andb_true_iff in Hx as [_ Hx]. apply andb_true_iff in Hy as [_ Hy].
    cbn [Strings.HasPrefix String.eqb].
    rewrite (IH y s t) by assumption.
    destruct (Ascii.eqb a b); reflexivity.
Qed.

Lemma HasPrefix_tail_slash cs : Strings.HasPrefix (Spec.tail cs +:+ "/") "/" = true.
Proof.
  destruct cs as [|c cs]; [reflexivity|].
  unfold Spec.tail. rewrite append_assoc. apply HasPrefix_slash.
Qed.

Lemma tail_cons c cs : Spec.tail (c :: cs) = "/" +:+ (c +:+ Spec.tail cs).
Proof. unfold Spec.tail at 1. now rewrite concat_cons. Qed.

(** On the canonical forms, the test of [ContainsPath] is the test on
    the elements. *)
Lemma under_tail b : forall a,
  Forall (fun c => Spec.noSlash c = true) a -> Forall (fun c => Spec.noSlash c = true) b ->
  String.eqb (Spec.tail a) (Spec.tail b) || Strings.HasPrefix (Spec.tail a) (Spec.tail b +:+ "/")
  = Spec.under a b.
Proof.
  induction b as [|y b IH]; intros a Ha Hb.
  - destruct a as [|x a]; [reflexivity|].
    rewrite tail_cons, append_cons, append_nil_l. cbn [Spec.tail].
    rewrite append_nil_l. cbn [String.eqb Strings.HasPrefix orb].
    rewrite Ascii.eqb_refl. apply HasPrefix_nil.
  - destruct a as [|x a]; [reflexivity|].
    inversion Ha; subst. inversion Hb; subst.
    rewrite !tail_cons, !append_cons, !append_nil_l.
    cbn [String.eqb Strings.HasPrefix].
    rewrite Ascii.eqb_refl. cbn [andb]. rewrite append_assoc.
    rewrite eqb_element by (try assumption; apply slashOrEmpty_tail).
    rewrite prefix_element; try assumption; try apply slashOrEmpty_tail.
    2:{ apply HasPrefix_tail_slash. }
    rewrite <- andb_orb_distrib_r, IH by assumption.
    cbn [Spec.under]. now rewrite String.eqb_sym.
Qed.


Lemma rootedForm_tail cs : cs <> [] -> Spec.rootedForm cs = Spec.tail cs.
Proof. destruct cs; [congruence | reflexivity]. Qed.

Lemma proper_nonempty c : Spec.proper c = true -> exists a c', c = String a c'.
Proof. destruct c as [|a c']; [discriminate | eauto]. Qed.

(** The test of [ContainsPath] on two canonical forms, the second of
    which is not the root. *)
Lemma rooted_test ct cs :
  Forall (fun c => Spec.proper c = true) ct -> Forall (fun c => Spec.proper c = true) cs ->
  cs <> [] ->
  String.eqb (Spec.rootedForm ct) (Spec.rootedForm cs)
  || Strings.HasPrefix (Spec.rootedForm ct) (Spec.rootedForm cs +:+ "/")
  = Spec.under ct cs.
Proof.
  intros Hct Hcs Hne. rewrite (rootedForm_tail cs Hne).
  destruct ct as [|x ct].
  - destruct cs as [|c cs]; [congruence|]. inversion Hcs; subst.
    destruct (proper_nonempty c) as (a & c' & ->); [assumption|].
    unfold Spec.rootedForm. rewrite tail_cons, !append_cons, !append_nil_l.
    reflexivity.
  - rewrite rootedForm_tail by discriminate.
    apply under_tail; (eapply Forall_impl; [eassumption|]); intros c; apply proper_noSlash.
Qed.

(** With an absolute working directory, [filepath.Abs] gives the
    canonical form of a rooted path. *)
Lemma Abs_rooted getwd path a :
  (forall wd, getwd = inl wd -> Strings.HasPrefix wd "/" = true) ->
  Filepath.Abs getwd path = inl a ->
  exists cs, Forall (fun c => Spec.proper c = true) cs /\ a = Spec.rootedForm cs.
Proof.
  intros Hwd. unfold Filepath.Abs, Filepath.IsAbs.
  destruct (Strings.HasPrefix path "/") eqn:Hroot.
  - intros [= <-]. exists (Filepath.components path).
    split; [apply components_proper, Hroot | apply Clean_rooted, Hroot].
  - destruct getwd as [wd|e]; [|discriminate]. intros [= <-].
    specialize (Hwd wd eq_refl).
    destruct wd as [|w wd]; [discriminate|].
    cbn [Filepath.Join String.eqb Filepath.join_with String.concat].
    assert (Hr : Strings.HasPrefix (String w wd +:+ "/" +:+ path) "/" = true).
    { rewrite append_cons. cbn [Strings.HasPrefix] in *.
      destruct (Ascii.eqb w "/"); [apply HasPrefix_nil | discriminate]. }
    exists (Filepath.components (String w wd +:+ "/" +:+ path)).
    split; [apply components_proper, Hr | apply Clean_rooted, Hr].
Qed.

(** For ignore entries whose canonical form is not the root, and with
    an absolute working directory, [ContainsPath] decides what the
    specification says: the canonical target is, or lies below, the
    canonical form of an entry. *)
Proposition ContainsPath_below_root env targetPath ignorePaths :
  (forall wd, Getwd env = inl wd -> Strings.HasPrefix wd "/" = true) ->
  (forall entry,
     entry ∈ ignorePaths ->
     Filepath.Abs (Getwd env) (Utils.ExpandPath env entry) <> inl "/") ->
  Utils.ContainsPath env targetPath ignorePaths = Spec.ignored env targetPath ignorePaths.
Proof.
  intros Hwd Hroot. unfold Utils.ContainsPath, Spec.ignored.
  destruct (Filepath.Abs (Getwd env) targetPath) as [target|e] eqn:Htarget; [|reflexivity].
  destruct (Abs_rooted _ _ _ Hwd Htarget) as (ct & Hct & ->).
  rewrite (components_rootedForm ct Hct).
  induction ignorePaths as [|entry rest IH]; [reflexivity|].
  cbn [existsb Utils.containsLoop].
  destruct (Filepath.Abs (Getwd env) (Utils.ExpandPath env entry)) as [ancestor|e] eqn:Habs.
  - destruct (Abs_rooted _ _ _ Hwd Habs) as (cs & Hcs & ->).
    assert (Hne : cs <> []).
    { intros ->. apply (Hroot entry); [apply list_elem_of_here|]. rewrite Habs. reflexivity. }
    rewrite !Clean_rootedForm by assumption.
    unfold Filepath.Separator.
    rewrite rooted_test by assumption.
    rewrite !components_rootedForm by assumption.
    destruct (Spec.under ct cs); [reflexivity|]. cbn [orb].
    apply IH. intros entry' Hin. apply Hroot, list_elem_of_further, Hin.
  - cbn [orb]. apply IH. intros entry' Hin. apply Hroot, list_elem_of_further, Hin.
Qed.

Lemma Contains_cons a s sub :
  Strings.Contains (String a s) sub = false ->
  Strings.HasPrefix (String a s) sub = false /\ Strings.Contains s sub = false.
Proof.
  cbn [Strings.Contains]. destruct (Strings.HasPrefix (String a s) sub); [discriminate|].
  intros H. split; [reflexivity | exact H].
Qed.

(** Without an occurrence there is nothing to replace. *)
Lemma ReplaceAll_aux_none fuel : forall s old new,
  Strings.Contains s old = false -> Strings.ReplaceAll_aux fuel s old new = s.
Proof.
  induction fuel as [|fuel IH]; intros s old new Hnone; [reflexivity|].
  destruct s as [|a s]; [reflexivity|].
  destruct (Contains_cons a s old Hnone) as [Hp Hs].
  cbn [Strings.ReplaceAll_aux]. rewrite Hp. now rewrite IH.
Qed.

Lemma ReplaceAll_aux_hit fuel a s old new :
  Strings.HasPrefix (String a s) old = true ->
  Strings.ReplaceAll_aux (S fuel) (String a s) old new
  = new +:+ Strings.ReplaceAll_aux fuel (Strings.drop (String.length old) (String a s)) old new.
Proof. intros H. cbn [Strings.ReplaceAll_aux]. now rewrite H. Qed.

(** Scanning a path up to some point leaves a state (the element being
    read, the stack) from which the rest of the path goes on. *)
Lemma clean_scan rooted h : forall cur stack,
  exists cur' stack', forall s,
    fold_left (Filepath.clean_step rooted) (Filepath.split_aux (h +:+ s) cur) stack
    = fold_left (Filepath.clean_step rooted) (Filepath.split_aux s cur') stack'.
Proof.
  induction h as [|a h IH]; intros cur stack.
  - exists cur, stack. reflexivity.
  - destruct (Ascii.eqb a "/") eqn:Ha.
    + destruct (IH EmptyString
                  (Filepath.clean_step rooted stack (Strings.rev_string cur EmptyString)))
        as (cur' & stack' & Hgo).
      exists cur', stack'. intros s. rewrite append_cons. cbn [Filepath.split_aux].
      rewrite Ha. cbn [fold_left]. apply Hgo.
    + destruct (IH (String a cur) stack) as (cur' & stack' & Hgo).
      exists cur', stack'. intros s. rewrite append_cons. cbn [Filepath.split_aux].
      rewrite Ha. apply Hgo.
Qed.

Lemma clean_step_empty rooted stack : Filepath.clean_step rooted stack "" = stack.
Proof. reflexivity. Qed.

(** A doubled separator is as good as one. *)
Lemma Clean_doubled_separator h r :
  Strings.HasPrefix h "/" = true ->
  Filepath.Clean (h +:+ "/" +:+ "/" +:+ r) = Filepath.Clean (h +:+ "/" +:+ r).
Proof.
  intros Hh.
  assert (Hroot : forall s, Strings.HasPrefix (h +:+ s) "/" = true).
  { intros s. destruct h as [|a h]; [discriminate|]. rewrite append_cons.
    cbn [Strings.HasPrefix] in *. destruct (Ascii.eqb a "/"); [apply HasPrefix_nil|discriminate]. }
  unfold Filepath.Clean, Filepath.components, Filepath.split. rewrite !Hroot.
  destruct (clean_scan true h EmptyString []) as (cur' & stack' & Hgo).
  rewrite !Hgo. rewrite !split_aux_slash. cbn [fold_left].
  rewrite clean_step_empty. reflexivity.
Qed.

(** A cleaned rooted path is absolute and stays as it is. *)
Lemma Abs_Clean getwd path :
  Strings.HasPrefix path "/" = true ->
  Filepath.Abs getwd (Filepath.Clean path) = inl (Filepath.Clean path).
Proof.
  intros Hroot. unfold Filepath.Abs, Filepath.IsAbs.
  assert (Hc : Strings.HasPrefix (Filepath.Clean path) "/" = true).
  { rewrite (Clean_rooted _ Hroot). apply HasPrefix_slash. }
  rewrite Hc. now rewrite Clean_Clean.
Qed.

(** The three spellings of a path under the home directory expand to
    one canonical form, that of the literal path. *)
Lemma ExpandPath_spellings env r :
  Strings.HasPrefix (HOME env) "/" = true ->
  Strings.Contains r "$HOME" = false ->
  Strings.Contains r "${HOME}" = false ->
  Strings.Contains (HOME env +:+ "/" +:+ r) "$HOME" = false ->
  Strings.Contains (HOME env +:+ "/" +:+ r) "${HOME}" = false ->
  let canonical := inl (Filepath.Clean (HOME env +:+ "/" +:+ r)) in
  Filepath.Abs (Getwd env) (Utils.ExpandPath env ("~/" +:+ r)) = canonical
  /\ Filepath.Abs (Getwd env) (Utils.ExpandPath env ("$HOME/" +:+ r)) = canonical
  /\ Filepath.Abs (Getwd env) (Utils.ExpandPath env ("${HOME}/" +:+ r)) = canonical
  /\ Filepath.Abs (Getwd env) (Utils.ExpandPath env (HOME env +:+ "/" +:+ r)) = canonical.
Proof.
  intros Hh Hr1 Hr2 Hl1 Hl2 canonical.
  assert (Hne : String.eqb (HOME env) "" = false).
  { destruct (HOME env); [discriminate | reflexivity]. }
  assert (Hroot : forall s, Strings.HasPrefix (HOME env +:+ s) "/" = true).
  { intros s. destruct (HOME env) as [|a h]; [discriminate|]. rewrite append_cons.
    cbn [Strings.HasPrefix] in *. destruct (Ascii.eqb a "/"); [apply HasPrefix_nil|discriminate]. }
  assert (Hlit : Filepath.Abs (Getwd env) (HOME env +:+ "/" +:+ r) = canonical).
  { unfold Filepath.Abs, Filepath.IsAbs. now rewrite Hroot. }
  repeat split.
  - unfold Utils.ExpandPath, UserHomeDir. rewrite Hne.
    change (Strings.HasPrefix ("~/" +:+ r) "~") with true. cbv iota.
    change (Strings.drop 1 ("~/" +:+ r)) with ("/" +:+ r).
    unfold Filepath.Join. rewrite Hne.
    change (Filepath.join_with "/" [HOME env; "/" +:+ r]) with (HOME env +:+ "/" +:+ "/" +:+ r).
    rewrite Clean_doubled_separator by exact Hh.
    apply Abs_Clean, Hroot.
  - unfold Utils.ExpandPath.
    change (Strings.HasPrefix ("$HOME/" +:+ r) "~") with false. cbv iota.
    change (Strings.Contains ("$HOME/" +:+ r) "$HOME") with true. cbv iota.
    rewrite Hne. cbn [negb].
    unfold Strings.ReplaceAll.
    change (String.length ("$HOME/" +:+ r)) with (S (S (S (S (S (S (String.length r))))))).
    change ("$HOME/" +:+ r) with (String "$" ("HOME/" +:+ r)).
    rewrite ReplaceAll_aux_hit by reflexivity.
    change (Strings.drop (String.length "$HOME") (String "$" ("HOME/" +:+ r))) with ("/" +:+ r).
    rewrite ReplaceAll_aux_none; [exact Hlit|]. exact Hr1.
  - unfold Utils.ExpandPath.
    change (Strings.HasPrefix ("${HOME}/" +:+ r) "~") with false. cbv iota.
    change (Strings.Contains ("${HOME}/" +:+ r) "$HOME") with (Strings.Contains r "$HOME").
    rewrite Hr1.
    change (Strings.Contains ("${HOME}/" +:+ r) "${HOME}") with true. cbv iota.
    rewrite Hne. cbn [negb].
    unfold Strings.ReplaceAll.
    change (String.length ("${HOME}/" +:+ r))
      with (S (S (S (S (S (S (S (S (String.length r))))))))).
    change ("${HOME}/" +:+ r) with (String "$" ("{HOME}/" +:+ r)).
    rewrite ReplaceAll_aux_hit by reflexivity.
    change (Strings.drop (String.length "${HOME}") (String "$" ("{HOME}/" +:+ r)))
      with ("/" +:+ r).
    rewrite ReplaceAll_aux_none; [exact Hlit|]. exact Hr2.
  - unfold Utils.ExpandPath.
    assert (Htilde : Strings.HasPrefix (HOME env +:+ "/" +:+ r) "~" = false).
    { destruct (HOME env) as [|a h]; [discriminate|]. rewrite append_cons.
      cbn [Strings.HasPrefix] in *. destruct (Ascii.eqb a "/") eqn:Ha; [|discriminate].
      apply Ascii.eqb_eq in Ha. subst a. reflexivity. }
    rewrite Htilde, Hl1, Hl2. exact Hlit.
Qed.

(** The verdict depends on an ignore entry through its canonical form
    alone. *)
Lemma ContainsPath_canonical env targetPath entries entries' :
  Forall2
    (fun entry entry' =>
       Filepath.Abs (Getwd env) (Utils.ExpandPath env entry)
       = Filepath.Abs (Getwd env) (Utils.ExpandPath env entry'))
    entries entries' ->
  Utils.ContainsPath env targetPath entries = Utils.ContainsPath env targetPath entries'.
Proof.
  intros Hsame. unfold Utils.ContainsPath.
  destruct (Filepath.Abs (Getwd env) targetPath) as [target|e]; [|reflexivity].
  induction Hsame as [|entry entry' entries entries' Hentry _ IH]; [reflexivity|].
  cbn [Utils.containsLoop]. rewrite Hentry, IH. reflexivity.
Qed.

(** An entry under the home directory gives one verdict, whether it is
    written with the home shorthand, with either placeholder, or out in
    full, and wherever it stands in the ignore list. *)
Proposition ContainsPath_spellings_agree env targetPath r before after :
  Strings.HasPrefix (HOME env) "/" = true ->
  Strings.Contains r "$HOME" = false ->
  Strings.Contains r "${HOME}" = false ->
  Strings.Contains (HOME env +:+ "/" +:+ r) "$HOME" = false ->
  Strings.Contains (HOME env +:+ "/" +:+ r) "${HOME}" = false ->
  let verdict entry := Utils.ContainsPath env targetPath (before ++ entry :: after) in
  verdict ("~/" +:+ r) = verdict (HOME env +:+ "/" +:+ r)
  /\ verdict ("$HOME/" +:+ r) = verdict (HOME env +:+ "/" +:+ r)
  /\ verdict ("${HOME}/" +:+ r) = verdict (HOME env +:+ "/" +:+ r).
Proof.
  intros Hh Hr1 Hr2 Hl1 Hl2 verdict.
  destruct (ExpandPath_spellings env r Hh Hr1 Hr2 Hl1 Hl2) as (H1 & H2 & H3 & H4).
  assert (Hsame : forall entry,
            Filepath.Abs (Getwd env) (Utils.ExpandPath env entry)
            = Filepath.Abs (Getwd env) (Utils.ExpandPath env (HOME env +:+ "/" +:+ r)) ->
            verdict entry = verdict (HOME env +:+ "/" +:+ r)).
  { intros entry Hentry. apply ContainsPath_canonical.
    apply Forall2_app; [apply Forall2_same_length_lookup_2; [reflexivity|] |].
    - intros i x y Hx Hy. congruence.
    - constructor; [exact Hentry|].
      apply Forall2_same_length_lookup_2; [reflexivity|]. intros i x y Hx Hy. congruence. }
  repeat split; apply Hsame; congruence.
Qed.

(** A home shorthand, an environment placeholder and the literal path
    name one directory, and give one verdict. *)
Example ContainsPath_spellings :
  (fun entry => Utils.ContainsPath Scenario.env "/Users/me/Downloads/big.iso" [entry])
    <$> ["~/Downloads"; "$HOME/Downloads"; "${HOME}/Downloads"; "/Users/me/Downloads";
         "/Users/me/Down"]
  = [true; true; true; true; false].
Proof. vm_compute. reflexivity. Qed.

(** C7, at the root.  With the ignore entry [/], the canonical form of
    [/tmp/x] lies below the canonical form of the entry, and yet
    [ContainsPath] does not hold: it looks for the prefix [//], which no
    cleaned path has, so the root as an entry covers the root alone.
    ([ContainsPath_below_root] has every other entry.) *)
Theorem C7_root_entry_misses_what_is_below :
  Filepath.Abs (Getwd Scenario.env) "/tmp/x" = inl "/tmp/x"
  /\ Filepath.Abs (Getwd Scenario.env) (Utils.ExpandPath Scenario.env "/") = inl "/"
  /\ Spec.under (Filepath.components "/tmp/x") (Filepath.components "/") = true
  /\ Spec.ignored Scenario.env "/tmp/x" ["/"] = true
  /\ Utils.ContainsPath Scenario.env "/tmp/x" ["/"] = false
  /\ Utils.ContainsPath Scenario.env "/" ["/"] = true
  /\ Utils.ContainsPath Scenario.env "/tmp/x" ["/tmp"] = true.
Proof. vm_compute. repeat split; reflexivity. Qed.

End IgnoreFilter.

(** ** The theorems at the scenario *)
Section Witnesses.
Import Os Cleaner.

Lemma C1_RemovePath_writes_nothing_witness :
  Utils.GetFileSizeInBytes Scenario.files "/tmp/a" = (4096, None)
  /\ fst (Utils.RemovePath Scenario.files "/tmp/a" false) = (4096, None).
Proof.
  split; [reflexivity|].
  apply (proj1 (proj2 C1_RemovePath_writes_nothing) Scenario.files "/tmp/a" false 4096).
  reflexivity.
Defined.

Lemma C2_dry_run_estimates_only_witness :
  let run :=
    processCleanupItems map_to_list Scenario.items true false Reclaimer.NewSummaryTable
      Reclaimer.NewSummaryTable "" false Scenario.world in
  (forall m : gmap string Z, map_to_list m ≡ₚ map_to_list m)
  /\ run = (fst run, snd run)
  /\ Spec.removeCalls (events (snd run)) = []
  /\ totalReclaimed (fst run) = 8192.
Proof.
  intros run.
  assert (Hperm : forall m : gmap string Z, map_to_list m ≡ₚ map_to_list m)
    by (intros m; reflexivity).
  assert (Hrun : run = (fst run, snd run)) by (vm_compute; reflexivity).
  split; [exact Hperm|]. split; [exact Hrun|].
  destruct (C2_dry_run_estimates_only map_to_list Hperm Scenario.items false
              Reclaimer.NewSummaryTable Reclaimer.NewSummaryTable "" false Scenario.world
              (fst run) (snd run) Hrun) as (Hcalls & _ & _ & _ & _ & _ & Hsum).
  split; [exact Hcalls|]. apply Hsum. vm_compute. split; [discriminate | reflexivity].
Defined.

Lemma C3_estimated_ledger_holds_every_candidate_witness :
  let run :=
    processCleanupItems map_to_list Scenario.items false true Reclaimer.NewSummaryTable
      Reclaimer.NewSummaryTable "" false Scenario.world in
  run = (fst run, snd run)
  /\ Reclaimer.TotalReclaimedBytes (Cleaner.estimatedSummary (fst run)) = 8192.
Proof.
  intros run.
  assert (Hrun : run = (fst run, snd run)) by (vm_compute; reflexivity).
  split; [exact Hrun|].
  destruct (C3_estimated_ledger_holds_every_candidate map_to_list Scenario.items false
              true Reclaimer.NewSummaryTable Reclaimer.NewSummaryTable "" false
              Scenario.world (fst run) (snd run) Hrun) as (_ & _ & _ & Hsum).
  apply Hsum; [reflexivity|]. vm_compute. split; [discriminate | reflexivity].
Defined.


Lemma C6_declined_batch_removes_nothing_witness :
  let w := mkWorld Scenario.files ["maybe"; "No"] [] in
  let run :=
    processCleanupItems map_to_list Scenario.items false false Reclaimer.NewSummaryTable
      Reclaimer.NewSummaryTable "" false w in
  fst (fst (confirmLoop (stdin w))) = false
  /\ run = (fst run, snd run)
  /\ totalReclaimed (fst run) = 0
  /\ err (fst run) = None
  /\ Reclaimer.Entries (Cleaner.summary (fst run)) = []
  /\ Spec.removeCalls (events (snd run)) = [].
Proof.
  intros w run.
  assert (Hno : fst (fst (confirmLoop (stdin w))) = false) by reflexivity.
  assert (Hrun : run = (fst run, snd run)) by (vm_compute; reflexivity).
  split; [exact Hno|]. split; [exact Hrun|].
  destruct (C6_declined_batch_removes_nothing map_to_list Scenario.items
              Reclaimer.NewSummaryTable Reclaimer.NewSummaryTable "" w (fst run) (snd run)
              Hno Hrun) as (Ht & He & Hs & _ & Hc & _).
  split; [exact Ht|]. split; [exact He|]. split; [rewrite Hs; reflexivity | exact Hc].
Defined.


Lemma C9_classifier_first_match_witness :
  UserHomeDir Scenario.env = inl "/Users/me"
  /\ Spec.browserCache "/Users/me/Library/Caches/Google/Chrome/Default/Cache/data_1"
       "~/Library/Caches/Google/Chrome/Default/Cache/data_1" = true
  /\ Spec.homePrefix "~/Library/Caches"
       "/Users/me/Library/Caches/Google/Chrome/Default/Cache/data_1"
       "~/Library/Caches/Google/Chrome/Default/Cache/data_1" = true
  /\ Cleaner.categorizeLargeFilePath Scenario.env
       "/Users/me/Library/Caches/Google/Chrome/Default/Cache/data_1" = "Browser Caches".
Proof.
  split; [reflexivity|]. split; [reflexivity|]. split; [reflexivity|].
  apply (proj2 (proj2 (C9_classifier_first_match Scenario.env
                         "/Users/me/Library/Caches/Google/Chrome/Default/Cache/data_1"
                         "/Users/me" eq_refl))).
  reflexivity.
Defined.

(** C9, without a home directory.  When [os.UserHomeDir] fails the
    classifier returns before it comes to the rules: a path that the
    rule of the developer tools matches, and a path that the rule of
    the browser caches matches, are both given "Other Large Files",
    where the first rule of the table that matches gives "Developer
    Tool Caches/Data" and "Browser Caches".  So the classifier is not
    the first-match evaluation of the table in every environment. *)
Lemma C9_classifier_without_home_counterexample :
  UserHomeDir Machine.bare = inr (ErrorString "$HOME is not defined")
  /\ Spec.firstMatch Spec.rules "/Users/me/.npm/big" "/Users/me/.npm/big"
     = "Developer Tool Caches/Data"
  /\ categorizeLargeFilePath Machine.bare "/Users/me/.npm/big" = "Other Large Files"
  /\ Spec.browserCache "/Volumes/old/~/Library/Caches/Google/Chrome/data_1"
       "/Volumes/old/~/Library/Caches/Google/Chrome/data_1" = true
  /\ Spec.firstMatch Spec.rules "/Volumes/old/~/Library/Caches/Google/Chrome/data_1"
       "/Volumes/old/~/Library/Caches/Google/Chrome/data_1" = "Browser Caches"
  /\ categorizeLargeFilePath Machine.bare
       "/Volumes/old/~/Library/Caches/Google/Chrome/data_1" = "Other Large Files"
  /\ ~ (forall env path,
          categorizeLargeFilePath env path
          = Spec.firstMatch Spec.rules path
              (match UserHomeDir env with
               | inl homeDir => Spec.normalize homeDir path
               | inr _ => path
               end)).
Proof.
  split; [reflexivity|]. split; [reflexivity|]. split; [reflexivity|].
  split; [reflexivity|]. split; [reflexivity|]. split; [reflexivity|].
  intros Hall. specialize (Hall Machine.bare "/Users/me/.npm/big").
  vm_compute in Hall. discriminate Hall.
Qed.

Lemma C10_large_files_with_application_rejected_witness :
  let idle : M Cmd.Cleaned :=
    ret ((0, None), Reclaimer.NewSummaryTable, Reclaimer.NewSummaryTable) in
  let flags := Cmd.mkFlags false true false [] in
  Cmd.largeFilesFlag flags = true
  /\ ["Google Chrome"] <> []
  /\ Cmd.RunE (fun _ _ _ _ _ => idle) (fun _ _ _ _ _ => idle) (fun _ _ _ _ => idle)
       flags ["Google Chrome"] Scenario.world
     = (Some Cmd.conflictError, Scenario.world).
Proof.
  intros idle flags.
  split; [reflexivity|]. split; [discriminate|].
  apply (proj1 (C10_large_files_with_application_rejected
                  (fun _ _ _ _ _ => idle) (fun _ _ _ _ _ => idle) (fun _ _ _ _ => idle)
                  flags ["Google Chrome"] Scenario.world));
    [reflexivity | discriminate].
Defined.

End Witnesses.

(** * Further properties *)

(** ** The confirmation loop *)
Section ConfirmationLoop.
Import Os Cleaner.

Lemma confirmLoop_first_valid invalid line rest :
  Forall (fun l => classify l = Invalid) invalid ->
  classify line <> Invalid ->
  confirmLoop (invalid ++ line :: rest)
  = (Notions.yesOf (classify line), rest, S (length invalid)).
Proof.
  intros Hinv Hline. induction Hinv as [|l invalid Hl _ IH]; simpl.
  - destruct (classify line); simpl; try reflexivity. congruence.
  - rewrite Hl, IH. reflexivity.
Qed.



End ConfirmationLoop.

(** ** What every run of the execution policy keeps *)
Section PolicyInvariants.
Import Os Cleaner.

Variable range_order : gmap string Z -> list (string * Z).

Lemma forEach_confirmItem_world items : forall summary acc w,
  exists evs,
    events (snd (forEach confirmItem items (summary, acc) w)) = events w ++ evs.
Proof.
  induction items as [|item items IH]; intros summary acc w.
  - exists []. simpl. now rewrite app_nil_r.
  - cbn [forEach]. unfold bind. rewrite confirmItem_run. cbv zeta.
    match goal with
    | |- context [forEach confirmItem items (?s, ?a) ?w1] =>
        destruct (IH s a w1) as (evs & Hevs)
    end.
    rewrite Hevs. cbn [events]. eexists. rewrite <- app_assoc. reflexivity.
Qed.

(** X2.  In every mode [processCleanupItems] returns no error, and it
    only ever appends: the entries both ledgers held stay where they
    were, and so do the events.  With no candidates it returns 0 and
    leaves the ledgers and the world untouched. *)
Theorem processCleanupItems_only_appends items dryRun interactive summary
    estimatedSummary tableTitle isApp w :
  let run := processCleanupItems range_order items dryRun interactive summary
               estimatedSummary tableTitle isApp w in
  err (fst run) = None
  /\ (exists new,
        Reclaimer.Entries (Cleaner.summary (fst run)) = Reclaimer.Entries summary ++ new)
  /\ (exists new,
        Reclaimer.Entries (Cleaner.estimatedSummary (fst run))
        = Reclaimer.Entries estimatedSummary ++ new)
  /\ (exists evs, events (snd run) = events w ++ evs)
  /\ (items = [] -> run = (mkOutcome 0 None summary estimatedSummary, w)).
Proof.
  intros run. subst run.
  destruct items as [|item items].
  { simpl. repeat split; try (exists []; now rewrite app_nil_r). }
  assert (Hest : exists new,
            Reclaimer.Entries (snd (aggregate (item :: items) estimatedSummary))
            = Reclaimer.Entries estimatedSummary ++ new).
  { rewrite aggregate_estimated. simpl. eauto. }
  destruct dryRun.
  { unfold processCleanupItems.
    destruct (aggregate (item :: items) estimatedSummary) as [agg est].
    unfold bind.
    destruct (printTable_run est true "Estimated Reclaimed Summary" w)
      as (evs & _ & Hprint).
    rewrite Hprint. simpl. repeat split; eauto; try discriminate.
    exists []. now rewrite app_nil_r. }
  destruct (processCleanupItems range_order (item :: items) false interactive summary
              estimatedSummary tableTitle isApp w) as [out w'] eqn:Hrun.
  pose proof (nondry_run _ _ _ _ _ _ _ _ _ _ _ Hrun) as (He & Herr & new & Hnew & _).
  simpl. split; [exact Herr|]. split; [eauto|]. split; [rewrite He; exact Hest|].
  split; [|discriminate].
  (* the events *)
  unfold processCleanupItems in Hrun.
  destruct (aggregate (item :: items) estimatedSummary) as [agg est].
  unfold bind at 1 in Hrun.
  destruct (printTable_run est true "Estimated Reclaimed Summary" w)
    as (evs & _ & Hprint).
  rewrite Hprint in Hrun.
  destruct interactive.
  { unfold bind in Hrun.
    match type of Hrun with
    | context [forEach confirmItem ?l (?s, ?a) ?w1] =>
        destruct (forEach_confirmItem_world l s a w1) as (evs' & Hevs');
        destruct (forEach confirmItem l (s, a) w1) as [[s' a'] w2]
    end.
    inversion Hrun; subst. simpl in Hevs'. rewrite Hevs'. cbn [events].
    eexists. rewrite <- app_assoc. reflexivity. }
  destruct isApp.
  { rewrite removeAll_run in Hrun. inversion Hrun; subst. cbn [events].
    eexists. rewrite <- app_assoc. reflexivity. }
  unfold bind at 1 in Hrun. rewrite ConfirmAction_run in Hrun.
  destruct (fst (fst (confirmLoop _))).
  - rewrite removeAll_run in Hrun. inversion Hrun; subst. cbn [events].
    eexists. rewrite <- !app_assoc. reflexivity.
  - inversion Hrun; subst. cbn [events]. eexists. rewrite <- !app_assoc. reflexivity.
Qed.

End PolicyInvariants.
(** ** The modes that delete without asking per candidate *)
Section BatchModes.
Import Os Cleaner.

Variable range_order : gmap string Z -> list (string * Z).

Lemma printTable_events st dryRun title w :
  printTable st dryRun title w
  = (tt, mkWorld (fs w) (stdin w) (events w ++ Notions.tableEvents st dryRun title)).
Proof.
  unfold printTable, Notions.tableEvents.
  destruct (Reclaimer.PrintTable st dryRun title) as [view|]; [reflexivity|].
  rewrite app_nil_r. destruct w; reflexivity.
Qed.

(** X3.  Application mode asks nothing: it reads no line, prints the
    table of the estimates, and calls the deletion primitive once for
    every candidate, in the order of the candidates.  The actual ledger
    gains one entry per candidate, in that order, and the total returned
    is the int64 sum of the entries marked removed. *)
Theorem application_mode_removes_without_asking item items summary estimatedSummary
    tableTitle w :
  let candidates := item :: items in
  let new := (fun item => Spec.interactiveEntry (fs w) item true) <$> candidates in
  let est := snd (aggregate candidates estimatedSummary) in
  processCleanupItems range_order candidates false false summary estimatedSummary
    tableTitle true w
  = (mkOutcome (Int64.wrap64 (Spec.removedTotal new)) None
       (Reclaimer.mkTable (Reclaimer.Entries summary ++ new)) est,
     mkWorld (fs w) (stdin w)
       (events w
        ++ Notions.tableEvents est true "Estimated Reclaimed Summary"
        ++ ((fun item => EvRemovePath (ActualPath item) false) <$> candidates))).
Proof.
  intros candidates new est. unfold processCleanupItems. subst est candidates.
  destruct (aggregate (item :: items) estimatedSummary) as [agg est'] eqn:Hagg.
  cbn [snd]. unfold bind at 1. rewrite printTable_events.
  rewrite removeAll_run. cbn [fs stdin events]. rewrite <- app_assoc. reflexivity.
Qed.

Hypothesis range_order_perm : forall m, range_order m ≡ₚ map_to_list m.

(** X4.  The default batch asks once, for the whole batch, with the
    int64 sum of the sizes of all candidates in the question.  When the
    first line that is an answer says yes, it goes on as application
    mode does: one call of the deletion primitive per candidate, in
    order, and one ledger entry each.  The question is printed once for
    each line read up to and with the answer, after the table of the
    estimates and before the first deletion. *)
Theorem confirmed_batch_removes_every_candidate item items summary estimatedSummary
    tableTitle w invalid line rest :
  stdin w = invalid ++ line :: rest ->
  Forall (fun l => classify l = Invalid) invalid ->
  classify line = Yes ->
  let candidates := item :: items in
  let new := (fun item => Spec.interactiveEntry (fs w) item true) <$> candidates in
  let est := snd (aggregate candidates estimatedSummary) in
  let run :=
    processCleanupItems range_order candidates false false summary estimatedSummary
      tableTitle false w in
  fst run
  = mkOutcome (Int64.wrap64 (Spec.removedTotal new)) None
      (Reclaimer.mkTable (Reclaimer.Entries summary ++ new)) est
  /\ events (snd run)
     = events w
       ++ Notions.tableEvents est true "Estimated Reclaimed Summary"
       ++ replicate (S (length invalid))
            (EvPrompt (CleanupPrompt (Int64.wrap64 (Int64.zsum (Size <$> candidates)))))
       ++ ((fun item => EvRemovePath (ActualPath item) false) <$> candidates)
  /\ fs (snd run) = fs w.
Proof.
  intros Hin Hinv Hyes candidates new est run.
  assert (Hrun : run
                 = (mkOutcome (Int64.wrap64 (Spec.removedTotal new)) None
                      (Reclaimer.mkTable (Reclaimer.Entries summary ++ new)) est,
                    mkWorld (fs w) rest
                      (events w
                       ++ Notions.tableEvents est true "Estimated Reclaimed Summary"
                       ++ replicate (S (length invalid))
                            (EvPrompt
                               (CleanupPrompt
                                  (Int64.wrap64 (Int64.zsum (Size <$> candidates)))))
                       ++ ((fun item => EvRemovePath (ActualPath item) false)
                             <$> candidates)))).
  { pose proof (aggregate_total range_order candidates estimatedSummary range_order_perm)
      as Hsum.
    subst run. unfold processCleanupItems. subst est. fold candidates.
    change (match candidates with [] => ?a | _ :: _ => ?b end) with b.
    destruct (aggregate candidates estimatedSummary) as [agg est'] eqn:Hagg.
    cbn [fst snd] in *. unfold bind at 1. rewrite printTable_events.
    unfold bind at 1. rewrite Hsum.
    rewrite ConfirmAction_run. cbn [stdin fs events]. rewrite Hin.
    rewrite (confirmLoop_first_valid _ _ _ Hinv) by (rewrite Hyes; discriminate).
    cbn [fst snd].
    rewrite Hyes. cbn [Notions.yesOf]. rewrite removeAll_run. cbn [fs stdin events].
    rewrite <- !app_assoc. reflexivity. }
  rewrite Hrun. repeat split.
Qed.

End BatchModes.

(** ** The deletion primitive and the size calculator, by what [os.Lstat] says *)
Section PrimitiveResults.
Import Os Cleaner.

(** The walk of the size calculator never ends in an error. *)
Lemma Walk_size_no_error (fs : FS) path :
  snd (Utils.Walk fs path Utils.sizeWalkFn 0) = None.
Proof.
  unfold Utils.Walk. destruct (fs path) as [e|t]; [reflexivity|].
  destruct (walk_size t path 0 in_range_0) as (_ & Hret).
  destruct (Utils.walk Utils.sizeWalkFn path t 0) as [total ret]. cbn [snd] in *.
  destruct Hret as [-> | [-> _]]; reflexivity.
Qed.

(** The size of a path that [os.Lstat] finds. *)
Lemma GetFileSizeInBytes_found (fs : FS) path t :
  fs path = LstatOk t ->
  Utils.GetFileSizeInBytes fs path
  = (if IsDir (info_of t) then Int64.wrap64 (Spec.du t) else Utils.allocation (info_of t),
     None).
Proof.
  intros Hfs. destruct (IsDir (info_of t)) eqn:Hdir.
  - apply GetFileSizeInBytes_dir; assumption.
  - unfold Utils.GetFileSizeInBytes, Utils.allocation. rewrite Hfs, Hdir.
    destruct (Sys (info_of t)); reflexivity.
Qed.

(** X5.  What [RemovePath] returns is decided by [os.Lstat] on the path
    alone, and the dry-run flag makes no difference.  A path that is
    found gives its size and no error, also when entries below it cannot
    be read; a path that does not exist gives 0 and no error; any other
    failure of [os.Lstat] gives 0 and that error, wrapped twice.  The
    file system is given back as it was. *)
Theorem RemovePath_by_lstat (fs : FS) (path : string) (dryRun : bool) :
  Utils.RemovePath fs path dryRun
  = (match fs path with
     | LstatOk t =>
         (if IsDir (info_of t) then Int64.wrap64 (Spec.du t)
          else Utils.allocation (info_of t), None)
     | LstatErr e =>
         if IsNotExist e then (0, None)
         else (0, Some (Wrapped ("could not get size of " +:+ path +:+ " before removal")
                          (Wrapped ("failed to get info for " +:+ path) e)))
     end, fs)
  /\ Utils.RemovePath fs path dryRun = Utils.RemovePath fs path (negb dryRun).
Proof.
  split.
  - unfold Utils.RemovePath. destruct (fs path) as [e|t] eqn:Hfs.
    + unfold Utils.GetFileSizeInBytes. rewrite Hfs.
      destruct (IsNotExist e), dryRun; reflexivity.
    + rewrite (GetFileSizeInBytes_found fs path t Hfs). destruct dryRun; reflexivity.
  - unfold Utils.RemovePath. destruct (Utils.GetFileSizeInBytes fs path) as [size [e|]];
      destruct dryRun; reflexivity.
Qed.

(** X6.  The entry a deletion loop records for a candidate, by what
    [os.Lstat] says of its path when it is removed: a candidate that is
    found is marked removed with the size it has then, whatever size it
    was listed with; one that is gone by then is marked removed with 0
    bytes; only when [os.Lstat] fails otherwise is it kept as not
    removed, with the size it was listed with. *)
Theorem removeItem_entry_by_lstat (item : cleanupItem) summary acc (w : World) :
  let entry :=
    match fs w (ActualPath item) with
    | LstatOk t =>
        Reclaimer.mkEntry (ActualPath item)
          (if IsDir (info_of t) then Int64.wrap64 (Spec.du t)
           else Utils.allocation (info_of t))
          true (Category item)
    | LstatErr e =>
        if IsNotExist e then Reclaimer.mkEntry (ActualPath item) 0 true (Category item)
        else Reclaimer.mkEntry (ActualPath item) (Size item) false (Category item)
    end in
  removeItem item (summary, acc) w
  = ((Reclaimer.mkTable (Reclaimer.Entries summary ++ [entry]),
      if Reclaimer.WasRemoved entry
      then Int64.add acc (Reclaimer.SizeReclaimed entry) else acc),
     mkWorld (fs w) (stdin w) (events w ++ [EvRemovePath (ActualPath item) false])).
Proof.
  intros entry. rewrite removeItem_run. cbv zeta.
  assert (He : Spec.interactiveEntry (fs w) item true = entry).
  { unfold Spec.interactiveEntry, entry, Utils.RemovePath.
    destruct (fs w (ActualPath item)) as [e|t] eqn:Hfs.
    - unfold Utils.GetFileSizeInBytes. rewrite Hfs. destruct (IsNotExist e); reflexivity.
    - rewrite (GetFileSizeInBytes_found _ _ t Hfs). reflexivity. }
  rewrite He. reflexivity.
Qed.

End PrimitiveResults.

(** ** Estimates against what is reclaimed *)
Section EstimateAgainstActual.
Import Os Cleaner.

Variable range_order : gmap string Z -> list (string * Z).
Hypothesis range_order_perm : forall m, range_order m ≡ₚ map_to_list m.

Lemma removedTotal_measured (fs : FS) items :
  Forall (fun item => Utils.GetFileSizeInBytes fs (ActualPath item) = (Size item, None))
    items ->
  (fun item => Spec.interactiveEntry fs item true) <$> items
  = (fun item => Reclaimer.mkEntry (ActualPath item) (Size item) true (Category item))
      <$> items.
Proof.
  intros Hm. induction Hm as [|item items Hitem _ IH]; [reflexivity|].
  rewrite !fmap_cons, IH. f_equal.
  unfold Spec.interactiveEntry, Utils.RemovePath. rewrite Hitem. reflexivity.
Qed.

Lemma removedTotal_all_removed (items : list cleanupItem) :
  Spec.removedTotal
    ((fun item => Reclaimer.mkEntry (ActualPath item) (Size item) true (Category item))
       <$> items)
  = Int64.zsum (Size <$> items).
Proof.
  unfold Spec.removedTotal. induction items as [|item items IH]; [reflexivity|].
  rewrite !fmap_cons. cbn [List.filter Reclaimer.WasRemoved].
  rewrite fmap_cons, !zsum_cons, IH. reflexivity.
Qed.

(** The dry run over candidates, and application mode over candidates
    that still have the size they were listed with. *)
Lemma dry_run_outcome item items interactive summary estimatedSummary tableTitle isApp w :
  fst (processCleanupItems range_order (item :: items) true interactive summary
         estimatedSummary tableTitle isApp w)
  = mkOutcome (Int64.wrap64 (Int64.zsum (Size <$> item :: items))) None summary
      (snd (aggregate (item :: items) estimatedSummary)).
Proof.
  pose proof (aggregate_total range_order (item :: items) estimatedSummary
                range_order_perm) as Hsum.
  unfold processCleanupItems.
  destruct (aggregate (item :: items) estimatedSummary) as [agg est].
  cbn [fst snd] in *. unfold bind.
  destruct (printTable est true "Estimated Reclaimed Summary" w) as [u w1].
  unfold ret. cbn [fst]. rewrite Hsum. reflexivity.
Qed.

Lemma application_outcome_measured item items summary estimatedSummary tableTitle w :
  Forall (fun item => Utils.GetFileSizeInBytes (fs w) (ActualPath item) = (Size item, None))
    (item :: items) ->
  fst (processCleanupItems range_order (item :: items) false false summary
         estimatedSummary tableTitle true w)
  = mkOutcome (Int64.wrap64 (Int64.zsum (Size <$> item :: items))) None
      (Reclaimer.mkTable
         (Reclaimer.Entries summary
          ++ ((fun item =>
                 Reclaimer.mkEntry (ActualPath item) (Size item) true (Category item))
                <$> item :: items)))
      (snd (aggregate (item :: items) estimatedSummary)).
Proof.
  intros Hm. unfold processCleanupItems.
  destruct (aggregate (item :: items) estimatedSummary) as [agg est].
  cbn [fst snd] in *. unfold bind at 1.
  destruct (printTable_run est true "Estimated Reclaimed Summary" w)
    as (evs & _ & Hprint).
  rewrite Hprint, removeAll_run. cbn [fst fs].
  rewrite (removedTotal_measured _ _ Hm), removedTotal_all_removed. reflexivity.
Qed.

(** X7.  When every candidate still has the size it was listed with,
    a run that removes all of them (application mode) returns what the
    dry run over the same candidates returns, the int64 sum of their
    sizes; it marks every candidate removed with its listed size, and
    leaves the estimated ledger the dry run leaves. *)
Theorem measured_candidates_reclaim_the_estimate items summary estimatedSummary
    tableTitle w :
  Forall (fun item => Utils.GetFileSizeInBytes (fs w) (ActualPath item) = (Size item, None))
    items ->
  let dry :=
    fst (processCleanupItems range_order items true false summary estimatedSummary
           tableTitle true w) in
  let real :=
    fst (processCleanupItems range_order items false false summary estimatedSummary
           tableTitle true w) in
  totalReclaimed real = totalReclaimed dry
  /\ totalReclaimed real = Int64.wrap64 (Int64.zsum (Size <$> items))
  /\ Reclaimer.Entries (Cleaner.summary real)
     = Reclaimer.Entries summary
       ++ ((fun item =>
              Reclaimer.mkEntry (ActualPath item) (Size item) true (Category item))
             <$> items)
  /\ Cleaner.estimatedSummary real = Cleaner.estimatedSummary dry.
Proof.
  intros Hm dry real. subst dry real.
  destruct items as [|item items].
  { simpl. rewrite app_nil_r. repeat split; reflexivity. }
  rewrite dry_run_outcome, (application_outcome_measured _ _ _ _ _ _ Hm).
  repeat split; reflexivity.
Qed.

End EstimateAgainstActual.

(** ** The ignore filter over lists of entries *)
Section IgnoreLists.
Import Os.

Lemma containsLoop_app env target l1 l2 :
  Utils.containsLoop env target (l1 ++ l2)
  = Utils.containsLoop env target l1 || Utils.containsLoop env target l2.
Proof.
  induction l1 as [|entry l1 IH]; [reflexivity|].
  cbn [app Utils.containsLoop].
  destruct (Filepath.Abs (Getwd env) (Utils.ExpandPath env entry)) as [a|e]; [|exact IH].
  match goal with |- context [if ?c then _ else _] => destruct c end;
    [reflexivity | exact IH].
Qed.

Lemma ContainsPath_app env targetPath l1 l2 :
  Utils.ContainsPath env targetPath (l1 ++ l2)
  = Utils.ContainsPath env targetPath l1 || Utils.ContainsPath env targetPath l2.
Proof.
  unfold Utils.ContainsPath.
  destruct (Filepath.Abs (Getwd env) targetPath) as [target|e]; [|reflexivity].
  apply containsLoop_app.
Qed.

(** X8.  The verdict of [ContainsPath] on a list of entries is the
    disjunction of its verdicts on the entries one by one: a path is
    ignored under two lists put together exactly when it is under one
    of them, so more entries never bring an ignored path back, and the
    order of the entries does not matter.  Under the empty list nothing
    is ignored. *)
Theorem ContainsPath_is_a_disjunction env targetPath :
  Utils.ContainsPath env targetPath [] = false
  /\ (forall l1 l2,
        Utils.ContainsPath env targetPath (l1 ++ l2)
        = Utils.ContainsPath env targetPath l1 || Utils.ContainsPath env targetPath l2)
  /\ (forall l,
        Utils.ContainsPath env targetPath l
        = existsb (fun entry => Utils.ContainsPath env targetPath [entry]) l)
  /\ (forall l l', l ≡ₚ l' ->
        Utils.ContainsPath env targetPath l = Utils.ContainsPath env targetPath l').
Proof.
  assert (Hnil : Utils.ContainsPath env targetPath [] = false).
  { unfold Utils.ContainsPath. destruct (Filepath.Abs _ _); reflexivity. }
  assert (Hex : forall l,
            Utils.ContainsPath env targetPath l
            = existsb (fun entry => Utils.ContainsPath env targetPath [entry]) l).
  { induction l as [|entry l IH]; [exact Hnil|].
    change (entry :: l) with ([entry] ++ l). rewrite ContainsPath_app, IH. reflexivity. }
  split; [exact Hnil|]. split; [apply ContainsPath_app|]. split; [exact Hex|].
  intros l l' Hperm. rewrite !Hex.
  induction Hperm as [|x l l' _ IH|x y l|l l' l'' _ IH1 _ IH2]; cbn [existsb].
  - reflexivity.
  - now rewrite IH.
  - rewrite !orb_assoc. f_equal. apply orb_comm.
  - now rewrite IH1.
Qed.

End IgnoreLists.

(** ** What lies below an ignored directory *)
Section IgnoredDirectories.
Import Os.

Lemma split_aux_child name : forall h cur,
  Spec.noSlash name = true ->
  Filepath.split_aux (h +:+ "/" +:+ name) cur = Filepath.split_aux h cur ++ [name].
Proof.
  intros h cur Hname. revert cur. induction h as [|a h IH]; intros cur.
  - rewrite append_nil_l, split_aux_slash. cbn [Filepath.split_aux app]. f_equal.
    rewrite <- (append_nil_r name) at 1.
    rewrite split_aux_element by exact Hname. cbn [Filepath.split_aux].
    now rewrite rev_string_twice.
  - rewrite append_cons. cbn [Filepath.split_aux].
    destruct (Ascii.eqb a "/"); [cbn [app]; f_equal|]; apply IH.
Qed.

Lemma HasPrefix_append_rooted h s :
  Strings.HasPrefix h "/" = true -> Strings.HasPrefix (h +:+ s) "/" = true.
Proof.
  destruct h as [|a h]; [discriminate|]. rewrite append_cons.
  cbn [Strings.HasPrefix].
  destruct (Ascii.eqb a "/"); [intros _; apply HasPrefix_nil | discriminate].
Qed.

(** The elements of a path one step below a rooted path. *)
Lemma components_child h name :
  Strings.HasPrefix h "/" = true -> Spec.proper name = true ->
  Filepath.components (h +:+ "/" +:+ name) = Filepath.components h ++ [name].
Proof.
  intros Hh Hname. unfold Filepath.components, Filepath.split.
  rewrite (HasPrefix_append_rooted h _ Hh), Hh.
  rewrite split_aux_child by (apply proper_noSlash, Hname).
  rewrite fold_left_app. cbn [fold_left].
  rewrite clean_step_proper by exact Hname. reflexivity.
Qed.

Lemma components_Clean path :
  Strings.HasPrefix path "/" = true ->
  Filepath.components (Filepath.Clean path) = Filepath.components path.
Proof.
  intros Hroot. rewrite (Clean_rooted path Hroot).
  apply components_rootedForm, components_proper, Hroot.
Qed.

Lemma under_child target name : forall ancestor,
  Spec.under target ancestor = true -> Spec.under (target ++ [name]) ancestor = true.
Proof.
  induction target as [|t target IH]; intros [|a ancestor]; cbn [Spec.under app];
    try reflexivity; try discriminate.
  intros H. apply andb_true_iff in H as [Ht Hu]. rewrite Ht. cbn [andb]. now apply IH.
Qed.

Lemma Join_child dir name :
  Strings.HasPrefix dir "/" = true ->
  Filepath.Join [dir; name] = Filepath.Clean (dir +:+ "/" +:+ name).
Proof.
  intros Hdir. destruct dir as [|a dir]; [discriminate|]. reflexivity.
Qed.

(** X9.  With an absolute working directory and no ignore entry that
    names the root, whatever lies directly in an ignored directory is
    ignored too: for a rooted directory that [ContainsPath] holds of,
    it holds of the path [filepath.Walk] makes for each of its
    entries.  So a walk that skips an ignored directory skips nothing
    it would have kept. *)
Theorem ContainsPath_covers_the_entries_of_a_directory env dir name ignorePaths :
  (forall wd, Getwd env = inl wd -> Strings.HasPrefix wd "/" = true) ->
  (forall entry,
     entry ∈ ignorePaths ->
     Filepath.Abs (Getwd env) (Utils.ExpandPath env entry) <> inl "/") ->
  Strings.HasPrefix dir "/" = true ->
  Spec.proper name = true ->
  Utils.ContainsPath env dir ignorePaths = true ->
  Utils.ContainsPath env (Filepath.Join [dir; name]) ignorePaths = true.
Proof.
  intros Hwd Hroot Hdir Hname.
  rewrite !(ContainsPath_below_root env _ ignorePaths Hwd Hroot).
  unfold Spec.ignored. rewrite (Join_child dir name Hdir).
  assert (Hchild : Strings.HasPrefix (dir +:+ "/" +:+ name) "/" = true)
    by apply HasPrefix_append_rooted, Hdir.
  rewrite Abs_Clean by exact Hchild.
  unfold Filepath.Abs at 1, Filepath.IsAbs. rewrite Hdir.
  rewrite !components_Clean by assumption.
  rewrite components_child by assumption.
  induction ignorePaths as [|entry rest IH]; [discriminate|].
  cbn [existsb]. intros H. apply orb_true_iff in H as [H | H].
  - destruct (Filepath.Abs (Getwd env) (Utils.ExpandPath env entry)) as [ancestor|e];
      [|discriminate].
    now rewrite under_child.
  - rewrite IH; [apply orb_true_r | | exact H].
    intros entry' Hin. apply Hroot, list_elem_of_further, Hin.
Qed.

End IgnoredDirectories.

(** ** The order of [sort.Strings] *)
Section StringOrder.

Lemma ascii_compare_N a b : Ascii.compare a b = N.compare (N_of_ascii a) (N_of_ascii b).
Proof. reflexivity. Qed.

Lemma ascii_compare_eq a b : Ascii.compare a b = Eq -> a = b.
Proof.
  rewrite ascii_compare_N. intros H. apply N.compare_eq in H.
  rewrite <- (ascii_N_embedding a), <- (ascii_N_embedding b). now rewrite H.
Qed.

Lemma string_compare_cons a s b t :
  String.compare (String a s) (String b t)
  = match Ascii.compare a b with Eq => String.compare s t | c => c end.
Proof. reflexivity. Qed.

Lemma string_compare_trans s1 : forall s2 s3,
  String.compare s1 s2 <> Gt -> String.compare s2 s3 <> Gt -> String.compare s1 s3 <> Gt.
Proof.
  induction s1 as [|a s1 IH]; intros [|b s2] [|c s3]; cbn [String.compare];
    try congruence.
  fold (String.compare s1 s2) (String.compare s2 s3) (String.compare s1 s3).
  rewrite !ascii_compare_N.
  destruct (N.compare_spec (N_of_ascii a) (N_of_ascii b)) as [Hab|Hab|Hab];
    destruct (N.compare_spec (N_of_ascii b) (N_of_ascii c)) as [Hbc|Hbc|Hbc];
    destruct (N.compare_spec (N_of_ascii a) (N_of_ascii c)) as [Hac|Hac|Hac];
    try congruence; try lia.
  apply IH.
Qed.

Lemma leb_compare s t : String.leb s t = true <-> String.compare s t <> Gt.
Proof. unfold String.leb. destruct (String.compare s t); split; congruence. Qed.

Lemma leb_trans s1 s2 s3 :
  String.leb s1 s2 = true -> String.leb s2 s3 = true -> String.leb s1 s3 = true.
Proof. rewrite !leb_compare. apply string_compare_trans. Qed.

Lemma leb_false_leb s t : String.leb s t = false -> String.leb t s = true.
Proof. destruct (String.leb_total s t) as [H|H]; congruence. Qed.

Lemma leb_ne_ltb s t : String.leb s t = true -> s <> t -> String.ltb s t = true.
Proof.
  unfold String.leb, String.ltb. destruct (String.compare s t) eqn:Hc; try congruence.
  apply String.compare_eq_iff in Hc. congruence.
Qed.

Lemma insert_sorted_elem s l x : x ∈ Reclaimer.insert_sorted s l <-> x = s \/ x ∈ l.
Proof. rewrite insert_sorted_perm. apply elem_of_cons. Qed.

Lemma insert_sorted_sorted s l :
  Notions.sorted l -> Notions.sorted (Reclaimer.insert_sorted s l).
Proof.
  unfold Notions.sorted. induction 1 as [|x l Hl IH Hx]; cbn [Reclaimer.insert_sorted].
  - repeat constructor.
  - destruct (String.leb s x) eqn:Hsx.
    + constructor; [constructor; assumption|].
      constructor; [exact Hsx|].
      eapply Forall_impl; [exact Hx|]. intros y Hy. eapply leb_trans; eassumption.
    + constructor; [exact IH|].
      apply Forall_forall. intros y Hy. apply insert_sorted_elem in Hy as [-> | Hy].
      * apply leb_false_leb, Hsx.
      * rewrite Forall_forall in Hx. apply Hx, Hy.
Qed.

(** [sort.Strings] sorts. *)
Lemma sortStrings_sorted l : Notions.sorted (Reclaimer.sortStrings l).
Proof.
  induction l as [|x l IH]; cbn; [constructor|]. apply insert_sorted_sorted, IH.
Qed.

(** Without doubles the order is strict. *)
Lemma sorted_NoDup_strict l :
  Notions.sorted l -> NoDup l -> Notions.ascending l.
Proof.
  unfold Notions.sorted, Notions.ascending.
  induction 1 as [|x l Hl IH Hx]; intros Hnd; [constructor|].
  apply NoDup_cons in Hnd as [Hnot Hnd]. constructor; [apply IH, Hnd|].
  apply Forall_forall. intros y Hy. rewrite Forall_forall in Hx.
  apply leb_ne_ltb; [apply Hx, Hy|]. intros ->. contradiction.
Qed.

End StringOrder.

(** ** The rows of the table *)
Section TableRows.

Let addEntry (m : gmap string Z) (entry : Reclaimer.ReclaimedEntry) : gmap string Z :=
  Reclaimer.addTo m (Reclaimer.Category entry) (Reclaimer.SizeReclaimed entry).

(** What the grouping loop holds for a category: the int64 sum of the
    sizes of its entries, once it has met one. *)
Lemma fold_addTo_lookup entries : forall (m : gmap string Z) category,
  fold_left addEntry entries m !! category
  = match Notions.ofCategory category entries with
    | [] => m !! category
    | _ :: _ =>
        Some (Int64.wrap64
                (default 0 (m !! category)
                 + Int64.zsum (Reclaimer.SizeReclaimed
                                 <$> Notions.ofCategory category entries)))
    end.
Proof.
  induction entries as [|entry entries IH]; intros m category; [reflexivity|].
  cbn [fold_left]. rewrite IH. unfold Notions.ofCategory. cbn [List.filter].
  fold (Notions.ofCategory category entries).
  unfold addEntry at 1 2, Reclaimer.addTo.
  destruct (String.eqb (Reclaimer.Category entry) category) eqn:Hc.
  - apply String.eqb_eq in Hc. subst category. rewrite lookup_insert_eq. cbn [default].
    destruct (Notions.ofCategory (Reclaimer.Category entry) entries) as [|e es] eqn:Hof.
    + rewrite fmap_cons, zsum_cons. cbn. rewrite Z.add_0_r. reflexivity.
    + rewrite (fmap_cons _ entry), (zsum_cons (Reclaimer.SizeReclaimed entry)).
      unfold id, Int64.add. rewrite wrap64_add_l. f_equal. f_equal. lia.
  - apply String.eqb_neq in Hc. rewrite lookup_insert_ne by exact Hc. reflexivity.
Qed.

Lemma ofCategory_nonempty category entries :
  Notions.ofCategory category entries <> []
  <-> exists entry, entry ∈ entries /\ Reclaimer.Category entry = category.
Proof.
  unfold Notions.ofCategory. split.
  - destruct (List.filter _ entries) as [|e es] eqn:Hf; [congruence|]. intros _.
    assert (Hin : In e (List.filter
                          (fun entry => String.eqb (Reclaimer.Category entry) category)
                          entries)) by (rewrite Hf; left; reflexivity).
    apply List.filter_In in Hin as [Hin Hc]. exists e.
    split; [apply list_elem_of_In, Hin | apply String.eqb_eq, Hc].
  - intros (e & Hin & Hc) Hnil.
    assert (Hf : In e (List.filter
                         (fun entry => String.eqb (Reclaimer.Category entry) category)
                         entries)).
    { apply List.filter_In. split; [apply list_elem_of_In, Hin | apply String.eqb_eq, Hc]. }
    rewrite Hnil in Hf. contradiction.
Qed.

(** X10.  The table [PrintTable] renders has one row for each category
    of the entries the flag selects (all entries in a dry run, the
    entries marked removed otherwise) and no other row; the rows stand
    in ascending byte order of their categories, none twice; and the
    amount of a row is the int64 sum of the sizes of the selected
    entries of its category. *)
Theorem PrintTable_rows_by_category st dryRun title view :
  Reclaimer.PrintTable st dryRun title = Some view ->
  let chosen := Notions.selected dryRun (Reclaimer.Entries st) in
  Reclaimer.title view = title
  /\ Notions.ascending (Reclaimer.rows view).*1
  /\ (forall category,
        category ∈ (Reclaimer.rows view).*1
        <-> exists entry, entry ∈ chosen /\ Reclaimer.Category entry = category)
  /\ (forall category amount,
        (category, amount) ∈ Reclaimer.rows view ->
        amount
        = Int64.wrap64
            (Int64.zsum (Reclaimer.SizeReclaimed <$> Notions.ofCategory category chosen))).
Proof.
  unfold Reclaimer.PrintTable.
  destruct (Reclaimer.Entries st) as [|e0 es] eqn:Hes; [discriminate|].
  intros Hview. injection Hview as <-.
  set (chosen := Notions.selected dryRun (e0 :: es)).
  cbn [Reclaimer.title Reclaimer.rows].
  set (totals := Reclaimer.groupedTotals dryRun st).
  assert (Htotals : forall category,
            totals !! category
            = match Notions.ofCategory category chosen with
              | [] => None
              | _ :: _ =>
                  Some (Int64.wrap64
                          (Int64.zsum (Reclaimer.SizeReclaimed
                                         <$> Notions.ofCategory category chosen)))
              end).
  { intros category. unfold totals. rewrite groupedTotals_flag, Hes.
    fold (Notions.selected dryRun (e0 :: es)). fold chosen.
    rewrite (fold_addTo_lookup chosen ∅ category), lookup_empty. reflexivity. }
  assert (Hkeys : ((fun category => (category, default 0 (totals !! category)))
                     <$> Reclaimer.sortStrings (map_to_list totals).*1).*1
                  = Reclaimer.sortStrings (map_to_list totals).*1).
  { rewrite <- list_fmap_compose. apply list_fmap_id. }
  split; [reflexivity|]. rewrite Hkeys. split; [|split].
  - apply sorted_NoDup_strict; [apply sortStrings_sorted|].
    rewrite sortStrings_perm. apply NoDup_fst_map_to_list.
  - intros category. rewrite sortStrings_perm, <- ofCategory_nonempty.
    rewrite list_elem_of_fmap. split.
    + intros ([k v] & -> & Hin). apply elem_of_map_to_list in Hin. cbn [fst].
      rewrite Htotals in Hin. destruct (Notions.ofCategory k chosen); congruence.
    + intros Hne. specialize (Htotals category).
      destruct (Notions.ofCategory category chosen) as [|e es'] eqn:Hof; [congruence|].
      eexists (category, _). split; [reflexivity|].
      apply elem_of_map_to_list. exact Htotals.
  - intros category amount Hin. apply list_elem_of_fmap in Hin as (k & [= -> ->] & Hk).
    rewrite sortStrings_perm in Hk. apply list_elem_of_fmap in Hk as ([k' v] & -> & Hin).
    apply elem_of_map_to_list in Hin. cbn [fst]. rewrite Hin. cbn [default].
    rewrite Htotals in Hin. unfold id.
    destruct (Notions.ofCategory k' chosen); congruence.
Qed.

End TableRows.

(** ** The scan for large files *)
Section LargeFileScan.
Import Os Cleaner.

(** A property of the state that the function keeps is kept by the
    walk. *)
Lemma walk_keeps {S : Type} (P : S -> Prop) (walkFn : Utils.WalkFunc S) :
  (forall path visit s, P s -> P (fst (walkFn path visit s))) ->
  forall t path s, P s -> P (fst (Utils.walk walkFn path t s)).
Proof.
  intros Hfn. induction t as [info | info names IH] using Tree_entries_ind; intros path s Hs.
  - cbn [Utils.walk]. destruct (negb (IsDir info)); apply Hfn, Hs.
  - cbn [Utils.walk]. destruct (negb (IsDir info)); [apply Hfn, Hs|].
    pose proof (Hfn path (Utils.Visited info) s Hs) as H1.
    destruct (walkFn path (Utils.Visited info) s) as [s1 err1]. cbn [fst] in H1.
    destruct err1; try exact H1.
    clear Hs s. revert s1 H1.
    induction names as [|[name child] names IHn]; intros s1 H1; [exact H1|].
    inversion IH as [|? ? Hchild Hrest]; subst. specialize (IHn Hrest).
    cbn [Utils.walkEntries]. destruct child as [t'|].
    + cbn [snd] in Hchild.
      pose proof (Hchild (Filepath.Join [path; name]) s1 H1) as H2.
      destruct (Utils.walk walkFn (Filepath.Join [path; name]) t' s1) as [s' err].
      cbn [fst] in H2.
      destruct err; [apply IHn, H2 | | exact H2].
      destruct (IsDir (info_of t')); [apply IHn, H2 | exact H2].
    + pose proof (Hfn (Filepath.Join [path; name]) (Utils.Failed None Utils.lstat_error)
                    s1 H1) as H2.
      destruct (walkFn (Filepath.Join [path; name]) (Utils.Failed None Utils.lstat_error) s1)
        as [s' err].
      cbn [fst] in H2. destruct err; [apply IHn, H2 | apply IHn, H2 | exact H2].
Qed.

Lemma Walk_keeps {S : Type} (P : S -> Prop) (walkFn : Utils.WalkFunc S) (fs : FS) :
  (forall path visit s, P s -> P (fst (walkFn path visit s))) ->
  forall root s, P s -> P (fst (Utils.Walk fs root walkFn s)).
Proof.
  intros Hfn root s Hs. unfold Utils.Walk. destruct (fs root) as [e|t].
  - pose proof (Hfn root (Utils.Failed None e) s Hs) as H.
    destruct (walkFn root (Utils.Failed None e) s) as [s' err]. destruct err; exact H.
  - pose proof (walk_keeps P walkFn Hfn t root s Hs) as H.
    destruct (Utils.walk walkFn root t s) as [s' err]. destruct err; exact H.
Qed.

(** X11.  Every candidate the scan for large files lists occupies at
    least 100 MiB on disk, is listed under its own path with the
    category the classifier gives that path, and is not ignored by the
    ignore list of the scan, whatever the file system holds. *)
Theorem scan_lists_large_files_not_ignored env (fs : FS) cleaned dirs item :
  item ∈ LargeFiles.scan env fs cleaned dirs ->
  104857600 <= Size item
  /\ Path item = ActualPath item
  /\ Category item = categorizeLargeFilePath env (ActualPath item)
  /\ Utils.IsPathIgnored env (ActualPath item) cleaned = false.
Proof.
  set (good := fun item =>
         104857600 <= Size item
         /\ Path item = ActualPath item
         /\ Category item = categorizeLargeFilePath env (ActualPath item)
         /\ Utils.IsPathIgnored env (ActualPath item) cleaned = false).
  assert (Hfn : forall path visit s,
            Forall good s -> Forall good (fst (LargeFiles.scanFn env cleaned path visit s))).
  { intros path visit s Hs. unfold LargeFiles.scanFn. destruct visit as [info|info e];
      [|exact Hs].
    destruct (Utils.IsPathIgnored env path cleaned) eqn:Hig.
    { destruct (IsDir info); exact Hs. }
    destruct (IsDir info).
    { destruct (LargeFiles.systemDir path); exact Hs. }
    match goal with |- context [LargeFiles.largeFileThreshold <=? ?z] =>
      destruct (Z.leb_spec LargeFiles.largeFileThreshold z) as [Hle|Hlt] end;
      [|exact Hs].
    cbn [fst]. apply Forall_app. split; [exact Hs|]. constructor; [|constructor].
    unfold good. cbn [Size Path ActualPath Category]. repeat split; try reflexivity.
    - exact Hle.
    - exact Hig. }
  assert (Hall : Forall good (LargeFiles.scan env fs cleaned dirs)).
  { unfold LargeFiles.scan. generalize (@nil cleanupItem) (@List.Forall_nil _ good).
    induction dirs as [|dir dirs IH]; intros s Hs; [exact Hs|].
    cbn [fold_left]. apply IH. apply Walk_keeps; assumption. }
  intros Hin. rewrite Forall_forall in Hall. apply Hall, Hin.
Qed.

End LargeFileScan.

(** ** The scan, root by root *)
Section ScanRoots.
Import Os Cleaner.

Context {A : Type}.

(** A function that only appends to the list it is given, and appends
    the same whatever the list holds. *)
Let appends (walkFn : Utils.WalkFunc (list A)) : Prop :=
  forall path visit s,
    walkFn path visit s
    = (s ++ fst (walkFn path visit []), snd (walkFn path visit [])).

Lemma walk_appends (walkFn : Utils.WalkFunc (list A)) :
  appends walkFn ->
  forall t path s,
    Utils.walk walkFn path t s
    = (s ++ fst (Utils.walk walkFn path t []), snd (Utils.walk walkFn path t [])).
Proof.
  intros Hfn. induction t as [info | info names IH] using Tree_entries_ind; intros path s.
  - cbn [Utils.walk]. destruct (negb (IsDir info)); apply Hfn.
  - cbn [Utils.walk]. destruct (negb (IsDir info)); [apply Hfn|].
    rewrite (Hfn path (Utils.Visited info) s).
    destruct (walkFn path (Utils.Visited info) []) as [s1 err1]. cbn [fst snd].
    destruct err1; try reflexivity.
    assert (Hloop : forall s0,
              Utils.walkEntries walkFn (Utils.walk walkFn) path names s0
              = (s0 ++ fst (Utils.walkEntries walkFn (Utils.walk walkFn) path names []),
                 snd (Utils.walkEntries walkFn (Utils.walk walkFn) path names []))).
    { clear s s1. induction names as [|[name child] names IHn]; intros s0.
      - cbn. now rewrite app_nil_r.
      - inversion IH as [|? ? Hchild Hrest]; subst. specialize (IHn Hrest).
        cbn [Utils.walkEntries]. destruct child as [t'|].
        + cbn [snd] in Hchild. rewrite (Hchild (Filepath.Join [path; name]) s0).
          destruct (Utils.walk walkFn (Filepath.Join [path; name]) t' []) as [s' err].
          cbn [fst snd app].
          assert (Hgo : Utils.walkEntries walkFn (Utils.walk walkFn) path names (s0 ++ s')
                        = (s0 ++ fst (Utils.walkEntries walkFn (Utils.walk walkFn) path
                                        names s'),
                           snd (Utils.walkEntries walkFn (Utils.walk walkFn) path names s'))).
          { rewrite (IHn (s0 ++ s')), (IHn s'). cbn [fst snd].
            now rewrite app_assoc. }
          destruct err; [exact Hgo | | reflexivity].
          destruct (IsDir (info_of t')); [exact Hgo | reflexivity].
        + rewrite (Hfn (Filepath.Join [path; name]) (Utils.Failed None Utils.lstat_error) s0).
          destruct (walkFn (Filepath.Join [path; name])
                      (Utils.Failed None Utils.lstat_error) []) as [s' err].
          cbn [fst snd app].
          assert (Hgo : Utils.walkEntries walkFn (Utils.walk walkFn) path names (s0 ++ s')
                        = (s0 ++ fst (Utils.walkEntries walkFn (Utils.walk walkFn) path
                                        names s'),
                           snd (Utils.walkEntries walkFn (Utils.walk walkFn) path names s'))).
          { rewrite (IHn (s0 ++ s')), (IHn s'). cbn [fst snd].
            now rewrite app_assoc. }
          destruct err; [exact Hgo | exact Hgo | reflexivity]. }
    rewrite (Hloop (s ++ s1)), (Hloop s1). cbn [fst snd]. now rewrite app_assoc.
Qed.

Lemma Walk_appends (walkFn : Utils.WalkFunc (list A)) (fs : FS) root s :
  appends walkFn ->
  fst (Utils.Walk fs root walkFn s) = s ++ fst (Utils.Walk fs root walkFn []).
Proof.
  intros Hfn. unfold Utils.Walk. destruct (fs root) as [e|t].
  - rewrite (Hfn root (Utils.Failed None e) s).
    destruct (walkFn root (Utils.Failed None e) []) as [s' err]. cbn [fst snd].
    destruct err; reflexivity.
  - rewrite (walk_appends walkFn Hfn t root s).
    destruct (Utils.walk walkFn root t []) as [s' err]. cbn [fst snd].
    destruct err; reflexivity.
Qed.

End ScanRoots.

Section ScanRootByRoot.
Import Os Cleaner.

Lemma scanFn_appends env cleaned path visit s :
  LargeFiles.scanFn env cleaned path visit s
  = (s ++ fst (LargeFiles.scanFn env cleaned path visit []),
     snd (LargeFiles.scanFn env cleaned path visit [])).
Proof.
  unfold LargeFiles.scanFn. destruct visit as [info|info e]; [|now rewrite app_nil_r].
  repeat match goal with
         | |- context [if ?c then _ else _] => destruct c
         end; cbn [fst snd app]; rewrite ?app_nil_r; reflexivity.
Qed.

Lemma scan_from env (fs : FS) cleaned dirs : forall s,
  fold_left
    (fun itemsToProcess dir =>
       fst (Utils.Walk fs dir (LargeFiles.scanFn env cleaned) itemsToProcess))
    dirs s
  = s ++ LargeFiles.scan env fs cleaned dirs.
Proof.
  unfold LargeFiles.scan. induction dirs as [|dir dirs IH]; intros s.
  - cbn. now rewrite app_nil_r.
  - cbn [fold_left]. rewrite IH, (IH (fst (Utils.Walk fs dir _ []))).
    rewrite (Walk_appends _ fs dir s) by (intros p v s0; apply scanFn_appends).
    cbn [app]. now rewrite app_assoc.
Qed.

(** X12.  The scan goes through its roots one after another and keeps
    all it has listed: the candidates of two lists of roots put together
    are those of the first list followed by those of the second, and
    nothing is dropped for being listed before.  So a file that the
    scan reaches from two of its roots is listed twice. *)
Theorem scan_lists_root_by_root env (fs : FS) cleaned :
  (forall dirs1 dirs2,
     LargeFiles.scan env fs cleaned (dirs1 ++ dirs2)
     = LargeFiles.scan env fs cleaned dirs1 ++ LargeFiles.scan env fs cleaned dirs2)
  /\ (forall dir,
        LargeFiles.scan env fs cleaned [dir]
        = fst (Utils.Walk fs dir (LargeFiles.scanFn env cleaned) []))
  /\ (forall item before dir1 between dir2 after,
        item ∈ LargeFiles.scan env fs cleaned [dir1] ->
        item ∈ LargeFiles.scan env fs cleaned [dir2] ->
        ~ NoDup (LargeFiles.scan env fs cleaned
                   (before ++ dir1 :: between ++ dir2 :: after))).
Proof.
  assert (Happ : forall dirs1 dirs2,
            LargeFiles.scan env fs cleaned (dirs1 ++ dirs2)
            = LargeFiles.scan env fs cleaned dirs1 ++ LargeFiles.scan env fs cleaned dirs2).
  { intros dirs1 dirs2. unfold LargeFiles.scan at 1. rewrite fold_left_app.
    fold (LargeFiles.scan env fs cleaned dirs1). apply scan_from. }
  split; [exact Happ|]. split; [reflexivity|].
  intros item before dir1 between dir2 after H1 H2 Hnd.
  change (dir1 :: between ++ dir2 :: after) with ([dir1] ++ between ++ [dir2] ++ after)
    in Hnd.
  rewrite !Happ in Hnd.
  apply NoDup_app in Hnd as (_ & _ & Hnd).
  apply NoDup_app in Hnd as (_ & Hdisj & _).
  apply (Hdisj item H1). apply elem_of_app. right. apply elem_of_app. left. exact H2.
Qed.

End ScanRootByRoot.

(** ** The strategies and the command *)
Section Program.
Import Os Cleaner Cmd.

Variable range_order : gmap string Z -> list (string * Z).

Lemma processCleanupItems_no_error items dryRun interactive summary estimatedSummary
    tableTitle isApp w :
  err (fst (processCleanupItems range_order items dryRun interactive summary
              estimatedSummary tableTitle isApp w)) = None.
Proof.
  destruct items as [|item items]; [reflexivity|].
  destruct dryRun.
  - unfold processCleanupItems.
    destruct (aggregate (item :: items) estimatedSummary) as [agg est]. unfold bind.
    destruct (printTable est true "Estimated Reclaimed Summary" w) as [u w1]. reflexivity.
  - destruct (processCleanupItems range_order (item :: items) false interactive summary
                estimatedSummary tableTitle isApp w) as [out w'] eqn:Hrun.
    apply nondry_run in Hrun. apply Hrun.
Qed.

Lemma CleanLargeFiles_no_error env dryRun ignorePaths summary estimatedSummary interactive w :
  snd (fst (fst (fst (LargeFiles.CleanLargeFiles range_order env dryRun ignorePaths summary
                        estimatedSummary interactive w)))) = None.
Proof.
  unfold LargeFiles.CleanLargeFiles.
  match goal with |- context [processCleanupItems ?r ?i ?d ?n ?s ?e ?t ?a ?w] =>
    pose proof (processCleanupItems_no_error i d n s e t a w) as Herr;
    destruct (processCleanupItems r i d n s e t a w) as [out w'] end.
  cbn [fst] in Herr. rewrite Herr. reflexivity.
Qed.

Lemma CleanSystem_no_error env host dryRun ignorePaths summary estimatedSummary w :
  snd (fst (fst (fst (System.CleanSystem range_order env host dryRun ignorePaths summary
                        estimatedSummary w)))) = None.
Proof.
  unfold System.CleanSystem.
  match goal with |- context [processCleanupItems ?r ?i ?d ?n ?s ?e ?t ?a ?w] =>
    pose proof (processCleanupItems_no_error i d n s e t a w) as Herr;
    destruct (processCleanupItems r i d n s e t a w) as [out w'] end.
  cbn [fst] in Herr. rewrite Herr. reflexivity.
Qed.

Lemma UninstallApplication_no_error env host toLower appName dryRun ignorePaths summary
    estimatedSummary w :
  snd (fst (fst (fst (App.UninstallApplication range_order env host toLower appName dryRun
                        ignorePaths summary estimatedSummary w)))) = None.
Proof.
  unfold App.UninstallApplication.
  destruct (App.uninstallItems env host toLower (fs w) ignorePaths appName) as [|item items];
    [reflexivity|].
  match goal with |- context [processCleanupItems ?r ?i ?d ?n ?s ?e ?t ?a ?w] =>
    pose proof (processCleanupItems_no_error i d n s e t a w) as Herr;
    destruct (processCleanupItems r i d n s e t a w) as [out w'] end.
  cbn [fst snd] in *. exact Herr.
Qed.

(** X13.  The exit status of [wiper wipe], for every file system, host
    and input: it fails with the validation error when the large-files
    flag comes with an application name, and with the abort error when
    the operator declines an uninstallation; in every other case it
    returns no error, whatever could not be read, listed or measured on
    the way. *)
Theorem wipe_exit_status env host toLower flags args w :
  fst (Root.wipe range_order env host toLower flags args w)
  = if largeFilesFlag flags then
      if (0 <? length args)%nat then Some conflictError else None
    else
      match args with
      | [appName] =>
          if fst (fst (confirmLoop (stdin w))) then None
          else Some (ErrorString ("aborting uninstallation of " +:+ appName))
      | _ => None
      end.
Proof.
  unfold Root.wipe, RunE. destruct (largeFilesFlag flags).
  - destruct (0 <? length args)%nat; [reflexivity|]. unfold bind.
    pose proof (CleanLargeFiles_no_error env (dryRunFlag flags) (IgnorePaths flags)
                  Reclaimer.NewSummaryTable Reclaimer.NewSummaryTable
                  (interactiveFlag flags) w) as Herr.
    destruct (LargeFiles.CleanLargeFiles _ _ _ _ _ _ _ w) as [[[r s] e] w1].
    cbn [fst snd] in Herr. rewrite Herr. apply finish_no_error.
  - assert (Hsys : fst (bind
                     (System.CleanSystem range_order env host (dryRunFlag flags)
                        (IgnorePaths flags) Reclaimer.NewSummaryTable
                        Reclaimer.NewSummaryTable)
                     (fun '(r, summary, estimatedSummary) =>
                        match snd r with
                        | Some err => ret (Some (Wrapped "failed to clean system" err))
                        | None => finish summary
                        end) w) = None).
    { unfold bind.
      pose proof (CleanSystem_no_error env host (dryRunFlag flags) (IgnorePaths flags)
                    Reclaimer.NewSummaryTable Reclaimer.NewSummaryTable w) as Herr.
      destruct (System.CleanSystem _ _ _ _ _ _ _ w) as [[[r s] e] w1].
      cbn [fst snd] in Herr. rewrite Herr. apply finish_no_error. }
    destruct args as [|appName [|arg args]]; try exact Hsys.
    unfold bind at 1. rewrite ConfirmAction_run.
    destruct (fst (fst (confirmLoop (stdin w)))); [|reflexivity].
    unfold bind.
    match goal with |- context [App.UninstallApplication ?r ?e ?h ?l ?a ?d ?i ?s ?t ?w] =>
      pose proof (UninstallApplication_no_error e h l a d i s t w) as Herr;
      destruct (App.UninstallApplication r e h l a d i s t w) as [[[r0 s0] e0] w1] end.
    cbn [fst snd] in Herr. rewrite Herr. apply finish_no_error.
Qed.

End Program.

(** ** Dry runs of the command *)
Section ProgramDryRun.
Import Os Cleaner Cmd.

Variable range_order : gmap string Z -> list (string * Z).

(** The world after a dry run of the execution policy, and the actual
    ledger. *)
Lemma dry_run_world items interactive summary estimatedSummary tableTitle isApp w :
  let run := processCleanupItems range_order items true interactive summary
               estimatedSummary tableTitle isApp w in
  Cleaner.summary (fst run) = summary
  /\ exists evs,
       snd run = mkWorld (fs w) (stdin w) (events w ++ evs)
       /\ forallb Notions.previewEvent evs = true.
Proof.
  destruct items as [|item items].
  { cbn. split; [reflexivity|]. exists []. rewrite app_nil_r. destruct w. now split. }
  cbv zeta. unfold processCleanupItems.
  destruct (aggregate (item :: items) estimatedSummary) as [agg est]. unfold bind.
  rewrite printTable_events. cbn [fst snd Cleaner.summary]. split; [reflexivity|].
  eexists. split; [reflexivity|].
  unfold Notions.tableEvents, Reclaimer.PrintTable.
  destruct (Reclaimer.Entries est); reflexivity.
Qed.

Lemma previewEvent_prompts n appName :
  forallb Notions.previewEvent (replicate n (EvPrompt (UninstallPrompt appName))) = true.
Proof. induction n as [|n IH]; [reflexivity | exact IH]. Qed.

Lemma finish_empty w : finish Reclaimer.NewSummaryTable w = (None, w).
Proof. reflexivity. Qed.

(** X14.  With the dry-run flag, [wiper wipe] calls the deletion
    primitive for nothing, whatever the other flags, the arguments and
    the input are: all it adds to what the terminal shows is the
    question of an uninstallation and the table of the estimates.  The
    actual ledger stays empty, so the table of reclaimed space is not
    printed, and the file system is as it was. *)
Theorem wipe_dry_run_only_previews env host toLower largeFiles interactive ignorePaths args w :
  let run := Root.wipe range_order env host toLower
               (mkFlags true largeFiles interactive ignorePaths) args w in
  fs (snd run) = fs w
  /\ exists evs,
       events (snd run) = events w ++ evs
       /\ forallb Notions.previewEvent evs = true
       /\ Spec.removeCalls (events (snd run)) = Spec.removeCalls (events w).
Proof.
  assert (Hcalls : forall evs, forallb Notions.previewEvent evs = true ->
                     Spec.removeCalls evs = []).
  { induction evs as [|ev evs IH]; [reflexivity|]. cbn [forallb].
    intros H. apply andb_true_iff in H as [Hev Hevs].
    unfold Spec.removeCalls. cbn [List.filter].
    destruct ev as [p d|p|v]; [discriminate| |]; apply IH, Hevs. }
  assert (Hgoal : forall w' : World,
            (exists evs lines, w' = mkWorld (fs w) lines (events w ++ evs)
                               /\ forallb Notions.previewEvent evs = true) ->
            fs w' = fs w
            /\ exists evs,
                 events w' = events w ++ evs
                 /\ forallb Notions.previewEvent evs = true
                 /\ Spec.removeCalls (events w') = Spec.removeCalls (events w)).
  { intros w' (evs & lines & -> & Hevs). cbn [fs events]. split; [reflexivity|].
    exists evs. split; [reflexivity|]. split; [exact Hevs|].
    rewrite removeCalls_app, (Hcalls evs Hevs). apply app_nil_r. }
  cbv zeta. apply Hgoal.
  unfold Root.wipe, RunE. cbn [largeFilesFlag dryRunFlag interactiveFlag IgnorePaths].
  assert (Hlarge : exists evs,
            snd (bind
                   (LargeFiles.CleanLargeFiles range_order env true ignorePaths
                      Reclaimer.NewSummaryTable Reclaimer.NewSummaryTable interactive)
                   (fun '(r, summary, estimatedSummary) =>
                      match snd r with
                      | Some err => ret (Some (Wrapped "failed to clean large files" err))
                      | None => finish summary
                      end) w)
            = mkWorld (fs w) (stdin w) (events w ++ evs)
              /\ forallb Notions.previewEvent evs = true).
  { unfold bind, LargeFiles.CleanLargeFiles.
    match goal with |- context [processCleanupItems ?r ?i true ?n ?s ?e ?t ?a ?w] =>
      pose proof (dry_run_world i n s e t a w) as Hdry;
      pose proof (processCleanupItems_no_error r i true n s e t a w) as Herr;
      destruct (processCleanupItems r i true n s e t a w) as [out w'] end.
    cbv zeta in Hdry. cbn [fst snd] in Hdry, Herr.
    destruct Hdry as (Hs & evs & -> & Hevs). rewrite Herr. cbn [snd]. rewrite Hs.
    rewrite finish_empty. exists evs. split; [reflexivity | exact Hevs]. }
  assert (Hsys : exists evs,
            snd (bind
                   (System.CleanSystem range_order env host true ignorePaths
                      Reclaimer.NewSummaryTable Reclaimer.NewSummaryTable)
                   (fun '(r, summary, estimatedSummary) =>
                      match snd r with
                      | Some err => ret (Some (Wrapped "failed to clean system" err))
                      | None => finish summary
                      end) w)
            = mkWorld (fs w) (stdin w) (events w ++ evs)
              /\ forallb Notions.previewEvent evs = true).
  { unfold bind, System.CleanSystem.
    match goal with |- context [processCleanupItems ?r ?i true ?n ?s ?e ?t ?a ?w] =>
      pose proof (dry_run_world i n s e t a w) as Hdry;
      pose proof (processCleanupItems_no_error r i true n s e t a w) as Herr;
      destruct (processCleanupItems r i true n s e t a w) as [out w'] end.
    cbv zeta in Hdry. cbn [fst snd] in Hdry, Herr.
    destruct Hdry as (Hs & evs & -> & Hevs). rewrite Herr. cbn [snd]. rewrite Hs.
    rewrite finish_empty. exists evs. split; [reflexivity | exact Hevs]. }
  assert (Hwrap : forall (m : M (option error)),
            (exists evs, snd (m w) = mkWorld (fs w) (stdin w) (events w ++ evs)
                         /\ forallb Notions.previewEvent evs = true) ->
            exists evs lines, snd (m w) = mkWorld (fs w) lines (events w ++ evs)
                              /\ forallb Notions.previewEvent evs = true).
  { intros m (evs & Hm & Hevs). exists evs, (stdin w). now split. }
  destruct largeFiles.
  - destruct (0 <? length args)%nat.
    + exists [], (stdin w). cbn. rewrite app_nil_r. destruct w. now split.
    + apply Hwrap, Hlarge.
  - destruct args as [|appName [|arg args]]; try apply Hwrap, Hsys.
    unfold bind at 1. rewrite ConfirmAction_run.
    destruct (fst (fst (confirmLoop (stdin w)))).
    2:{ cbn [snd ret]. eexists. eexists. split; [reflexivity|].
        apply previewEvent_prompts. }
    unfold bind, App.UninstallApplication. cbn [fs].
    destruct (App.uninstallItems env host toLower (fs w) ignorePaths appName) as [|item items].
    { rewrite finish_empty. cbn [snd]. eexists. eexists. split; [reflexivity|].
      apply previewEvent_prompts. }
    match goal with |- context [processCleanupItems ?r ?i true ?n ?s ?e ?t ?a ?w] =>
      pose proof (dry_run_world i n s e t a w) as Hdry;
      pose proof (processCleanupItems_no_error r i true n s e t a w) as Herr;
      destruct (processCleanupItems r i true n s e t a w) as [out w'] end.
    cbv zeta in Hdry. cbn [fst snd fs stdin events] in Hdry, Herr.
    destruct Hdry as (Hs & evs & -> & Hevs). cbn [snd]. rewrite Herr, Hs.
    rewrite finish_empty. cbn [snd].
    eexists. eexists. split; [rewrite <- app_assoc; reflexivity|].
    rewrite forallb_app, previewEvent_prompts. exact Hevs.
Qed.

End ProgramDryRun.

(** ** The questions of an uninstallation *)
Section UninstallQuestions.
Import Os Cleaner Cmd.

Variable range_order : gmap string Z -> list (string * Z).








End UninstallQuestions.

(** ** The name of the application bundle *)
Section BundleName.
Import Os Cleaner.

Lemma length_append s t :
  String.length (s +:+ t) = (String.length s + String.length t)%nat.
Proof. induction s as [|a s IH]; [reflexivity|]. rewrite append_cons. cbn. now rewrite IH. Qed.

Lemma drop_append s t : Strings.drop (String.length s) (s +:+ t) = t.
Proof. induction s as [|a s IH]; [destruct t; reflexivity|]. exact IH. Qed.

Lemma substring_append s t : String.substring 0 (String.length s) (s +:+ t) = s.
Proof.
  induction s as [|a s IH]; [destruct t; reflexivity|].
  rewrite append_cons. cbn. now rewrite IH.
Qed.

Lemma HasSuffix_append s suffix : StringsMore.HasSuffix (s +:+ suffix) suffix = true.
Proof.
  unfold StringsMore.HasSuffix. rewrite length_append.
  replace (String.length s + String.length suffix - String.length suffix)%nat
    with (String.length s) by lia.
  rewrite drop_append, String.eqb_refl, andb_true_r. apply Nat.leb_le. lia.
Qed.

(** Taking off a suffix that was put on gives the string back. *)
Lemma TrimSuffix_append s suffix : StringsMore.TrimSuffix (s +:+ suffix) suffix = s.
Proof.
  unfold StringsMore.TrimSuffix. rewrite HasSuffix_append, length_append.
  replace (String.length s + String.length suffix - String.length suffix)%nat
    with (String.length s) by lia.
  apply substring_append.
Qed.

Lemma bundleName_idem appName : App.bundleName (App.bundleName appName) = App.bundleName appName.
Proof.
  assert (Hfix : forall name, StringsMore.HasSuffix name ".app" = true ->
                   App.bundleName name = name).
  { intros name Hs. unfold App.bundleName. now rewrite Hs. }
  apply Hfix. unfold App.bundleName.
  destruct (StringsMore.HasSuffix appName ".app") eqn:Hs; cbn [negb];
    [exact Hs | apply HasSuffix_append].
Qed.

(** X16.  The [.app] suffix of the application name is optional: an
    uninstallation by the name with the suffix put on does what the
    uninstallation by the bare name does, and the name the leftover
    patterns are made from is the bare name either way. *)
Theorem UninstallApplication_suffix_is_optional
    (range_order : gmap string Z -> list (string * Z)) env host toLower appName :
  App.UninstallApplication range_order env host toLower (App.bundleName appName)
  = App.UninstallApplication range_order env host toLower appName
  /\ (StringsMore.HasSuffix appName ".app" = false ->
      App.bundleName appName = appName +:+ ".app"
      /\ StringsMore.TrimSuffix (App.bundleName appName) ".app" = appName)
  /\ (StringsMore.HasSuffix appName ".app" = true -> App.bundleName appName = appName).
Proof.
  split; [|split].
  - unfold App.UninstallApplication, App.uninstallItems. now rewrite bundleName_idem.
  - intros Hs. unfold App.bundleName. rewrite Hs. cbn [negb].
    split; [reflexivity | apply TrimSuffix_append].
  - intros Hs. unfold App.bundleName. now rewrite Hs.
Qed.

End BundleName.

(** ** The search for application paths *)
Section ApplicationPaths.
Import Os Host.

Lemma unique_from (foundPaths : list string) : forall (uniquePaths : gset string) result,
  NoDup result -> (forall p, p ∈ uniquePaths <-> p ∈ result) ->
  let out :=
    snd (fold_left
           (fun '(uniquePaths, result) p =>
              if decide (p ∈ (uniquePaths : gset string)) then (uniquePaths, result)
              else ({[ p ]} ∪ uniquePaths, result ++ [p]))
           foundPaths (uniquePaths, result)) in
  NoDup out /\ (forall p, p ∈ out <-> p ∈ result \/ p ∈ foundPaths).
Proof.
  induction foundPaths as [|x foundPaths IH]; intros uniquePaths result Hnd Hset.
  - cbn. split; [exact Hnd|]. intros p. rewrite elem_of_nil. tauto.
  - cbn [fold_left]. destruct (decide (x ∈ uniquePaths)) as [Hin|Hnot].
    + destruct (IH uniquePaths result Hnd Hset) as (Hnd' & Hmem).
      split; [exact Hnd'|]. intros p. rewrite Hmem, elem_of_cons.
      split; [tauto|]. intros [H | [-> | H]]; [tauto | left; now apply Hset | tauto].
    + destruct (IH ({[ x ]} ∪ uniquePaths) (result ++ [x])) as (Hnd' & Hmem).
      * apply NoDup_app. split; [exact Hnd|]. split; [|apply NoDup_singleton].
        intros p Hp Hx. apply list_elem_of_singleton in Hx. subst p.
        apply Hnot, Hset, Hp.
      * intros p. rewrite elem_of_union, elem_of_singleton, elem_of_app,
          list_elem_of_singleton, Hset. tauto.
      * split; [exact Hnd'|]. intros p.
        rewrite Hmem, elem_of_app, list_elem_of_singleton, elem_of_cons. tauto.
Qed.

(** The loop that drops doubles keeps one of each path. *)
Lemma unique_spec foundPaths :
  NoDup (Paths.unique foundPaths) /\ forall p, p ∈ Paths.unique foundPaths <-> p ∈ foundPaths.
Proof.
  destruct (unique_from foundPaths ∅ []) as (Hnd & Hmem).
  - constructor.
  - intros p. rewrite elem_of_empty, elem_of_nil. tauto.
  - split; [exact Hnd|]. intros p. rewrite (Hmem p), elem_of_nil. tauto.
Qed.

Lemma bundleMatches_from host name basePaths : forall foundPaths p,
  p ∈ fold_left
        (fun foundPaths basePath =>
           match Glob host (Filepath.Join [basePath; name]) with
           | inr _ => foundPaths
           | inl matches => foundPaths ++ matches
           end)
        basePaths foundPaths
  <-> p ∈ foundPaths
      \/ exists basePath matches,
           basePath ∈ basePaths
           /\ Glob host (Filepath.Join [basePath; name]) = inl matches
           /\ p ∈ matches.
Proof.
  induction basePaths as [|basePath basePaths IH]; intros foundPaths p.
  - cbn. split; [tauto|]. intros [H | (b & m & Hb & _)]; [exact H|].
    apply elem_of_nil in Hb. contradiction.
  - cbn [fold_left]. rewrite IH. split.
    + intros [H | (b & m & Hb & Hg & Hp)].
      * destruct (Glob host (Filepath.Join [basePath; name])) as [matches|e] eqn:Hg;
          [|tauto].
        apply elem_of_app in H as [H | H]; [tauto|].
        right. exists basePath, matches. split; [apply list_elem_of_here | tauto].
      * right. exists b, m. split; [apply list_elem_of_further, Hb | tauto].
    + intros [H | (b & m & Hb & Hg & Hp)].
      * left. destruct (Glob host (Filepath.Join [basePath; name])); [|exact H].
        apply elem_of_app. tauto.
      * apply elem_of_cons in Hb as [-> | Hb].
        -- left. rewrite Hg. apply elem_of_app. tauto.
        -- right. exists b, m. tauto.
Qed.

Lemma dataMatches_spec host patterns : forall foundPaths p,
  p ∈ Paths.dataMatches host patterns foundPaths
  <-> p ∈ foundPaths
      \/ exists pattern matches,
           pattern ∈ patterns /\ Glob host pattern = inl matches
           /\ p ∈ matches /\ statOk host p = true.
Proof.
  unfold Paths.dataMatches.
  induction patterns as [|pattern patterns IH]; intros foundPaths p.
  - cbn. split; [tauto|]. intros [H | (b & m & Hb & _)]; [exact H|].
    apply elem_of_nil in Hb. contradiction.
  - cbn [fold_left]. rewrite IH. split.
    + intros [H | (b & m & Hb & Hg & Hp)].
      * destruct (Glob host pattern) as [matches|e] eqn:Hg; [|tauto].
        apply elem_of_app in H as [H | H]; [tauto|].
        apply list_elem_of_In, List.filter_In in H as [Hin Hstat].
        right. exists pattern, matches.
        split; [apply list_elem_of_here|]. rewrite <- list_elem_of_In in Hin. tauto.
      * right. exists b, m. split; [apply list_elem_of_further, Hb | tauto].
    + intros [H | (b & m & Hb & Hg & Hp & Hstat)].
      * left. destruct (Glob host pattern); [|exact H]. apply elem_of_app. tauto.
      * apply elem_of_cons in Hb as [-> | Hb].
        -- left. rewrite Hg. apply elem_of_app. right.
           apply list_elem_of_In, List.filter_In. rewrite <- list_elem_of_In. tauto.
        -- right. exists b, m. tauto.
Qed.

(** What [FindPaths] finds. *)
Lemma FindPaths_elem env host toLower basePaths name p :
  p ∈ Paths.FindPaths env host toLower basePaths name
  <-> (exists basePath matches,
         basePath ∈ basePaths
         /\ Glob host (Filepath.Join [basePath; name]) = inl matches
         /\ p ∈ matches)
      \/ (StringsMore.HasSuffix name ".app" = true
          /\ exists homeDir pattern matches,
               UserHomeDir env = inl homeDir
               /\ pattern ∈ Paths.appDataPaths toLower homeDir
                              (StringsMore.TrimSuffix name ".app")
               /\ Glob host pattern = inl matches
               /\ p ∈ matches /\ statOk host p = true).
Proof.
  unfold Paths.FindPaths.
  match goal with |- context [Reclaimer.sortStrings (Paths.unique ?l)] =>
    set (foundPaths := l) end.
  destruct (unique_spec foundPaths) as (Hnd & Hmem).
  rewrite sortStrings_perm, Hmem. unfold foundPaths, Paths.bundleMatches.
  destruct (StringsMore.HasSuffix name ".app").
  - destruct (UserHomeDir env) as [homeDir|e].
    + rewrite dataMatches_spec, bundleMatches_from, elem_of_nil. split.
      * intros [[[] | H] | (pattern & matches & Hp & Hg & Hin & Hstat)]; [tauto|].
        right. split; [reflexivity|]. exists homeDir, pattern, matches. tauto.
      * intros [H | (_ & h & pattern & matches & [= <-] & H)]; [tauto|].
        right. exists pattern, matches. exact H.
    + rewrite bundleMatches_from, elem_of_nil. split; [tauto|].
      intros [H | (_ & h & pattern & matches & Hh & _)]; [tauto | discriminate].
  - rewrite bundleMatches_from, elem_of_nil. split; [tauto|].
    intros [H | (Hf & _)]; [tauto | discriminate].
Qed.

Lemma FindPaths_NoDup env host toLower basePaths name :
  NoDup (Paths.FindPaths env host toLower basePaths name).
Proof.
  unfold Paths.FindPaths. rewrite sortStrings_perm. apply unique_spec.
Qed.

(** X17.  [FindPaths] returns its paths in ascending byte order, each
    once.  They are the matches of the name under the base paths and,
    for a name that ends in [.app] when the home directory is known,
    the matches of the nine application data patterns that [os.Stat]
    finds; a pattern that [filepath.Glob] rejects adds nothing. *)
Theorem FindPaths_sorted_unique_matches env host toLower basePaths name :
  Notions.ascending (Paths.FindPaths env host toLower basePaths name)
  /\ forall p,
       p ∈ Paths.FindPaths env host toLower basePaths name
       <-> (exists basePath matches,
              basePath ∈ basePaths
              /\ Glob host (Filepath.Join [basePath; name]) = inl matches
              /\ p ∈ matches)
           \/ (StringsMore.HasSuffix name ".app" = true
               /\ exists homeDir pattern matches,
                    UserHomeDir env = inl homeDir
                    /\ pattern ∈ Paths.appDataPaths toLower homeDir
                                   (StringsMore.TrimSuffix name ".app")
                    /\ Glob host pattern = inl matches
                    /\ p ∈ matches /\ statOk host p = true).
Proof.
  split; [|intros p; apply FindPaths_elem].
  apply sorted_NoDup_strict; [|apply FindPaths_NoDup].
  unfold Paths.FindPaths. apply sortStrings_sorted.
Qed.

End ApplicationPaths.

(** ** The candidates of an uninstallation *)
Section UninstallCandidates.
Import Os Cleaner Host.

Lemma candidate_elem (fs : FS) category path items item :
  item ∈ App.candidate fs category path items
  <-> item ∈ items
      \/ exists size,
           Utils.GetFileSizeInBytes fs path = (size, None)
           /\ item = mkItem path size category path.
Proof.
  unfold App.candidate. destruct (Utils.GetFileSizeInBytes fs path) as [size [e|]].
  - split; [tauto|]. intros [H | (sz & Hsz & _)]; [exact H | discriminate].
  - rewrite elem_of_app, list_elem_of_singleton. split.
    + intros [H | ->]; [tauto|]. right. exists size. split; reflexivity.
    + intros [H | (sz & [= <-] & ->)]; tauto.
Qed.

Lemma bundleItems_from env (fs : FS) ignorePaths appBundlePaths : forall items item,
  item ∈ fold_left
           (fun itemsToProcess bundlePath =>
              if negb (Utils.IsPathIgnored env bundlePath ignorePaths)
              then App.candidate fs "Application Bundle" bundlePath itemsToProcess
              else itemsToProcess)
           appBundlePaths items
  <-> item ∈ items
      \/ exists path size,
           path ∈ appBundlePaths
           /\ Utils.IsPathIgnored env path ignorePaths = false
           /\ Utils.GetFileSizeInBytes fs path = (size, None)
           /\ item = mkItem path size "Application Bundle" path.
Proof.
  induction appBundlePaths as [|bundlePath paths IH]; intros items item.
  - cbn. split; [tauto|]. intros [H | (p & s & Hp & _)]; [exact H|].
    apply elem_of_nil in Hp. contradiction.
  - cbn [fold_left]. rewrite IH. split.
    + intros [H | (p & s & Hp & H)].
      * destruct (Utils.IsPathIgnored env bundlePath ignorePaths) eqn:Hig; cbn [negb] in H;
          [tauto|].
        apply candidate_elem in H as [H | (size & Hsz & ->)]; [tauto|].
        right. exists bundlePath, size. split; [apply list_elem_of_here | tauto].
      * right. exists p, s. split; [apply list_elem_of_further, Hp | exact H].
    + intros [H | (p & s & Hp & Hig & Hsz & ->)].
      * left. destruct (negb (Utils.IsPathIgnored env bundlePath ignorePaths)); [|exact H].
        apply candidate_elem. tauto.
      * apply elem_of_cons in Hp as [-> | Hp].
        -- left. rewrite Hig. cbn [negb]. apply candidate_elem. right. eauto.
        -- right. exists p, s. tauto.
Qed.

Lemma matchItems_from env host (fs : FS) ignorePaths matches : forall items item,
  item ∈ fold_left
           (fun itemsToProcess match_ =>
              if statOk host match_ && negb (Utils.IsPathIgnored env match_ ignorePaths)
              then App.candidate fs "Application Leftover" match_ itemsToProcess
              else itemsToProcess)
           matches items
  <-> item ∈ items
      \/ exists path size,
           path ∈ matches /\ statOk host path = true
           /\ Utils.IsPathIgnored env path ignorePaths = false
           /\ Utils.GetFileSizeInBytes fs path = (size, None)
           /\ item = mkItem path size "Application Leftover" path.
Proof.
  induction matches as [|match_ matches IH]; intros items item.
  - cbn. split; [tauto|]. intros [H | (p & s & Hp & _)]; [exact H|].
    apply elem_of_nil in Hp. contradiction.
  - cbn [fold_left]. rewrite IH. split.
    + intros [H | (p & s & Hp & H)].
      * destruct (statOk host match_) eqn:Hst; cbn [andb] in H; [|tauto].
        destruct (Utils.IsPathIgnored env match_ ignorePaths) eqn:Hig; cbn [negb] in H;
          [tauto|].
        apply candidate_elem in H as [H | (size & Hsz & ->)]; [tauto|].
        right. exists match_, size. split; [apply list_elem_of_here | tauto].
      * right. exists p, s. split; [apply list_elem_of_further, Hp | exact H].
    + intros [H | (p & s & Hp & Hst & Hig & Hsz & ->)].
      * left.
        destruct (statOk host match_ && negb (Utils.IsPathIgnored env match_ ignorePaths));
          [|exact H].
        apply candidate_elem. tauto.
      * apply elem_of_cons in Hp as [-> | Hp].
        -- left. rewrite Hst, Hig. cbn [negb andb]. apply candidate_elem. right. eauto.
        -- right. exists p, s. tauto.
Qed.

Lemma leftoverItems_elem env host (fs : FS) ignorePaths patterns : forall items item,
  item ∈ App.leftoverItems env host fs ignorePaths patterns items
  <-> item ∈ items
      \/ exists pattern matches path size,
           pattern ∈ patterns /\ Glob host pattern = inl matches
           /\ path ∈ matches /\ statOk host path = true
           /\ Utils.IsPathIgnored env path ignorePaths = false
           /\ Utils.GetFileSizeInBytes fs path = (size, None)
           /\ item = mkItem path size "Application Leftover" path.
Proof.
  unfold App.leftoverItems.
  induction patterns as [|pattern patterns IH]; intros items item.
  - cbn. split; [tauto|]. intros [H | (p & m & x & s & Hp & _)]; [exact H|].
    apply elem_of_nil in Hp. contradiction.
  - cbn [fold_left]. rewrite IH. split.
    + intros [H | (p & m & x & s & Hp & H)].
      * destruct (Glob host pattern) as [matches|e] eqn:Hg; [|tauto].
        apply matchItems_from in H as [H | (x & s & Hx & H)]; [tauto|].
        right. exists pattern, matches, x, s. split; [apply list_elem_of_here | tauto].
      * right. exists p, m, x, s. split; [apply list_elem_of_further, Hp | exact H].
    + intros [H | (p & m & x & s & Hp & Hg & Hx & H)].
      * left. destruct (Glob host pattern); [|exact H]. apply matchItems_from. tauto.
      * apply elem_of_cons in Hp as [-> | Hp].
        -- left. rewrite Hg. apply matchItems_from. right. exists x, s. tauto.
        -- right. exists p, m, x, s. tauto.
Qed.

(** The candidates of an uninstallation, by where they come from. *)
Lemma uninstallItems_elem env host toLower (fs : FS) ignorePaths appName item :
  item ∈ App.uninstallItems env host toLower fs ignorePaths appName
  <-> (exists path size,
         path ∈ Paths.FindPaths env host toLower (App.appInstallPaths env)
                  (App.bundleName appName)
         /\ Utils.IsPathIgnored env path ignorePaths = false
         /\ Utils.GetFileSizeInBytes fs path = (size, None)
         /\ item = mkItem path size "Application Bundle" path)
      \/ (exists pattern matches path size,
            pattern ∈ Paths.appDataPaths toLower (HOME env)
                           (StringsMore.TrimSuffix (App.bundleName appName) ".app")
            /\ Glob host pattern = inl matches
            /\ path ∈ matches /\ statOk host path = true
            /\ Utils.IsPathIgnored env path ignorePaths = false
            /\ Utils.GetFileSizeInBytes fs path = (size, None)
            /\ item = mkItem path size "Application Leftover" path).
Proof.
  unfold App.uninstallItems, App.bundleItems.
  rewrite leftoverItems_elem, bundleItems_from, elem_of_nil. tauto.
Qed.

Lemma HasSuffix_bundleName appName :
  StringsMore.HasSuffix (App.bundleName appName) ".app" = true.
Proof.
  unfold App.bundleName. destruct (StringsMore.HasSuffix appName ".app") eqn:Hs;
    cbn [negb]; [exact Hs | apply HasSuffix_append].
Qed.

(** X18.  Every candidate of an uninstallation is listed under its own
    path, as an application bundle or as a leftover, is not ignored by
    the ignore list, and has the size [GetFileSizeInBytes] gives for its
    path.  A leftover matches one of the nine patterns made from the
    bare application name and is found by [os.Stat]; a path whose size
    cannot be computed is no candidate. *)
Theorem uninstall_candidates_are_measured_and_not_ignored env host toLower (fs : FS) ignorePaths
    appName item :
  item ∈ App.uninstallItems env host toLower fs ignorePaths appName ->
  Path item = ActualPath item
  /\ (Category item = "Application Bundle" \/ Category item = "Application Leftover")
  /\ Utils.IsPathIgnored env (ActualPath item) ignorePaths = false
  /\ Utils.GetFileSizeInBytes fs (ActualPath item) = (Size item, None)
  /\ (Category item = "Application Leftover" ->
      statOk host (ActualPath item) = true
      /\ exists pattern matches,
           pattern ∈ Paths.appDataPaths toLower (HOME env)
                          (StringsMore.TrimSuffix (App.bundleName appName) ".app")
           /\ Glob host pattern = inl matches
           /\ ActualPath item ∈ matches).
Proof.
  intros Hin. apply uninstallItems_elem in Hin
    as [(path & size & Hp & Hig & Hsz & ->)
       | (pattern & matches & path & size & Hp & Hg & Hx & Hst & Hig & Hsz & ->)];
    cbn [Path ActualPath Category Size].
  - repeat split; try assumption; [left; reflexivity | discriminate | discriminate].
  - repeat split; try assumption; [right; reflexivity|]. exists pattern, matches. tauto.
Qed.

(** X19.  With a home directory set, [UninstallApplication] lists every
    leftover twice: the search for the bundle already returns the
    matches of the nine leftover patterns, so each leftover candidate
    has a twin of the same path and size listed as an application
    bundle. *)
Theorem uninstall_lists_leftovers_twice env host toLower (fs : FS) ignorePaths appName item :
  HOME env <> "" ->
  item ∈ App.uninstallItems env host toLower fs ignorePaths appName ->
  Category item = "Application Leftover" ->
  mkItem (Path item) (Size item) "Application Bundle" (ActualPath item)
    ∈ App.uninstallItems env host toLower fs ignorePaths appName
  /\ mkItem (Path item) (Size item) "Application Bundle" (ActualPath item) <> item.
Proof.
  intros Hhome Hin Hcat.
  assert (Hdir : UserHomeDir env = inl (HOME env)).
  { unfold UserHomeDir. destruct (String.eqb (HOME env) "") eqn:He; [|reflexivity].
    apply String.eqb_eq in He. contradiction. }
  apply uninstallItems_elem in Hin
    as [(path & size & Hp & Hig & Hsz & ->)
       | (pattern & matches & path & size & Hp & Hg & Hx & Hst & Hig & Hsz & ->)];
    cbn [Path ActualPath Category Size] in *; [discriminate|].
  split; [|discriminate].
  apply uninstallItems_elem. left. exists path, size.
  split; [|tauto]. apply FindPaths_elem. right.
  split; [apply HasSuffix_bundleName|]. exists (HOME env), pattern, matches. tauto.
Qed.

End UninstallCandidates.

(** ** The dry run of an uninstallation *)
Section UninstallDryRun.
Import Os Cleaner Host.

Variable range_order : gmap string Z -> list (string * Z).
Hypothesis range_order_perm : forall m, range_order m ≡ₚ map_to_list m.

(** X20.  The dry run of an uninstallation predicts the run itself: on
    one file system, [UninstallApplication] returns the same total and
    no error with the dry-run flag and without it, and leaves the same
    estimated ledger; that total is the int64 sum of the sizes of the
    candidates.  Without the flag the actual ledger gains every
    candidate, marked removed with the size it was listed with; with it
    the actual ledger is left as it was. *)
Theorem uninstall_dry_run_predicts_the_run env host toLower appName ignorePaths summary
    estimatedSummary w :
  let dry := fst (App.UninstallApplication range_order env host toLower appName true ignorePaths
                    summary estimatedSummary w) in
  let real := fst (App.UninstallApplication range_order env host toLower appName false ignorePaths
                     summary estimatedSummary w) in
  let items := App.uninstallItems env host toLower (fs w) ignorePaths appName in
  fst (fst real) = fst (fst dry)
  /\ fst (fst real) = (Int64.wrap64 (Int64.zsum (Size <$> items)), None)
  /\ snd real = snd dry
  /\ snd (fst dry) = summary
  /\ Reclaimer.Entries (snd (fst real))
     = Reclaimer.Entries summary
       ++ ((fun item =>
              Reclaimer.mkEntry (ActualPath item) (Size item) true (Category item))
             <$> items).
Proof.
  cbv zeta. unfold App.UninstallApplication.
  assert (Hm : Forall
                 (fun item =>
                    Utils.GetFileSizeInBytes (fs w) (ActualPath item) = (Size item, None))
                 (App.uninstallItems env host toLower (fs w) ignorePaths appName)).
  { apply Forall_forall. intros item Hin.
    apply uninstallItems_elem in Hin
      as [(path & size & Hp & Hig & Hsz & ->)
         | (pattern & matches & path & size & Hp & Hg & Hx & Hst & Hig & Hsz & ->)];
      exact Hsz. }
  destruct (App.uninstallItems env host toLower (fs w) ignorePaths appName) as [|item items].
  { cbn. rewrite app_nil_r. repeat split; reflexivity. }
  pose proof (dry_run_outcome range_order range_order_perm item items false summary
                estimatedSummary
                ("Application Cleanup for '"
                 +:+ StringsMore.TrimSuffix (App.bundleName appName) ".app" +:+ "'")
                true w) as Hdry.
  pose proof (application_outcome_measured range_order item items summary
                estimatedSummary
                ("Application Cleanup for '"
                 +:+ StringsMore.TrimSuffix (App.bundleName appName) ".app" +:+ "'")
                w Hm) as Hreal.
  destruct (processCleanupItems range_order (item :: items) true false summary
              estimatedSummary _ true w) as [outd wd].
  destruct (processCleanupItems range_order (item :: items) false false summary
              estimatedSummary _ true w) as [outr wr].
  cbn [fst snd] in *. subst outd outr. cbn. repeat split; reflexivity.
Qed.

End UninstallDryRun.

(** ** The candidates of the system cleanup *)
Section SystemCandidates.
Import Os Cleaner Host.

(** What [consider] requires of a path before it lists it. *)
Let listed env host (fs : FS) expandedIgnorePaths (targets : list System.cleanupTarget)
    (item : cleanupItem) : Prop :=
  exists target sinceModTime,
    target ∈ targets
    /\ Category item = System.Category target
    /\ Path item = System.displayPath (System.LogAggregationRoots target) (ActualPath item)
    /\ Utils.ContainsPath env (ActualPath item) expandedIgnorePaths = false
    /\ Stat host (ActualPath item) = StatOk sinceModTime
    /\ (0 < System.MinAge target -> System.MinAge target <= sinceModTime)
    /\ Utils.GetFileSizeInBytes fs (ActualPath item) = (Size item, None).

Lemma consider_listed env host (fs : FS) expandedIgnorePaths targets target items path :
  target ∈ targets ->
  Forall (listed env host fs expandedIgnorePaths targets) items ->
  Forall (listed env host fs expandedIgnorePaths targets)
    (System.consider env host fs expandedIgnorePaths target items path).
Proof.
  intros Ht Hitems. unfold System.consider.
  destruct (Utils.ContainsPath env path expandedIgnorePaths) eqn:Hig; [exact Hitems|].
  destruct (Stat host path) as [e|since] eqn:Hst; [exact Hitems|].
  destruct ((0 <? System.MinAge target) && (since <? System.MinAge target)) eqn:Hage;
    [exact Hitems|].
  destruct (Utils.GetFileSizeInBytes fs path) as [size [e|]] eqn:Hsz; [exact Hitems|].
  apply Forall_app. split; [exact Hitems|]. constructor; [|constructor].
  exists target, since. cbn [Category Path ActualPath Size].
  repeat split; try assumption; try reflexivity.
  intros Hpos. apply andb_false_iff in Hage as [Hage | Hage].
  - apply Z.ltb_ge in Hage. lia.
  - apply Z.ltb_ge in Hage. exact Hage.
Qed.

Lemma collect_listed env host (fs : FS) expandedIgnorePaths targets :
  Forall (listed env host fs expandedIgnorePaths targets)
    (System.collect env host fs expandedIgnorePaths targets).
Proof.
  unfold System.collect.
  assert (Hgen : forall some items,
            (forall target, target ∈ some -> target ∈ targets) ->
            Forall (listed env host fs expandedIgnorePaths targets) items ->
            Forall (listed env host fs expandedIgnorePaths targets)
              (fold_left
                 (fun itemsToProcess target =>
                    fold_left
                      (fun itemsToProcess pattern =>
                         match Glob host pattern with
                         | inr _ => itemsToProcess
                         | inl matches =>
                             fold_left
                               (System.consider env host fs expandedIgnorePaths target)
                               matches itemsToProcess
                         end)
                      (System.Paths target) itemsToProcess)
                 some items)).
  { induction some as [|target some IH]; intros items Hsub Hitems; [exact Hitems|].
    cbn [fold_left]. apply IH.
    { intros t Ht. apply Hsub, list_elem_of_further, Ht. }
    assert (Ht : target ∈ targets) by apply Hsub, list_elem_of_here.
    generalize (System.Paths target). intros patterns. revert items Hitems.
    induction patterns as [|pattern patterns IHp]; intros items Hitems; [exact Hitems|].
    cbn [fold_left]. apply IHp.
    destruct (Glob host pattern) as [matches|e]; [|exact Hitems].
    revert items Hitems.
    induction matches as [|path matches IHm]; intros items Hitems; [exact Hitems|].
    cbn [fold_left]. apply IHm, consider_listed; assumption. }
  apply Hgen; [tauto | constructor].
Qed.

Lemma displayPath_cases roots path :
  System.displayPath roots path = path
  \/ (System.displayPath roots path ∈ roots
      /\ Strings.HasPrefix path (System.displayPath roots path) = true).
Proof.
  unfold System.displayPath.
  destruct (List.find (Strings.HasPrefix path) roots) as [root|] eqn:Hf; [|left; reflexivity].
  right. apply List.find_some in Hf as [Hin Hp]. cbn [default].
  split; [apply list_elem_of_In, Hin | exact Hp].
Qed.

(** X21.  Every candidate of the system cleanup has passed the checks
    of the loop: its path is not ignored under the expanded ignore list,
    [os.Stat] finds it, and its size is what [GetFileSizeInBytes] gives
    for it.  It is shown under its own path or under an aggregation
    root that opens its path, and its category is one of the eight of
    the targets.  The minimum age protects what is recent: a temporary
    file listed was last modified at least 24 hours ago, a user log at
    least 30 days ago, and a download at least 90 days ago. *)
Theorem system_candidates_are_old_enough env host (fs : FS) expandedIgnorePaths item :
  item ∈ System.collect env host fs expandedIgnorePaths (System.getCleanupTargets env) ->
  Utils.ContainsPath env (ActualPath item) expandedIgnorePaths = false
  /\ Utils.GetFileSizeInBytes fs (ActualPath item) = (Size item, None)
  /\ (Path item = ActualPath item
      \/ Strings.HasPrefix (ActualPath item) (Path item) = true)
  /\ Category item
       ∈ [ "User Temporary Files"; "System Temporary Files"; "User Caches";
            "System Caches"; "User Logs"; "Browser Caches"; "Trash Bin";
            "Downloads (old)" ]
  /\ exists sinceModTime,
       Stat host (ActualPath item) = StatOk sinceModTime
       /\ (Category item = "User Temporary Files"
           \/ Category item = "System Temporary Files" ->
           24 * System.Hour <= sinceModTime)
       /\ (Category item = "User Logs" -> 30 * 24 * System.Hour <= sinceModTime)
       /\ (Category item = "Downloads (old)" -> 90 * 24 * System.Hour <= sinceModTime).
Proof.
  intros Hin.
  pose proof (collect_listed env host fs expandedIgnorePaths (System.getCleanupTargets env))
    as Hall.
  rewrite Forall_forall in Hall.
  destruct (Hall item Hin) as (target & since & Ht & Hcat & Hpath & Hig & Hst & Hage & Hsz).
  split; [exact Hig|]. split; [exact Hsz|]. split.
  { rewrite Hpath.
    destruct (displayPath_cases (System.LogAggregationRoots target) (ActualPath item))
      as [H | [_ H]]; [left; exact H | right; exact H]. }
  assert (Hhour : 0 < System.Hour) by (unfold System.Hour; lia).
  unfold System.getCleanupTargets in Ht.
  repeat (apply elem_of_cons in Ht as [-> | Ht]);
    [ .. | apply elem_of_nil in Ht; contradiction ];
    cbn [System.Category System.MinAge] in Hcat, Hage; rewrite Hcat;
    (split; [set_solver|]); exists since; (split; [exact Hst|]);
    repeat split; intros Hc; try discriminate Hc;
    try (destruct Hc as [Hc | Hc]; discriminate Hc);
    apply Hage; lia.
Qed.

End SystemCandidates.

(** ** The [--ignore] flag *)
Section IgnoreFlag.

Lemma without_rev_string sep c : forall acc,
  Notions.without sep c = true -> Notions.without sep acc = true ->
  Notions.without sep (Strings.rev_string c acc) = true.
Proof.
  induction c as [|a c IH]; intros acc Hc Hacc; cbn in *; [exact Hacc|].
  apply andb_true_iff in Hc as [Ha Hc]. apply IH; [exact Hc|]. cbn. now rewrite Ha.
Qed.

Lemma Split_aux_without sep s : forall cur,
  Notions.without sep cur = true ->
  Forall (fun c => Notions.without sep c = true) (StringsMore.Split_aux sep s cur).
Proof.
  induction s as [|a s IH]; intros cur Hcur; cbn [StringsMore.Split_aux].
  - constructor; [|constructor]. now apply without_rev_string.
  - destruct (Ascii.eqb a sep) eqn:Ha.
    + constructor; [now apply without_rev_string | now apply IH].
    + apply IH. cbn. now rewrite Ha.
Qed.

Lemma Split_aux_element sep c : forall s cur,
  Notions.without sep c = true ->
  StringsMore.Split_aux sep (c +:+ s) cur
  = StringsMore.Split_aux sep s (Strings.rev_string c cur).
Proof.
  induction c as [|a c IH]; intros s cur Hc; [reflexivity|].
  cbn [Notions.without] in Hc. apply andb_true_iff in Hc as [Ha Hc].
  apply negb_true_iff in Ha.
  rewrite append_cons. cbn [StringsMore.Split_aux Strings.rev_string]. rewrite Ha.
  now apply IH.
Qed.

(** Splitting what was joined gives the pieces back. *)
Lemma Split_concat sep cs :
  Forall (fun c => Notions.without sep c = true) cs -> cs <> [] ->
  StringsMore.Split (String.concat (String sep "") cs) sep = cs.
Proof.
  unfold StringsMore.Split. induction 1 as [|c cs Hc Hcs IH]; intros Hne; [congruence|].
  destruct cs as [|c' cs].
  - cbn [String.concat]. rewrite <- (append_nil_r c) at 1.
    rewrite Split_aux_element by exact Hc. cbn [StringsMore.Split_aux].
    now rewrite rev_string_twice.
  - change (String.concat (String sep "") (c :: c' :: cs))
      with (c +:+ String sep (String.concat (String sep "") (c' :: cs))).
    rewrite Split_aux_element by exact Hc. cbn [StringsMore.Split_aux].
    rewrite Ascii.eqb_refl, rev_string_twice, IH by discriminate. reflexivity.
Qed.

Lemma drop_without sep k : forall s,
  Notions.without sep s = true -> Notions.without sep (Strings.drop k s) = true.
Proof.
  induction k as [|k IH]; intros [|a s] Hs; cbn in *; try exact Hs; try reflexivity.
  apply andb_true_iff in Hs as [_ Hs]. now apply IH.
Qed.

Lemma TrimLeft_aux_without sep sps fuel : forall s,
  Notions.without sep s = true ->
  Notions.without sep (Strings.TrimLeft_aux fuel sps s) = true.
Proof.
  induction fuel as [|fuel IH]; intros s Hs; cbn [Strings.TrimLeft_aux]; [exact Hs|].
  destruct (Strings.leading_space sps s) as [k|]; [|exact Hs].
  apply IH, drop_without, Hs.
Qed.

(** Trimming takes bytes away and brings none in. *)
Lemma TrimSpace_without sep s :
  Notions.without sep s = true -> Notions.without sep (Strings.TrimSpace s) = true.
Proof.
  intros Hs. unfold Strings.TrimSpace.
  apply without_rev_string; [|reflexivity].
  apply TrimLeft_aux_without, without_rev_string; [|reflexivity].
  apply TrimLeft_aux_without, Hs.
Qed.

Lemma parse_from pieces : forall (IgnorePaths : list string),
  fold_left
    (fun IgnorePaths p =>
       let trimmedPath := Strings.TrimSpace p in
       if negb (String.eqb trimmedPath "") then IgnorePaths ++ [trimmedPath]
       else IgnorePaths)
    pieces IgnorePaths
  = IgnorePaths
    ++ List.filter (fun p => negb (String.eqb p "")) (Strings.TrimSpace <$> pieces).
Proof.
  induction pieces as [|p pieces IH]; intros IgnorePaths; cbn [fold_left].
  - cbn. now rewrite app_nil_r.
  - rewrite IH, fmap_cons. cbn [List.filter].
    destruct (negb (String.eqb (Strings.TrimSpace p) "")); [|reflexivity].
    now rewrite <- app_assoc.
Qed.

(** X22.  [PersistentPreRunE] never fails and keeps the ignore entries
    it finds, in their order; what it adds from the flag are the pieces
    between the commas, trimmed, in their order, and of these no entry
    is empty and none holds a comma.  An empty flag adds nothing. *)
Theorem PersistentPreRunE_adds_trimmed_entries ignorePathsStr IgnorePaths :
  snd (Root.PersistentPreRunE ignorePathsStr IgnorePaths) = None
  /\ Root.PersistentPreRunE "" IgnorePaths = (IgnorePaths, None)
  /\ exists added,
       fst (Root.PersistentPreRunE ignorePathsStr IgnorePaths) = IgnorePaths ++ added
       /\ Forall (fun p => p <> "" /\ Notions.without ","%char p = true) added
       /\ sublist added (Strings.TrimSpace <$> StringsMore.Split ignorePathsStr ","%char).
Proof.
  split; [|split].
  - unfold Root.PersistentPreRunE. destruct (negb (String.eqb ignorePathsStr "")); reflexivity.
  - reflexivity.
  - unfold Root.PersistentPreRunE.
    destruct (negb (String.eqb ignorePathsStr "")).
    + cbn [fst]. rewrite parse_from. eexists. split; [reflexivity|]. split.
      * apply Forall_forall. intros p Hp.
        apply list_elem_of_In, List.filter_In in Hp as [Hin Hne].
        split.
        -- intros ->. discriminate.
        -- rewrite <- list_elem_of_In in Hin.
           apply list_elem_of_fmap in Hin as (piece & -> & Hpiece).
           apply TrimSpace_without.
           pose proof (Split_aux_without ","%char ignorePathsStr "" eq_refl) as Hall.
           rewrite Forall_forall in Hall. apply Hall, Hpiece.
      * generalize (Strings.TrimSpace <$> StringsMore.Split ignorePathsStr ",").
        intros l. induction l as [|x l IH]; cbn [List.filter]; [constructor|].
        destruct (negb (String.eqb x "")); [apply sublist_skip | apply sublist_cons];
          exact IH.
    + exists []. cbn [fst]. rewrite app_nil_r. split; [reflexivity|].
      split; [constructor | apply sublist_nil_l].
Qed.

(** X23.  The flag reads back what was written into it: for paths that
    hold no comma, are not empty and have no white space at their ends,
    [PersistentPreRunE] on the paths joined by commas appends exactly
    these paths, in their order, to the ignore list. *)
Theorem PersistentPreRunE_reads_back_joined_paths paths IgnorePaths :
  Forall (fun p => Notions.without ","%char p = true) paths ->
  Forall (fun p => p <> "" /\ Strings.TrimSpace p = p) paths ->
  Root.PersistentPreRunE (String.concat "," paths) IgnorePaths
  = (IgnorePaths ++ paths, None).
Proof.
  intros Hcomma Hplain. unfold Root.PersistentPreRunE.
  assert (Hkeep : List.filter (fun p => negb (String.eqb p ""))
                    (Strings.TrimSpace <$> paths) = paths).
  { clear Hcomma. induction Hplain as [|x l [Hx Ht] _ IH]; [reflexivity|].
    rewrite fmap_cons. cbn [List.filter]. rewrite Ht, IH.
    destruct (String.eqb x "") eqn:Hxe; [apply String.eqb_eq in Hxe; congruence|].
    reflexivity. }
  destruct paths as [|p paths]; [cbn; now rewrite app_nil_r|].
  assert (Hne : String.eqb (String.concat "," (p :: paths)) "" = false).
  { inversion Hplain as [|? ? [Hp _] _]; subst.
    destruct p as [|a p]; [congruence|]. destruct paths; reflexivity. }
  rewrite Hne. cbn [negb]. rewrite Split_concat by (try assumption; discriminate).
  rewrite parse_from, Hkeep. reflexivity.
Qed.

End IgnoreFlag.

(** ** The ignore list of the scan for large files *)
Section ScanIgnoreList.
Import Os Cleaner.

Lemma cleanedIgnorePaths_from env ignorePaths wd : forall cleaned,
  Getwd env = inl wd ->
  exists resolved,
    fold_left
      (fun cleaned p =>
         match Filepath.Abs (Getwd env) (Utils.ExpandPath env p) with
         | inr _ => cleaned
         | inl absPath => cleaned ++ [absPath]
         end)
      ignorePaths cleaned
    = cleaned ++ resolved
    /\ Forall2 (fun p absPath =>
                  Filepath.Abs (Getwd env) (Utils.ExpandPath env p) = inl absPath)
         ignorePaths resolved.
Proof.
  intros cleaned Hwd. revert cleaned.
  induction ignorePaths as [|p ignorePaths IH]; intros cleaned.
  - exists []. cbn. rewrite app_nil_r. split; [reflexivity | constructor].
  - cbn [fold_left].
    destruct (Filepath.Abs (Getwd env) (Utils.ExpandPath env p)) as [absPath|e] eqn:Habs.
    + destruct (IH (cleaned ++ [absPath])) as (resolved & Heq & Hall).
      exists (absPath :: resolved). rewrite Heq, <- app_assoc.
      split; [reflexivity|]. constructor; assumption.
    + exfalso. unfold Filepath.Abs in Habs. rewrite Hwd in Habs.
      destruct (Filepath.IsAbs (Utils.ExpandPath env p)); discriminate.
Qed.

Lemma ExpandPath_plain env path :
  Strings.HasPrefix path "/" = true ->
  Strings.Contains path "$HOME" = false ->
  Strings.Contains path "${HOME}" = false ->
  Utils.ExpandPath env path = path.
Proof.
  intros Hroot H1 H2. unfold Utils.ExpandPath. rewrite H1, H2.
  destruct path as [|a path]; [discriminate|]. cbn [Strings.HasPrefix] in *.
  destruct (Ascii.eqb a "/") eqn:Ha; [|discriminate].
  apply Ascii.eqb_eq in Ha. subst a. reflexivity.
Qed.

(** What [filepath.Abs] returns is absolute and clean, so it resolves
    to itself. *)
Lemma Abs_Abs getwd path absPath :
  (forall wd, getwd = inl wd -> Strings.HasPrefix wd "/" = true) ->
  Filepath.Abs getwd path = inl absPath ->
  Strings.HasPrefix absPath "/" = true /\ Filepath.Abs getwd absPath = inl absPath.
Proof.
  intros Hwd Habs. destruct (Abs_rooted getwd path absPath Hwd Habs) as (cs & Hcs & ->).
  assert (Hr : Strings.HasPrefix (Spec.rootedForm cs) "/" = true) by apply HasPrefix_slash.
  split; [exact Hr|].
  unfold Filepath.Abs, Filepath.IsAbs. rewrite Hr.
  now rewrite Clean_rootedForm.
Qed.

(** X24.  The scan for large files honours the ignore list of the
    operator: with an absolute working directory, and when no resolved
    entry holds a home placeholder, a path is ignored under the list the
    scan prepares (the applications folder of the user, then the
    entries made absolute) exactly when it is ignored under the
    applications folder and the entries as the operator wrote them. *)
Theorem scan_ignore_list_is_the_operators env ignorePaths wd path :
  Getwd env = inl wd ->
  Strings.HasPrefix wd "/" = true ->
  (forall p absPath,
     p ∈ ignorePaths ->
     Filepath.Abs (Getwd env) (Utils.ExpandPath env p) = inl absPath ->
     Strings.Contains absPath "$HOME" = false
     /\ Strings.Contains absPath "${HOME}" = false) ->
  Utils.IsPathIgnored env path (LargeFiles.cleanedIgnorePaths env ignorePaths)
  = Utils.IsPathIgnored env path
      (Utils.ExpandPath env "$HOME/Applications/" :: ignorePaths).
Proof.
  intros Hwd Hroot Hplain. unfold Utils.IsPathIgnored, LargeFiles.cleanedIgnorePaths.
  destruct (cleanedIgnorePaths_from env ignorePaths wd
              [Utils.ExpandPath env "$HOME/Applications/"] Hwd) as (resolved & -> & Hall).
  cbn [app]. apply ContainsPath_canonical. constructor; [reflexivity|].
  assert (Hwd' : forall wd', Getwd env = inl wd' -> Strings.HasPrefix wd' "/" = true).
  { intros wd' H. rewrite Hwd in H. injection H as <-. exact Hroot. }
  clear Hwd. induction Hall as [|p absPath ignorePaths resolved Habs _ IH]; [constructor|].
  constructor.
  - destruct (Abs_Abs _ _ _ Hwd' Habs) as (Hr & Hfix).
    destruct (Hplain p absPath (list_elem_of_here _ _) Habs) as (H1 & H2).
    rewrite (ExpandPath_plain env absPath Hr H1 H2), Hfix. symmetry. exact Habs.
  - apply IH. intros q a Hq. apply Hplain, list_elem_of_further, Hq.
Qed.

End ScanIgnoreList.

(** ** The classifier below the home directory *)
Section ClassifierHome.
Import Os Cleaner.

Lemma HasPrefix_append h s : Strings.HasPrefix (h +:+ s) h = true.
Proof.
  induction h as [|a h IH]; [apply HasPrefix_nil|].
  rewrite append_cons. cbn [Strings.HasPrefix]. now rewrite Ascii.eqb_refl.
Qed.

(** X25.  With a home directory at hand, a path below it is never
    classed as a system file nor left to the fallback: its category is
    one of those of the rules up to the rule of the home directory. *)
Theorem home_paths_get_a_user_category env homeDir rest :
  UserHomeDir env = inl homeDir ->
  let category := categorizeLargeFilePath env (homeDir +:+ "/" +:+ rest) in
  category <> "System Files"
  /\ category <> "Other Large Files"
  /\ category
       ∈ [ "Browser Caches"; "User Downloads"; "User Documents";
            "Application Support Files"; "User Caches"; "User Container Data";
            "User Group Container Data"; "Messages Attachments"; "Spotlight Metadata";
            "Other User Library Files"; "System Temporary Files";
            "Developer Tool Caches/Data"; "User Home Files" ].
Proof.
  intros Hhome category.
  assert (Hcat : category
       ∈ [ "Browser Caches"; "User Downloads"; "User Documents";
            "Application Support Files"; "User Caches"; "User Container Data";
            "User Group Container Data"; "Messages Attachments"; "Spotlight Metadata";
            "Other User Library Files"; "System Temporary Files";
            "Developer Tool Caches/Data"; "User Home Files" ]).
  { subst category. unfold categorizeLargeFilePath. rewrite Hhome.
    rewrite HasPrefix_append, ReplaceFirst_prefix by apply HasPrefix_append.
    rewrite drop_append.
    change ("~" +:+ "/" +:+ rest) with ("~/" +:+ rest).
    assert (Hrule : Strings.HasPrefix ("~/" +:+ rest) "~/" = true) by apply HasPrefix_nil.
    rewrite Hrule.
    repeat match goal with
           | |- context [if ?c then _ else _] => destruct c
           end; set_solver. }
  split; [|split; [|exact Hcat]]; intros Heq; rewrite Heq in Hcat;
    repeat (apply elem_of_cons in Hcat as [Hcat | Hcat]; [discriminate Hcat|]);
    apply elem_of_nil in Hcat; contradiction.
Qed.

End ClassifierHome.

(** ** What the system cleanup does not miss *)
Section SystemComplete.
Import Os Cleaner Host.

Lemma consider_elem env host (fs : FS) expandedIgnorePaths target items path item :
  item ∈ System.consider env host fs expandedIgnorePaths target items path
  <-> item ∈ items
      \/ exists sinceModTime size,
           Utils.ContainsPath env path expandedIgnorePaths = false
           /\ Stat host path = StatOk sinceModTime
           /\ (0 < System.MinAge target -> System.MinAge target <= sinceModTime)
           /\ Utils.GetFileSizeInBytes fs path = (size, None)
           /\ item = mkItem (System.displayPath (System.LogAggregationRoots target) path)
                       size (System.Category target) path.
Proof.
  unfold System.consider.
  destruct (Utils.ContainsPath env path expandedIgnorePaths) eqn:Hig.
  { split; [tauto|]. intros [H | (s & z & Hc & _)]; [exact H | discriminate]. }
  destruct (Stat host path) as [e|since] eqn:Hst.
  { split; [tauto|]. intros [H | (s & z & _ & Hc & _)]; [exact H | discriminate]. }
  destruct ((0 <? System.MinAge target) && (since <? System.MinAge target)) eqn:Hage.
  { split; [tauto|]. intros [H | (s & z & _ & [= <-] & Hold & _)]; [exact H|].
    apply andb_true_iff in Hage as [Hpos Hlt].
    apply Z.ltb_lt in Hpos, Hlt. specialize (Hold Hpos). lia. }
  assert (Hold : 0 < System.MinAge target -> System.MinAge target <= since).
  { intros Hpos. apply andb_false_iff in Hage as [Hage | Hage];
      apply Z.ltb_ge in Hage; lia. }
  destruct (Utils.GetFileSizeInBytes fs path) as [size [e|]] eqn:Hsz.
  { split; [tauto|]. intros [H | (s & z & _ & _ & _ & Hc & _)]; [exact H | discriminate]. }
  rewrite elem_of_app, list_elem_of_singleton. split.
  - intros [H | ->]; [tauto|]. right. exists since, size. tauto.
  - intros [H | (s & z & _ & _ & _ & [= <-] & ->)]; tauto.
Qed.

Lemma consider_keeps env host (fs : FS) expandedIgnorePaths target matches :
  forall items item,
    item ∈ items ->
    item ∈ fold_left (System.consider env host fs expandedIgnorePaths target) matches items.
Proof.
  induction matches as [|path matches IH]; intros items item Hin; [exact Hin|].
  cbn [fold_left]. apply IH, consider_elem. tauto.
Qed.

Lemma consider_adds env host (fs : FS) expandedIgnorePaths target matches :
  forall items path sinceModTime size,
    path ∈ matches ->
    Utils.ContainsPath env path expandedIgnorePaths = false ->
    Stat host path = StatOk sinceModTime ->
    (0 < System.MinAge target -> System.MinAge target <= sinceModTime) ->
    Utils.GetFileSizeInBytes fs path = (size, None) ->
    mkItem (System.displayPath (System.LogAggregationRoots target) path) size
      (System.Category target) path
      ∈ fold_left (System.consider env host fs expandedIgnorePaths target) matches items.
Proof.
  induction matches as [|x matches IH]; intros items path since size Hin Hig Hst Hold Hsz.
  - apply elem_of_nil in Hin. contradiction.
  - cbn [fold_left]. apply elem_of_cons in Hin as [-> | Hin].
    + apply consider_keeps, consider_elem. right. exists since, size. tauto.
    + eapply IH; eassumption.
Qed.

Let patternsLoop env host (fs : FS) expandedIgnorePaths target
    (patterns : list string) (items : list cleanupItem) : list cleanupItem :=
  fold_left
    (fun itemsToProcess pattern =>
       match Glob host pattern with
       | inr _ => itemsToProcess
       | inl matches =>
           fold_left (System.consider env host fs expandedIgnorePaths target) matches
             itemsToProcess
       end)
    patterns items.

Lemma patternsLoop_keeps env host (fs : FS) expandedIgnorePaths target patterns :
  forall items item,
    item ∈ items -> item ∈ patternsLoop env host fs expandedIgnorePaths target patterns items.
Proof.
  unfold patternsLoop.
  induction patterns as [|pattern patterns IH]; intros items item Hin; [exact Hin|].
  cbn [fold_left]. apply IH. destruct (Glob host pattern); [|exact Hin].
  apply consider_keeps, Hin.
Qed.

(** X26.  The system cleanup misses nothing that is eligible: a path
    that [filepath.Glob] returns for a pattern of a target, that is not
    ignored under the expanded ignore list, that [os.Stat] finds, that
    is as old as the target asks (when it asks) and whose size can be
    computed, is a candidate, with that size, the category of the
    target, and the display path of the target's aggregation roots. *)
Theorem system_cleanup_lists_every_eligible_match env host (fs : FS) expandedIgnorePaths
    targets target pattern matches path sinceModTime size :
  target ∈ targets ->
  pattern ∈ System.Paths target ->
  Glob host pattern = inl matches ->
  path ∈ matches ->
  Utils.ContainsPath env path expandedIgnorePaths = false ->
  Stat host path = StatOk sinceModTime ->
  (0 < System.MinAge target -> System.MinAge target <= sinceModTime) ->
  Utils.GetFileSizeInBytes fs path = (size, None) ->
  mkItem (System.displayPath (System.LogAggregationRoots target) path) size
    (System.Category target) path
    ∈ System.collect env host fs expandedIgnorePaths targets.
Proof.
  intros Ht Hp Hg Hin Hig Hst Hold Hsz. unfold System.collect.
  fold (patternsLoop env host fs expandedIgnorePaths).
  assert (Hkeep : forall some items item,
            item ∈ items ->
            item ∈ fold_left
                     (fun itemsToProcess target0 =>
                        patternsLoop env host fs expandedIgnorePaths target0
                          (System.Paths target0) itemsToProcess) some items).
  { induction some as [|t some IH]; intros items item Hitem; [exact Hitem|].
    cbn [fold_left]. apply IH, patternsLoop_keeps, Hitem. }
  assert (Hadd : forall patterns items,
            pattern ∈ patterns ->
            mkItem (System.displayPath (System.LogAggregationRoots target) path) size
              (System.Category target) path
              ∈ patternsLoop env host fs expandedIgnorePaths target patterns items).
  { induction patterns as [|x patterns IH]; intros items Hx.
    - apply elem_of_nil in Hx. contradiction.
    - unfold patternsLoop. cbn [fold_left]. fold (patternsLoop env host fs expandedIgnorePaths).
      apply elem_of_cons in Hx as [<- | Hx].
      + apply patternsLoop_keeps. rewrite Hg. eapply consider_adds; eassumption.
      + apply IH, Hx. }
  generalize (@nil cleanupItem).
  induction targets as [|t targets IH]; intros items.
  - apply elem_of_nil in Ht. contradiction.
  - cbn [fold_left]. apply elem_of_cons in Ht as [<- | Ht].
    + apply Hkeep, Hadd, Hp.
    + apply IH, Ht.
Qed.

End SystemComplete.
(** ** Without a home directory *)
Section WithoutHome.
Import Os Cleaner.

(** X27.  With [HOME] unset, [ExpandPath] expands nothing: it returns
    every path as it was given, the home shorthand and the placeholders
    included.  So the scan for large files walks the literal relative
    directories [$HOME/Downloads] and [$HOME/Documents], its ignore
    list opens with the literal [$HOME/Applications/], and the home
    directory the cleanup targets are made from is the shorthand
    itself. *)
Theorem ExpandPath_without_home_expands_nothing env :
  HOME env = "" ->
  (forall path, Utils.ExpandPath env path = path)
  /\ LargeFiles.dirsToScan env
     = [ "/Users"; "/private/var/folders"; "/private/tmp"; "$HOME/Downloads";
         "$HOME/Documents" ]
  /\ (exists resolved,
        LargeFiles.cleanedIgnorePaths env [] = "$HOME/Applications/" :: resolved)
  /\ (exists targets,
        System.getCleanupTargets env
        = System.mkTarget
            [ "~/Library/Caches/TemporaryItems/*"; "/private/var/folders/*/*/T/*" ]
            "User Temporary Files" (24 * System.Hour)
            [ "~/Library/Caches/TemporaryItems"; "/private/var/folders" ]
          :: targets).
Proof.
  intros Hhome.
  assert (Hexpand : forall path, Utils.ExpandPath env path = path).
  { intros path. unfold Utils.ExpandPath, UserHomeDir. rewrite Hhome. cbn [String.eqb negb].
    repeat match goal with
           | |- context [if ?c then _ else _] => destruct c
           end; reflexivity. }
  split; [exact Hexpand|]. split; [|split].
  - unfold LargeFiles.dirsToScan. now rewrite !Hexpand.
  - unfold LargeFiles.cleanedIgnorePaths. rewrite Hexpand. exists []. reflexivity.
  - unfold System.getCleanupTargets. rewrite Hexpand. eexists. reflexivity.
Qed.

End WithoutHome.

(** ** The further properties at the scenario and on the machine *)
Section FurtherWitnesses.
Import Os Cleaner Host.


Lemma confirmed_batch_removes_every_candidate_witness :
  let run :=
    processCleanupItems map_to_list Scenario.items false false Reclaimer.NewSummaryTable
      Reclaimer.NewSummaryTable "" false Machine.world in
  (forall m : gmap string Z, map_to_list m ≡ₚ map_to_list m)
  /\ stdin Machine.world = ["maybe"] ++ "y" :: ["n"]
  /\ classify "y" = Yes
  /\ totalReclaimed (fst run) = 8192
  /\ Spec.removeCalls (events (snd run))
     = [EvRemovePath "/tmp/a" false; EvRemovePath "/tmp/b" false].
Proof.
  intros run.
  assert (Hperm : forall m : gmap string Z, map_to_list m ≡ₚ map_to_list m)
    by (intros m; reflexivity).
  assert (Hinv : Forall (fun l => classify l = Invalid) ["maybe"])
    by (constructor; [reflexivity | constructor]).
  split; [exact Hperm|]. split; [reflexivity|]. split; [reflexivity|].
  subst run. unfold Scenario.items.
  pose proof (confirmed_batch_removes_every_candidate map_to_list Hperm
                (mkItem "/tmp/a" 4096 "System Temporary Files" "/tmp/a")
                [mkItem "/tmp/b" 4096 "System Temporary Files" "/tmp/b"]
                Reclaimer.NewSummaryTable Reclaimer.NewSummaryTable "" Machine.world
                ["maybe"] "y" ["n"] eq_refl Hinv eq_refl) as Hrun.
  cbv zeta in Hrun. destruct Hrun as (Hout & Hevents & _).
  rewrite Hout, Hevents. vm_compute. split; reflexivity.
Defined.

Lemma measured_candidates_reclaim_the_estimate_witness :
  (forall m : gmap string Z, map_to_list m ≡ₚ map_to_list m)
  /\ Forall
       (fun item =>
          Utils.GetFileSizeInBytes (fs Scenario.world) (ActualPath item)
          = (Size item, None))
       Scenario.items
  /\ totalReclaimed
       (fst (processCleanupItems map_to_list Scenario.items false false
               Reclaimer.NewSummaryTable Reclaimer.NewSummaryTable "" true Scenario.world))
     = 8192.
Proof.
  assert (Hperm : forall m : gmap string Z, map_to_list m ≡ₚ map_to_list m)
    by (intros m; reflexivity).
  assert (Hm : Forall
                 (fun item =>
                    Utils.GetFileSizeInBytes (fs Scenario.world) (ActualPath item)
                    = (Size item, None))
                 Scenario.items)
    by (constructor; [reflexivity | constructor; [reflexivity | constructor]]).
  split; [exact Hperm|]. split; [exact Hm|].
  rewrite (proj1 (proj2 (measured_candidates_reclaim_the_estimate map_to_list Hperm
                           Scenario.items Reclaimer.NewSummaryTable
                           Reclaimer.NewSummaryTable "" Scenario.world Hm))).
  reflexivity.
Defined.

Lemma ContainsPath_covers_the_entries_of_a_directory_witness :
  Utils.ContainsPath Scenario.env "/Users/me/Downloads" ["~/Downloads"] = true
  /\ Spec.proper "big.iso" = true
  /\ Utils.ContainsPath Scenario.env (Filepath.Join ["/Users/me/Downloads"; "big.iso"])
       ["~/Downloads"] = true.
Proof.
  split; [reflexivity|]. split; [reflexivity|].
  apply (ContainsPath_covers_the_entries_of_a_directory Scenario.env "/Users/me/Downloads"
           "big.iso" ["~/Downloads"]).
  - intros wd Hwd. injection Hwd as <-. reflexivity.
  - intros entry Hin. apply list_elem_of_singleton in Hin. subst entry.
    vm_compute. discriminate.
  - reflexivity.
  - reflexivity.
  - reflexivity.
Defined.

Lemma PrintTable_rows_by_category_witness :
  let st :=
    Reclaimer.mkTable
      [ Reclaimer.mkEntry "/tmp/a" 4096 true "System Temporary Files";
        Reclaimer.mkEntry "/tmp/b" 4096 false "System Temporary Files";
        Reclaimer.mkEntry "/c" 10 true "Browser Caches";
        Reclaimer.mkEntry "/tmp/d" 4 true "System Temporary Files" ] in
  let view :=
    Reclaimer.mkView "Reclaimed Disk Summary"
      [("Browser Caches", 10); ("System Temporary Files", 4100)] 8206 in
  Reclaimer.PrintTable st false "Reclaimed Disk Summary" = Some view
  /\ Notions.ascending (Reclaimer.rows view).*1.
Proof.
  intros st view.
  assert (Hview : Reclaimer.PrintTable st false "Reclaimed Disk Summary" = Some view)
    by (vm_compute; reflexivity).
  split; [exact Hview|].
  apply (PrintTable_rows_by_category st false "Reclaimed Disk Summary" view Hview).
Defined.

Lemma scan_lists_large_files_not_ignored_witness :
  let cleaned := LargeFiles.cleanedIgnorePaths Scenario.env [] in
  let item :=
    mkItem "/Users/me/Downloads/big.iso" 209715200 "User Downloads"
      "/Users/me/Downloads/big.iso" in
  LargeFiles.scan Scenario.env Machine.files cleaned (LargeFiles.dirsToScan Scenario.env)
  = [item; item]
  /\ Utils.IsPathIgnored Scenario.env (ActualPath item) cleaned = false.
Proof.
  intros cleaned item.
  assert (Hscan : LargeFiles.scan Scenario.env Machine.files cleaned
                    (LargeFiles.dirsToScan Scenario.env) = [item; item])
    by (vm_compute; reflexivity).
  split; [exact Hscan|].
  apply (scan_lists_large_files_not_ignored Scenario.env Machine.files cleaned
           (LargeFiles.dirsToScan Scenario.env) item).
  rewrite Hscan. apply list_elem_of_here.
Defined.

Lemma uninstall_candidates_are_measured_and_not_ignored_witness :
  let leftover :=
    mkItem "/Users/me/Library/Caches/Notes" 4096 "Application Leftover"
      "/Users/me/Library/Caches/Notes" in
  App.uninstallItems Scenario.env Machine.host Strings.ToLower Machine.files [] "Notes"
  = [ mkItem "/Applications/Notes.app" 5642 "Application Bundle" "/Applications/Notes.app";
      mkItem "/Users/me/Library/Caches/Notes" 4096 "Application Bundle"
        "/Users/me/Library/Caches/Notes";
      leftover ]
  /\ Utils.GetFileSizeInBytes Machine.files (ActualPath leftover) = (Size leftover, None).
Proof.
  intros leftover.
  assert (Hitems : App.uninstallItems Scenario.env Machine.host Strings.ToLower
                     Machine.files [] "Notes"
                   = [ mkItem "/Applications/Notes.app" 5642 "Application Bundle"
                         "/Applications/Notes.app";
                       mkItem "/Users/me/Library/Caches/Notes" 4096 "Application Bundle"
                         "/Users/me/Library/Caches/Notes";
                       leftover ])
    by (vm_compute; reflexivity).
  split; [exact Hitems|].
  apply (uninstall_candidates_are_measured_and_not_ignored Scenario.env Machine.host
           Strings.ToLower Machine.files [] "Notes" leftover).
  rewrite Hitems. apply list_elem_of_further, list_elem_of_further, list_elem_of_here.
Defined.

Lemma uninstall_lists_leftovers_twice_witness :
  let leftover :=
    mkItem "/Users/me/Library/Caches/Notes" 4096 "Application Leftover"
      "/Users/me/Library/Caches/Notes" in
  HOME Scenario.env <> ""
  /\ Category leftover = "Application Leftover"
  /\ mkItem "/Users/me/Library/Caches/Notes" 4096 "Application Bundle"
       "/Users/me/Library/Caches/Notes"
       ∈ App.uninstallItems Scenario.env Machine.host Strings.ToLower Machine.files [] "Notes".
Proof.
  intros leftover.
  assert (Hhome : HOME Scenario.env <> "") by discriminate.
  assert (Hin : leftover
                  ∈ App.uninstallItems Scenario.env Machine.host Strings.ToLower
                      Machine.files [] "Notes").
  { vm_compute. apply list_elem_of_further, list_elem_of_further, list_elem_of_here. }
  split; [exact Hhome|]. split; [reflexivity|].
  apply (uninstall_lists_leftovers_twice Scenario.env Machine.host Strings.ToLower
           Machine.files [] "Notes" leftover Hhome Hin eq_refl).
Defined.

Lemma uninstall_dry_run_predicts_the_run_witness :
  (forall m : gmap string Z, map_to_list m ≡ₚ map_to_list m)
  /\ fst (fst (fst (App.UninstallApplication map_to_list Scenario.env Machine.host
                      Strings.ToLower "Notes" false [] Reclaimer.NewSummaryTable
                      Reclaimer.NewSummaryTable Machine.world)))
     = fst (fst (fst (App.UninstallApplication map_to_list Scenario.env Machine.host
                        Strings.ToLower "Notes" true [] Reclaimer.NewSummaryTable
                        Reclaimer.NewSummaryTable Machine.world))).
Proof.
  assert (Hperm : forall m : gmap string Z, map_to_list m ≡ₚ map_to_list m)
    by (intros m; reflexivity).
  split; [exact Hperm|].
  apply (uninstall_dry_run_predicts_the_run map_to_list Hperm Scenario.env Machine.host
           Strings.ToLower "Notes" [] Reclaimer.NewSummaryTable Reclaimer.NewSummaryTable
           Machine.world).
Defined.

Lemma system_candidates_are_old_enough_witness :
  let item := mkItem "/tmp" 4096 "System Temporary Files" "/tmp/a" in
  System.collect Scenario.env Machine.host Machine.files []
    (System.getCleanupTargets Scenario.env) = [item]
  /\ Strings.HasPrefix (ActualPath item) (Path item) = true
  /\ Utils.GetFileSizeInBytes Machine.files (ActualPath item) = (Size item, None).
Proof.
  intros item.
  assert (Hitems : System.collect Scenario.env Machine.host Machine.files []
                     (System.getCleanupTargets Scenario.env) = [item])
    by (vm_compute; reflexivity).
  split; [exact Hitems|]. split; [reflexivity|].
  apply (system_candidates_are_old_enough Scenario.env Machine.host Machine.files []
           item).
  rewrite Hitems. apply list_elem_of_here.
Defined.

Lemma PersistentPreRunE_reads_back_joined_paths_witness :
  Forall (fun p => Notions.without ","%char p = true) ["~/Music"; "/tmp/x"]
  /\ Forall (fun p => p <> "" /\ Strings.TrimSpace p = p) ["~/Music"; "/tmp/x"]
  /\ Root.PersistentPreRunE "~/Music,/tmp/x" ["/old"]
     = (["/old"; "~/Music"; "/tmp/x"], None).
Proof.
  assert (Hcomma : Forall (fun p => Notions.without ","%char p = true)
                     ["~/Music"; "/tmp/x"])
    by (constructor; [reflexivity | constructor; [reflexivity | constructor]]).
  assert (Hplain : Forall (fun p => p <> "" /\ Strings.TrimSpace p = p)
                     ["~/Music"; "/tmp/x"]).
  { constructor; [split; [discriminate | reflexivity]|].
    constructor; [split; [discriminate | reflexivity] | constructor]. }
  split; [exact Hcomma|]. split; [exact Hplain|].
  apply (PersistentPreRunE_reads_back_joined_paths ["~/Music"; "/tmp/x"] ["/old"]
           Hcomma Hplain).
Defined.

Lemma scan_ignore_list_is_the_operators_witness :
  Getwd Scenario.env = inl "/work"
  /\ Filepath.Abs (Getwd Scenario.env) (Utils.ExpandPath Scenario.env "~/Downloads")
     = inl "/Users/me/Downloads"
  /\ Utils.IsPathIgnored Scenario.env "/Users/me/Downloads/big.iso"
       (LargeFiles.cleanedIgnorePaths Scenario.env ["~/Downloads"])
     = Utils.IsPathIgnored Scenario.env "/Users/me/Downloads/big.iso"
         (Utils.ExpandPath Scenario.env "$HOME/Applications/" :: ["~/Downloads"]).
Proof.
  split; [reflexivity|]. split; [reflexivity|].
  apply (scan_ignore_list_is_the_operators Scenario.env ["~/Downloads"] "/work"
           "/Users/me/Downloads/big.iso"); [reflexivity | reflexivity |].
  intros p absPath Hin Habs. apply list_elem_of_singleton in Hin. subst p.
  vm_compute in Habs. injection Habs as <-. split; reflexivity.
Defined.

Lemma home_paths_get_a_user_category_witness :
  UserHomeDir Scenario.env = inl "/Users/me"
  /\ categorizeLargeFilePath Scenario.env ("/Users/me" +:+ "/" +:+ "Movies/film.mov")
     <> "System Files".
Proof.
  split; [reflexivity|].
  apply (home_paths_get_a_user_category Scenario.env "/Users/me" "Movies/film.mov" eq_refl).
Defined.

Lemma system_cleanup_lists_every_eligible_match_witness :
  let target :=
    System.mkTarget [ "/private/var/tmp/*"; "/tmp/*" ] "System Temporary Files"
      (24 * System.Hour) [ "/private/var/tmp"; "/tmp" ] in
  target ∈ System.getCleanupTargets Scenario.env
  /\ Glob Machine.host "/tmp/*" = inl ["/tmp/a"; "/tmp/b"]
  /\ Stat Machine.host "/tmp/a" = StatOk (48 * Machine.hour)
  /\ mkItem "/tmp" 4096 "System Temporary Files" "/tmp/a"
       ∈ System.collect Scenario.env Machine.host Machine.files []
           (System.getCleanupTargets Scenario.env).
Proof.
  intros target.
  assert (Ht : target ∈ System.getCleanupTargets Scenario.env)
    by (apply list_elem_of_further, list_elem_of_here).
  split; [exact Ht|]. split; [reflexivity|]. split; [reflexivity|].
  apply (system_cleanup_lists_every_eligible_match Scenario.env Machine.host Machine.files
           [] (System.getCleanupTargets Scenario.env) target "/tmp/*" ["/tmp/a"; "/tmp/b"]
           "/tmp/a" (48 * Machine.hour) 4096 Ht).
  - apply list_elem_of_further, list_elem_of_here.
  - reflexivity.
  - apply list_elem_of_here.
  - reflexivity.
  - reflexivity.
  - intros _. vm_compute. discriminate.
  - reflexivity.
Defined.

Lemma ExpandPath_without_home_expands_nothing_witness :
  let env := mkEnv "" (inl "/work") in
  HOME env = ""
  /\ Utils.ExpandPath env "~/Downloads" = "~/Downloads"
  /\ Utils.ExpandPath env "$HOME/Downloads" = "$HOME/Downloads".
Proof.
  intros env. split; [reflexivity|].
  split; apply (proj1 (ExpandPath_without_home_expands_nothing env eq_refl)).
Defined.

End FurtherWitnesses.
